(** * Frame-batch analysis pipeline of [backend/app/services/gpt_service.py]

    A shallow embedding of [GPTService]: the prompt resolver
    ([_build_full_prompt]), the response interpreter ([_strip_markdown_code_blocks],
    [_repair_json], the parsing part of [analyze_frame]), the batch call
    ([analyze_frame_batch]) and the batch planner and executor
    ([batch_analyze_frames]).

    Conventions.
    - A Python [str] is a Rocq [string]: the sequence of bytes of its UTF-8
      encoding.  Searching, splitting at a found position and concatenation
      commute with that encoding.  Whitespace is the ASCII part of
      [str.isspace], [lower] acts on ASCII letters, and the two previews cut
      at a fixed length count bytes.
    - A Python [dict] used as a frame is a [gmap string value]; a decoded JSON
      object keeps its keys in insertion order (an association list).
    - [s.find(t)] returns [option nat], [None] standing for [-1].
    - The outside world (files, database, the model endpoint, the clock) is an
      oracle threaded through a state and error monad. *)

From Stdlib Require Import ZArith QArith Ascii String List Lia.
From stdpp Require Import base option list strings gmap sorting.

#[local] Set Warnings "-register-all".
Local Open Scope Z_scope.
Local Open Scope nat_scope.

(** ** Python string operations *)

Module Str.

(** [str.isspace] on the ASCII range: TAB, LF, VT, FF, CR, the four
    separators 0x1c-0x1f and the space. *)
Definition is_space (c : ascii) : bool :=
  let n := nat_of_ascii c in
  ((9 <=? n) && (n <=? 13)) || ((28 <=? n) && (n <=? 32)).

Definition is_empty (s : string) : bool :=
  match s with EmptyString => true | String _ _ => false end.

(** [s.startswith(p)] *)
Fixpoint startswith (p s : string) : bool :=
  match p, s with
  | EmptyString, _ => true
  | String _ _, EmptyString => false
  | String a p', String b s' => Ascii.eqb a b && startswith p' s'
  end.

(** [s[:n]] and [s[n:]] for [n >= 0] *)
Fixpoint take (n : nat) (s : string) : string :=
  match n, s with
  | S n', String c s' => String c (take n' s')
  | _, _ => EmptyString
  end.

Fixpoint drop (n : nat) (s : string) : string :=
  match n, s with
  | S n', String _ s' => drop n' s'
  | _, _ => s
  end.

(** [s[a:b]] for [0 <= a] and [0 <= b] *)
Definition slice (a b : nat) (s : string) : string := take (b - a) (drop a s).

(** [s[:-k]] for [k > 0] *)
Definition drop_last (k : nat) (s : string) : string :=
  take (String.length s - k) s.

(** [s.endswith(p)] *)
Definition endswith (p s : string) : bool :=
  (String.length p <=? String.length s)
  && String.eqb (drop (String.length s - String.length p) s) p.

(** [s.find(sub)]: the lowest index at which [sub] occurs. *)
Fixpoint find (sub s : string) : option nat :=
  if startswith sub s then Some 0
  else match s with
       | EmptyString => None
       | String _ s' => match find sub s' with
                        | Some i => Some (S i)
                        | None => None
                        end
       end.

(** [s.rfind(sub)]: the highest index at which [sub] occurs. *)
Fixpoint rfind (sub s : string) : option nat :=
  match s with
  | EmptyString => if startswith sub s then Some 0 else None
  | String _ s' => match rfind sub s' with
                   | Some i => Some (S i)
                   | None => if startswith sub s then Some 0 else None
                   end
  end.

(** [sub in s] *)
Definition contains (sub s : string) : bool :=
  match find sub s with Some _ => true | None => false end.

(** [s.count(c)] for a one-character [c] *)
Fixpoint count_char (c : ascii) (s : string) : nat :=
  match s with
  | EmptyString => 0
  | String d s' => (if Ascii.eqb c d then 1 else 0) + count_char c s'
  end.

(** [s.lstrip(chars)] and [s.rstrip(chars)], the set given as a predicate *)
Fixpoint lstrip_by (P : ascii -> bool) (s : string) : string :=
  match s with
  | EmptyString => EmptyString
  | String c s' => if P c then lstrip_by P s' else s
  end.

Fixpoint rstrip_by (P : ascii -> bool) (s : string) : string :=
  match s with
  | EmptyString => EmptyString
  | String c s' =>
      match rstrip_by P s' with
      | EmptyString => if P c then EmptyString else String c EmptyString
      | r => String c r
      end
  end.

Definition in_chars (chars : string) (c : ascii) : bool :=
  contains (String c EmptyString) chars.

Definition lstrip (chars : string) := lstrip_by (in_chars chars).
Definition rstrip (chars : string) := rstrip_by (in_chars chars).

(** [s.strip()], [s.rstrip()] without argument *)
Definition rstrip_ws := rstrip_by is_space.
Definition lstrip_ws := lstrip_by is_space.
Definition strip (s : string) : string := lstrip_ws (rstrip_ws s).

(** [s.lower()] on ASCII letters *)
Definition lower_char (c : ascii) : ascii :=
  let n := nat_of_ascii c in
  if (65 <=? n) && (n <=? 90) then ascii_of_nat (n + 32) else c.

Fixpoint lower (s : string) : string :=
  match s with
  | EmptyString => EmptyString
  | String c s' => String (lower_char c) (lower s')
  end.

(** [re.sub(lit + r'\s*\n?', '', s)] for a literal [lit]: every leftmost
    occurrence of [lit] is deleted together with the whitespace run that
    follows it (the greedy [\s*] already takes every newline, so [\n?]
    matches the empty string). *)
Fixpoint delete_fences (fuel : nat) (lit s : string) : string :=
  match fuel with
  | 0 => s
  | S fuel' =>
      if startswith lit s && negb (is_empty lit)
      then delete_fences fuel' lit (lstrip_ws (drop (String.length lit) s))
      else match s with
           | EmptyString => EmptyString
           | String c s' => String c (delete_fences fuel' lit s')
           end
  end.

Definition re_sub_fence (lit s : string) : string :=
  delete_fences (S (String.length s)) lit s.

End Str.

Definition LF : string := String (ascii_of_nat 10) EmptyString.
Definition CR : string := String (ascii_of_nat 13) EmptyString.
Definition TAB : string := String (ascii_of_nat 9) EmptyString.
Definition FENCE : string := "```".
Definition FENCE_JSON : string := "```json".


(** ** Python values and the JSON decoder *)

(** The values [json.loads] produces, which are also the values stored in a
    frame.  A float is a finite decimal [m * 10^e]; NaN and the infinities
    are left out.  A decoded object keeps its keys in insertion order. *)
Inductive value : Type :=
| VNone
| VBool (b : bool)
| VInt (z : Z)
| VFloat (m e : Z)
| VStr (s : string)
| VList (l : list value)
| VDict (d : list (string * value)).

Module Dict.

Definition t := list (string * value).

(** [d.get(k)] *)
Fixpoint get (k : string) (d : t) : option value :=
  match d with
  | [] => None
  | (k', v) :: d' => if String.eqb k k' then Some v else get k d'
  end.

(** [d[k] = v]: an existing key keeps its position. *)
Fixpoint set (k : string) (v : value) (d : t) : t :=
  match d with
  | [] => [(k, v)]
  | (k', v') :: d' =>
      if String.eqb k k' then (k', v) :: d' else (k', v') :: set k v d'
  end.

(** [dict(pairs)] *)
Definition of_pairs (pairs : list (string * value)) : t :=
  fold_left (fun d kv => set (fst kv) (snd kv) d) pairs [].

(** [k in d] *)
Definition mem (k : string) (d : t) : bool :=
  match get k d with Some _ => true | None => false end.

End Dict.

(** Python truthiness, [bool(v)] *)
Definition truthy (v : value) : bool :=
  match v with
  | VNone => false
  | VBool b => b
  | VInt z => negb (z =? 0)%Z
  | VFloat m _ => negb (m =? 0)%Z
  | VStr s => negb (Str.is_empty s)
  | VList l => match l with [] => false | _ => true end
  | VDict d => match d with [] => false | _ => true end
  end.

(** [type(v).__name__] *)
Definition type_name (v : value) : string :=
  match v with
  | VNone => "NoneType"
  | VBool _ => "bool"
  | VInt _ => "int"
  | VFloat _ _ => "float"
  | VStr _ => "str"
  | VList _ => "list"
  | VDict _ => "dict"
  end.

Module Json.

Definition is_ws (c : ascii) : bool :=
  match nat_of_ascii c with
  | 32 | 9 | 10 | 13 => true
  | _ => false
  end.

Definition skip_ws : string -> string := Str.lstrip_by is_ws.

Definition digit (c : ascii) : option Z :=
  let n := nat_of_ascii c in
  if (48 <=? n) && (n <=? 57) then Some (Z.of_nat (n - 48)) else None.

Definition hex (c : ascii) : option N :=
  let n := nat_of_ascii c in
  if (48 <=? n) && (n <=? 57) then Some (N.of_nat (n - 48))
  else if (65 <=? n) && (n <=? 70) then Some (N.of_nat (n - 55))
  else if (97 <=? n) && (n <=? 102) then Some (N.of_nat (n - 87))
  else None.

Definition hex4 (a b c d : ascii) : option N :=
  match hex a, hex b, hex c, hex d with
  | Some x, Some y, Some z, Some w => Some (((x * 16 + y) * 16 + z) * 16 + w)%N
  | _, _, _, _ => None
  end.

(** One unit of a string literal: a byte copied from the text, or the code
    unit of a [\uXXXX] escape. *)
Inductive unit_ := UByte (c : ascii) | UEsc (n : N).

(** The one-character escapes *)
Definition unescape (c : ascii) : option ascii :=
  match nat_of_ascii c with
  | 34 => Some (ascii_of_nat 34)    (* quote *)
  | 92 => Some (ascii_of_nat 92)    (* backslash *)
  | 47 => Some (ascii_of_nat 47)    (* slash *)
  | 98 => Some (ascii_of_nat 8)     (* b: backspace *)
  | 102 => Some (ascii_of_nat 12)   (* f: form feed *)
  | 110 => Some (ascii_of_nat 10)   (* n: line feed *)
  | 114 => Some (ascii_of_nat 13)   (* r: carriage return *)
  | 116 => Some (ascii_of_nat 9)    (* t: tab *)
  | _ => None
  end.

(** [scanstring] in strict mode, from just after the opening quote. *)
Fixpoint scan_string (s : string) : option (list unit_ * string) :=
  match s with
  | EmptyString => None
  | String c r =>
      match nat_of_ascii c with
      | 34 => Some ([], r)
      | 92 =>
          match r with
          | EmptyString => None
          | String e r' =>
              if Ascii.eqb e "u"%char then
                match r' with
                | String h1 (String h2 (String h3 (String h4 r''))) =>
                    match hex4 h1 h2 h3 h4, scan_string r'' with
                    | Some n, Some (us, rest) => Some (UEsc n :: us, rest)
                    | _, _ => None
                    end
                | _ => None
                end
              else
                match unescape e, scan_string r' with
                | Some c', Some (us, rest) => Some (UByte c' :: us, rest)
                | _, _ => None
                end
          end
      | n =>
          if n <? 32 then None
          else match scan_string r with
               | Some (us, rest) => Some (UByte c :: us, rest)
               | None => None
               end
      end
  end.

(** UTF-8 bytes of a code point *)
Definition utf8 (n : N) : string :=
  let b (x : N) := String (ascii_of_N x) EmptyString in
  (if n <? 128 then b n
   else if n <? 2048 then b (192 + n / 64) +:+ b (128 + n mod 64)
   else if n <? 65536 then
     b (224 + n / 4096) +:+ b (128 + (n / 64) mod 64) +:+ b (128 + n mod 64)
   else
     b (240 + n / 262144) +:+ b (128 + (n / 4096) mod 64)
     +:+ b (128 + (n / 64) mod 64) +:+ b (128 + n mod 64))%N.

(** A high surrogate escape directly followed by a low surrogate escape is
    one code point. *)
Fixpoint assemble (us : list unit_) : string :=
  match us with
  | [] => EmptyString
  | UByte c :: us' => String c (assemble us')
  | UEsc hi :: us' =>
      match us' with
      | UEsc lo :: us'' =>
          if ((55296 <=? hi) && (hi <=? 56319) && (56320 <=? lo) && (lo <=? 57343))%N
          then utf8 (65536 + (hi - 55296) * 1024 + (lo - 56320))%N +:+ assemble us''
          else utf8 hi +:+ assemble us'
      | _ => utf8 hi +:+ assemble us'
      end
  end.

Fixpoint take_digits (s : string) : list Z * string :=
  match s with
  | EmptyString => ([], s)
  | String c r =>
      match digit c with
      | Some d => let '(ds, rest) := take_digits r in (d :: ds, rest)
      | None => ([], s)
      end
  end.

Definition digits_val (ds : list Z) : Z :=
  fold_left (fun acc d => acc * 10 + d)%Z ds 0%Z.

(** The integer part: [0] or a digit run that does not start with [0]. *)
Definition scan_int (s : string) : option (list Z * string) :=
  match s with
  | EmptyString => None
  | String c r =>
      match digit c with
      | None => None
      | Some d =>
          if (d =? 0)%Z then Some ([d], r)
          else let '(ds, rest) := take_digits r in Some (d :: ds, rest)
      end
  end.

(** [(\.[0-9]+)?] *)
Definition scan_frac (s : string) : list Z * string :=
  match s with
  | String c r =>
      if Ascii.eqb c "."%char then
        match take_digits r with
        | ([], _) => ([], s)
        | (ds, rest) => (ds, rest)
        end
      else ([], s)
  | EmptyString => ([], s)
  end.

(** [([eE][-+]?[0-9]+)?] *)
Definition scan_exp (s : string) : option Z * string :=
  match s with
  | String c r =>
      if Ascii.eqb c "e"%char || Ascii.eqb c "E"%char then
        let '(neg, r1) :=
          match r with
          | String sg r' =>
              if Ascii.eqb sg "-"%char then (true, r')
              else if Ascii.eqb sg "+"%char then (false, r')
              else (false, r)
          | EmptyString => (false, r)
          end in
        match take_digits r1 with
        | ([], _) => (None, s)
        | (ds, rest) =>
            (Some (if neg then - digits_val ds else digits_val ds)%Z, rest)
        end
      else (None, s)
  | EmptyString => (None, s)
  end.

Definition scan_number (s : string) : option (value * string) :=
  let '(neg, s1) :=
    match s with
    | String c r => if Ascii.eqb c "-"%char then (true, r) else (false, s)
    | EmptyString => (false, s)
    end in
  match scan_int s1 with
  | None => None
  | Some (ids, r1) =>
      let '(fds, r2) := scan_frac r1 in
      let '(ex, r3) := scan_exp r2 in
      let sign (z : Z) := if neg then (- z)%Z else z in
      match fds, ex with
      | [], None => Some (VInt (sign (digits_val ids)), r3)
      | _, _ =>
          Some (VFloat (sign (digits_val (ids ++ fds)))
                       (default 0%Z ex - Z.of_nat (length fds))%Z, r3)
      end
  end.

(** [scan_once] with its object and array loops.  [parse_members] starts
    just after the opening quote of a key, [parse_elems] at a value. *)
Fixpoint parse_value (fuel : nat) (s : string) {struct fuel}
  : option (value * string) :=
  match fuel with
  | 0 => None
  | S fuel' =>
      match s with
      | EmptyString => None
      | String c r =>
          match nat_of_ascii c with
          | 34 =>
              match scan_string r with
              | Some (us, rest) => Some (VStr (assemble us), rest)
              | None => None
              end
          | 123 =>
              match skip_ws r with
              | String c' r' =>
                  match nat_of_ascii c' with
                  | 125 => Some (VDict [], r')
                  | 34 =>
                      match parse_members fuel' [] r' with
                      | Some (pairs, rest) => Some (VDict (Dict.of_pairs pairs), rest)
                      | None => None
                      end
                  | _ => None
                  end
              | EmptyString => None
              end
          | 91 =>
              match skip_ws r with
              | String c' r' =>
                  match nat_of_ascii c' with
                  | 93 => Some (VList [], r')
                  | _ =>
                      match parse_elems fuel' [] (skip_ws r) with
                      | Some (vs, rest) => Some (VList vs, rest)
                      | None => None
                      end
                  end
              | EmptyString => None
              end
          | 110 => if Str.startswith "null" s then Some (VNone, Str.drop 4 s) else None
          | 116 => if Str.startswith "true" s then Some (VBool true, Str.drop 4 s) else None
          | 102 => if Str.startswith "false" s then Some (VBool false, Str.drop 5 s) else None
          | _ => scan_number s
          end
      end
  end
with parse_elems (fuel : nat) (acc : list value) (s : string) {struct fuel}
  : option (list value * string) :=
  match fuel with
  | 0 => None
  | S fuel' =>
      match parse_value fuel' s with
      | None => None
      | Some (v, r) =>
          match skip_ws r with
          | String c r' =>
              match nat_of_ascii c with
              | 93 => Some (rev (v :: acc), r')
              | 44 => parse_elems fuel' (v :: acc) (skip_ws r')
              | _ => None
              end
          | EmptyString => None
          end
      end
  end
with parse_members (fuel : nat) (acc : list (string * value)) (s : string)
                   {struct fuel}
  : option (list (string * value) * string) :=
  match fuel with
  | 0 => None
  | S fuel' =>
      match scan_string s with
      | None => None
      | Some (us, r) =>
          match skip_ws r with
          | String c r1 =>
              if Ascii.eqb c ":"%char then
                match parse_value fuel' (skip_ws r1) with
                | None => None
                | Some (v, r2) =>
                    let acc' := (assemble us, v) :: acc in
                    match skip_ws r2 with
                    | String c2 r3 =>
                        match nat_of_ascii c2 with
                        | 125 => Some (rev acc', r3)
                        | 44 =>
                            match skip_ws r3 with
                            | String c3 r4 =>
                                if Ascii.eqb c3 (ascii_of_nat 34)
                                then parse_members fuel' acc' r4
                                else None
                            | EmptyString => None
                            end
                        | _ => None
                        end
                    | EmptyString => None
                    end
                end
              else None
          | EmptyString => None
          end
      end
  end.

(** [json.loads(s)]: [None] stands for [json.JSONDecodeError].  Leading and
    trailing whitespace is allowed, anything else after the value is
    rejected as extra data.  The literals [NaN] and [Infinity], which the
    decoder accepts as floats, are rejected here. *)
Definition loads (s : string) : option value :=
  match parse_value (S (S (2 * String.length s))) (skip_ws s) with
  | Some (v, rest) => if Str.is_empty (skip_ws rest) then Some v else None
  | None => None
  end.

End Json.

Definition QUOTE : string := String (ascii_of_nat 34) EmptyString.

(** The scenario's texts, with the quote character written by name. *)
Definition cat_body : string :=
  QUOTE +:+ "description" +:+ QUOTE +:+ ":" +:+ QUOTE +:+ "a cat" +:+ QUOTE
  +:+ "," +:+ QUOTE +:+ "meta_tags" +:+ QUOTE +:+ ":[" +:+ QUOTE +:+ "cat" +:+ QUOTE
  +:+ "," +:+ QUOTE +:+ "pet" +:+ QUOTE +:+ "," +:+ QUOTE +:+ "animal" +:+ QUOTE +:+ "]".

Definition cat_json : string := "{" +:+ cat_body +:+ "}".

Definition cat_dict : Dict.t :=
  [("description", VStr "a cat");
   ("meta_tags", VList [VStr "cat"; VStr "pet"; VStr "animal"])].

(** A well-formed object whose description holds a fence. *)
Definition ticks_body : string :=
  QUOTE +:+ "description" +:+ QUOTE +:+ ":" +:+ QUOTE +:+ "a ``` b" +:+ QUOTE
  +:+ "," +:+ QUOTE +:+ "meta_tags" +:+ QUOTE +:+ ":[]".

Definition ticks_json : string := "{" +:+ ticks_body +:+ "}".

(** ** Exceptions *)

Inductive exn_class : Type :=
| JSONDecodeError
| ValueError
| TypeError
| AttributeError
| TimeoutError
| OtherError.

(** An exception is its class, which the [except] clauses test, and its
    message, [str(e)]. *)
Record exn : Type := Exn { exn_cls : exn_class; str_exn : string }.

(** ** Response interpreter: the single-frame path *)

(** [GPTService._strip_markdown_code_blocks] *)
Definition _strip_markdown_code_blocks (text : string) : string :=
  let text := Str.re_sub_fence FENCE_JSON text in
  let text := Str.re_sub_fence FENCE text in
  let text := Str.strip text in
  let text := if Str.startswith FENCE text then Str.strip (Str.drop 3 text) else text in
  let text := if Str.endswith FENCE text then Str.strip (Str.drop_last 3 text) else text in
  Str.strip text.

(** The character set of [lstrip('\n\r\t ')] *)
Definition BLANKS : string := LF +:+ CR +:+ TAB +:+ " ".

Definition more_open_than_closed (s : string) : bool :=
  Str.count_char "}"%char s <? Str.count_char "{"%char s.

(** [GPTService._repair_json] *)
Definition _repair_json (json_str : string) : string :=
  let json_str := Str.strip json_str in
  if Str.is_empty json_str then "{}"
  else
    let json_str := Str.lstrip BLANKS json_str in
    let json_str :=
      if negb (Str.startswith "{" json_str) then
        match Str.find "{" json_str with
        | Some start => Str.drop start json_str
        | None =>
            if Str.contains QUOTE json_str
               || Str.contains "timestamp" (Str.lower json_str)
               || Str.contains "description" (Str.lower json_str)
            then
              let wrapped := "{" +:+ json_str in
              if more_open_than_closed wrapped then wrapped +:+ "}" else wrapped
            else json_str
        end
      else json_str in
    let json_str :=
      if negb (Str.endswith "}" json_str) then
        match Str.rfind "}" json_str with
        | Some e => Str.take (e + 1) json_str
        | None =>
            if Str.startswith "{" json_str && more_open_than_closed json_str
            then json_str +:+ "}" else json_str
        end
      else json_str in
    let json_str := Str.rstrip BLANKS json_str in
    let json_str :=
      if negb (Str.startswith "{" json_str) then "{" +:+ json_str else json_str in
    let json_str :=
      if negb (Str.endswith "}" json_str) then json_str +:+ "}" else json_str in
    Str.strip json_str.

(** The fields [analyze_frame] reads from a response. *)
Record parsed : Type := Parsed {
  p_description : value;
  p_ocr_text : value;
  p_meta_tags : value;
  p_timestamp : value
}.

Definition is_str (v : value) : bool := match v with VStr _ => true | _ => false end.
Definition is_list (v : value) : bool := match v with VList _ => true | _ => false end.

(** [isinstance(v, (int, float))]; [bool] is a subclass of [int]. *)
Definition is_number (v : value) : bool :=
  match v with VInt _ | VFloat _ _ | VBool _ => true | _ => false end.

(** [float(v)] for a number *)
Definition to_float (v : value) : value :=
  match v with
  | VInt z => VFloat z 0
  | VBool b => VFloat (if b then 1 else 0)%Z 0
  | _ => v
  end.

(** The values [len] accepts *)
Definition has_len (v : value) : bool :=
  match v with VStr _ | VList _ | VDict _ => true | _ => false end.

(** The summary print shows [description[:100]] when [len(description)]
    exceeds 100: a dict that long cannot be sliced. *)
Definition sliceable (v : value) : bool :=
  match v with VDict d => length d <=? 100 | _ => true end.

(** [a or b] *)
Definition py_or (a b : value) : value := if truthy a then a else b.

Section Interpreter.

(** The text of the [json.JSONDecodeError] raised for a document; its
    wording is the decoder's and is not modelled. *)
Variable json_error_text : string -> string.

(** Lines 519-550 of [analyze_frame]: the direct decode and, when it fails,
    the repair path. *)
Definition repair_path (content_cleaned : string) : exn + value :=
  let content_cleaned := Str.strip (_strip_markdown_code_blocks content_cleaned) in
  let json_str :=
    match Str.find "{" content_cleaned, Str.rfind "}" content_cleaned with
    | Some json_start, Some json_end =>
        if json_start <? json_end
        then Str.slice json_start (json_end + 1) content_cleaned
        else content_cleaned
    | _, _ => content_cleaned
    end in
  let json_str := _repair_json json_str in
  match Json.loads json_str with
  | Some v => inr v
  | None => inl (Exn JSONDecodeError (json_error_text json_str))
  end.

Definition decode_response (content_cleaned : string) : exn + value :=
  match Json.loads content_cleaned with
  | Some v => inr v
  | None => repair_path content_cleaned
  end.

(** Lines 552-596: field extraction, up to the summary print, whose
    [len(description)] raises on a number or a boolean. *)
Definition extract_fields (json_response timestamp_seconds : value) : exn + parsed :=
  match json_response with
  | VDict d =>
      let description := default (VStr "") (Dict.get "description" d) in
      let description :=
        if negb (truthy description) || negb (is_str description)
        then (if truthy description then description
              else VStr "No description provided")
        else description in
      let meta_tags := default (VList []) (Dict.get "meta_tags" d) in
      let meta_tags := if is_list meta_tags then meta_tags else VList [] in
      let timestamp_seconds :=
        match Dict.get "timestamp" d with
        | Some response_ts =>
            if is_number response_ts then to_float response_ts
            else timestamp_seconds
        | None => timestamp_seconds
        end in
      let ocr_text :=
        py_or (default VNone (Dict.get "ocr_text" d))
              (default VNone (Dict.get "text" d)) in
      if negb (has_len description)
      then inl (Exn TypeError
                  ("object of type '" +:+ type_name description +:+ "' has no len()"))
      else if negb (sliceable description)
      then inl (Exn TypeError "unhashable type: 'slice'")
      else inr (Parsed description ocr_text meta_tags timestamp_seconds)
  | _ =>
      inl (Exn ValueError
             ("JSON response is not a dictionary, got " +:+ type_name json_response))
  end.

(** Lines 605-634: the last repair attempt, on the raw content. *)
Definition final_repair (content : string) (e : exn) (timestamp_seconds : value)
  : exn + parsed :=
  let failed :=
    inl (Exn ValueError
           ("Failed to parse GPT JSON response: " +:+ str_exn e
            +:+ ". Content preview: " +:+ Str.take 200 content)) in
  match Json.loads (_repair_json content) with
  | Some (VDict d) =>
      let description :=
        default (VStr "Error: Could not parse GPT response")
                (Dict.get "description" d) in
      let meta_tags := default (VList []) (Dict.get "meta_tags" d) in
      let meta_tags := if is_list meta_tags then meta_tags else VList [] in
      inr (Parsed description VNone meta_tags timestamp_seconds)
  | _ => failed
  end.

(** Lines 505-644 of [analyze_frame]: from the received content to the
    parsed fields, or the exception that leaves the [try] block. *)
Definition interpret (content : option string) (timestamp_seconds : value)
  : exn + parsed :=
  let content_cleaned := match content with Some c => Str.strip c | None => "" end in
  if Str.is_empty content_cleaned
  then inl (Exn ValueError "Empty response from GPT API")
  else
    match decode_response content_cleaned with
    | inr json_response => extract_fields json_response timestamp_seconds
    | inl e => final_repair (default "" content) e timestamp_seconds
    end.

(** The message cleaning of the outer handler, lines 676-684. *)
Definition clean_error (error_str : string) : string :=
  if Str.contains "JSON parsing failed" error_str || Str.contains "Expecting" error_str
  then (if Str.contains "Response preview:" error_str
        then "Invalid JSON response from GPT API"
        else "Failed to parse GPT response as JSON")
  else error_str.

(** [analyze_frame] from the point where the call has answered (the client
    check that precedes its [try] is not part of it).  [received] is the
    content of the answer, or the exception raised while reading the image,
    formatting the prompt or calling the endpoint; [elapsed] is the measured
    time in milliseconds. *)
Definition analyze_frame (received : exn + option string)
           (timestamp_seconds frame_number : value) (elapsed : Z)
  : gmap string value :=
  let outcome :=
    match received with
    | inl e => inl e
    | inr content => interpret content timestamp_seconds
    end in
  match outcome with
  | inr p =>
      let result : gmap string value :=
        <["frame_number" := frame_number]>
        (<["timestamp" := p_timestamp p]>
        (<["model" := VStr "gpt-4o-mini"]>
        (<["processing_time_ms" := VInt elapsed]>
        (<["meta_tags" := p_meta_tags p]>
        (<["ocr_text" := p_ocr_text p]>
        (<["description" := p_description p]> ∅)))))) in
      if truthy (p_meta_tags p)
      then <["gpt_response" :=
               VDict [("description", p_description p);
                      ("ocr_text", p_ocr_text p);
                      ("meta_tags", p_meta_tags p);
                      ("timestamp", p_timestamp p);
                      ("frame_number", frame_number)]]> result
      else result
  | inl e =>
      let error_str := clean_error (str_exn e) in
      <["error" := VStr error_str]>
      (<["processing_time_ms" := VInt elapsed]>
      (<["meta_tags" := VNone]>
      (<["ocr_text" := VNone]>
      (<["description" := VStr ("Error analyzing frame: " +:+ error_str)]> ∅))))
  end.

End Interpreter.

Definition fenced (json_text : string) : string :=
  FENCE_JSON +:+ LF +:+ json_text +:+ LF +:+ FENCE.

Definition sure_cat : string := "Sure! " +:+ fenced cat_json.



(** ** Prompt resolver *)

Definition bytes (l : list nat) : string :=
  fold_right (fun n s => String (ascii_of_nat n) s) EmptyString l.

(** The start sentinel of the editable region, byte for byte as it stands in
    the source file. *)
Definition START_MARKER : string :=
  "### " +:+ bytes [195; 176; 197; 184; 226; 128; 157] +:+ " **ANALYSIS RULES**".

(** The separator line that ends the region, and the header of a next
    section, its fallback. *)
Definition END_MARKER : string := LF +:+ "---" +:+ LF.
Definition SECTION_MARKER : string := LF +:+ "### ".

(** [GPTService._build_full_prompt], with [self.prompt_template] as an
    argument. *)
Definition _build_full_prompt (full_template analysis_rules_content : string) : string :=
  match Str.find START_MARKER full_template with
  | None => full_template
  | Some start_idx =>
      let content_start := start_idx + String.length START_MARKER in
      let remaining := Str.lstrip (LF +:+ CR) (Str.drop content_start full_template) in
      let before := Str.take content_start full_template in
      let end_idx :=
        match Str.find END_MARKER remaining with
        | Some i => Some i
        | None => Str.find SECTION_MARKER remaining
        end in
      match end_idx with
      | None => before +:+ LF +:+ LF +:+ analysis_rules_content +:+ LF +:+ remaining
      | Some end_idx =>
          let after := Str.drop end_idx remaining in
          before +:+ LF +:+ LF +:+ analysis_rules_content +:+ after
      end
  end.

Definition demo_template : string :=
  "Intro" +:+ LF +:+ START_MARKER +:+ LF +:+ LF +:+ "old rules" +:+ END_MARKER +:+ "Tail".

(** ** Frames *)

(** A frame is a Python [dict] with string keys.  Each position of a frame
    list holds a dict object of its own (the extractor builds one per sampled
    instant), so an in-place [frame.update] is an update of that position. *)
Abbreviation frame := (gmap string value).

(** [f.get(k)] *)
Definition frame_get (k : string) (f : frame) : value := default VNone (f !! k).

(** [f.update({k1: v1, ...})] *)
Definition frame_update (kvs : list (string * value)) (f : frame) : frame :=
  fold_left (fun f kv => <[fst kv := snd kv]> f) kvs f.

(** The five entries every failure branch writes. *)
Definition failed (description : string) (processing_time_ms : Z) (error : string)
  : list (string * value) :=
  [("description", VStr description);
   ("ocr_text", VNone);
   ("meta_tags", VList []);
   ("processing_time_ms", VInt processing_time_ms);
   ("error", VStr error)].

Definition MISSING : string := "Missing result in batch response".
Definition NO_KEY : string := "OpenAI API key not configured".
Definition TOO_LARGE : string :=
  "Request payload too large (413). Batch size needs to be reduced.".
Definition TIMED_OUT : string :=
  "GPT API call timed out after 5 minutes. Batch may be too large or API is slow.".

(** ** Response interpreter: the batch path *)

Section BatchInterpreter.

Variable json_error_text : string -> string.

(** [repr] of the list of keys, used in one error message only. *)
Variable repr_keys : list string -> string.

Fixpoint first_list (d : Dict.t) : option (list value) :=
  match d with
  | [] => None
  | (_, VList l) :: _ => Some l
  | _ :: d' => first_list d'
  end.

(** Lines 868-894 of [analyze_frame_batch]: where the results array is
    looked for. *)
Definition batch_results (json_response : value) : exn + list value :=
  match json_response with
  | VDict d =>
      match Dict.get "frames" d with
      | Some (VList results) => inr results
      | Some results => inr (if truthy results then [results] else [])
      | None =>
          if Dict.mem "timestamp" d || Dict.mem "description" d
          then inr [json_response]
          else match first_list d with
               | Some results => inr results
               | None =>
                   inl (Exn ValueError
                          ("Could not find frames array in response. Keys: "
                           +:+ repr_keys (map fst d)))
               end
      end
  | VList results => inr results
  | _ =>
      inl (Exn ValueError
             ("Unexpected response format: <class '"
              +:+ type_name json_response +:+ "'>"))
  end.

(** The entries written for frame [i] from its result. *)
Definition analyzed (result : Dict.t) (per_frame : Z) : list (string * value) :=
  [("description", default (VStr "") (Dict.get "description" result));
   ("ocr_text", default VNone (Dict.get "ocr_text" result));
   ("meta_tags", default (VList []) (Dict.get "meta_tags" result));
   ("processing_time_ms", VInt per_frame);
   ("gpt_response", VDict result)].

(** Lines 898-919: the loop [for i, frame in enumerate(frames_batch)], from
    index [i] on.  It returns the frames as the loop left them and the
    exception that stopped it, if any: [result.get] exists on a dict only. *)
Fixpoint map_results (results : list value) (per_frame : Z) (i : nat)
         (frames : list frame) : list frame * option exn :=
  match frames with
  | [] => ([], None)
  | frame :: rest =>
      if i <? length results then
        match results !! i with
        | Some (VDict result) =>
            let '(rest', e) := map_results results per_frame (S i) rest in
            (frame_update (analyzed result per_frame) frame :: rest', e)
        | Some result =>
            (frames,
             Some (Exn AttributeError
                     ("'" +:+ type_name result +:+ "' object has no attribute 'get'")))
        | None => (frames, Some (Exn OtherError "list index out of range"))
        end
      else
        let '(rest', e) := map_results results per_frame (S i) rest in
        (frame_update (failed "No analysis result" 0 MISSING) frame :: rest', e)
  end.

(** Lines 858-941: from the content of the answer to the analyzed frames.
    On the left, the exception that reaches the outer handler together with
    the frames as they are at that moment. *)
Definition interpret_batch (content : option string) (processing_time : Z)
           (frames_batch : list frame) : (exn * list frame) + list frame :=
  let content_cleaned := match content with Some c => Str.strip c | None => "" end in
  let per_frame := (processing_time / Z.of_nat (length frames_batch))%Z in
  match Json.loads content_cleaned with
  | None =>
      let e := Exn JSONDecodeError (json_error_text content_cleaned) in
      match content with
      | None =>
          (* the handler's log line slices [content], which is [None] *)
          inl (Exn TypeError "'NoneType' object is not subscriptable", frames_batch)
      | Some _ =>
          inr (map (frame_update
                      (failed ("Error parsing batch response: " +:+ str_exn e)
                              per_frame (str_exn e)))
                   frames_batch)
      end
  | Some json_response =>
      match batch_results json_response with
      | inl e => inl (e, frames_batch)
      | inr results =>
          match map_results results per_frame 0 frames_batch with
          | (frames', None) => inr frames'
          | (frames', Some e) => inl (e, frames')
          end
      end
  end.

(** The outer handler, lines 943-957. *)
Definition batch_failed (e : exn) (frames_batch : list frame) : list frame :=
  map (frame_update (failed ("Error in batch analysis: " +:+ str_exn e) 0 (str_exn e)))
      frames_batch.

End BatchInterpreter.

(** ** Python lists: ranges, slices and sorting *)

(** [range(start, stop, step)] for [step > 0]; [fuel] bounds the length. *)
Fixpoint range_from (fuel start stop step : nat) : list nat :=
  match fuel with
  | 0 => []
  | S fuel' =>
      if start <? stop then start :: range_from fuel' (start + step) stop step
      else []
  end.

(** [range(0, stop, step)] for [stop >= 0]: a zero step raises, a negative
    step counts down from [0] and yields nothing. *)
Definition py_range (stop : nat) (step : Z) : exn + list nat :=
  if (step =? 0)%Z then inl (Exn ValueError "range() arg 3 must not be zero")
  else if (step <? 0)%Z then inr []
  else inr (range_from stop 0 stop (Z.to_nat step)).

(** A slice bound, brought into [0 .. len]: a negative bound counts from
    the end. *)
Definition clamp_index (len i : Z) : nat :=
  Z.to_nat (if (i <? 0)%Z then Z.max 0 (i + len) else Z.min i len).

Definition is_nil {A} (l : list A) : bool :=
  match l with [] => true | _ => false end.

(** [l[a:b]] *)
Definition py_slice {A} (a b : Z) (l : list A) : list A :=
  let len := Z.of_nat (length l) in
  take (clamp_index len b - clamp_index len a) (drop (clamp_index len a) l).

(** The number a sort key stands for *)
Definition num (v : value) : option Q :=
  match v with
  | VInt z => Some (inject_Z z)
  | VBool b => Some (inject_Z (if b then 1 else 0))
  | VFloat m e => Some (inject_Z m * (10 # 1) ^ e)%Q
  | _ => None
  end.

(** The key of the final sort, [x.get("timestamp", 0)] *)
Definition sort_key (x : frame) : value := default (VInt 0) (x !! "timestamp").

Fixpoint insert_by_key {A} (k : Q) (x : A) (l : list (Q * A)) : list (Q * A) :=
  match l with
  | [] => [(k, x)]
  | (k', y) :: l' =>
      if Qle_bool k k' then (k, x) :: l else (k', y) :: insert_by_key k x l'
  end.

(** A stable sort by key, as [list.sort] is: among equal keys the earlier
    element stays first. *)
Definition sort_by_key {A} (l : list (Q * A)) : list (Q * A) :=
  fold_right (fun kx acc => insert_by_key (fst kx) (snd kx) acc) [] l.

(** [l.sort(key=lambda x: x.get("timestamp", 0))].  The keys are computed
    first and compared with [<], which the model defines between numbers
    (the timestamps of frames are numbers); with any other key among two
    elements or more the comparison raises [TypeError]. *)
Definition py_sort (l : list frame) : exn + list frame :=
  match l with
  | [] | [_] => inr l
  | _ =>
      match mapM (fun x => num (sort_key x)) l with
      | Some keys => inr (map snd (sort_by_key (zip keys l)))
      | None => inl (Exn TypeError "'<' not supported between instances")
      end
  end.

(** Lines 1052-1056: the batch size in effect. *)
Definition effective_batch_size (svc_use_custom_gpt : bool) (batch_size : Z) : Z :=
  if svc_use_custom_gpt then Z.min batch_size 2 else batch_size.

(** Lines 1065-1069: the frames cut into batches. *)
Definition split_batches (frames : list frame) (effective_batch_size : Z)
  : exn + list (list frame) :=
  match py_range (length frames) effective_batch_size with
  | inl e => inl e
  | inr starts =>
      inr (map (fun i => py_slice (Z.of_nat i) (Z.of_nat i + effective_batch_size)%Z
                                  frames)
               starts)
  end.

(** Line 1178, the tally of the final log line: the frames without an
    [error] entry, or with a falsy one. *)
Definition successful (analyzed_frames : list frame) : nat :=
  length (List.filter (fun f => match f !! "error" with
                                | None => true
                                | Some e => negb (truthy e)
                                end) analyzed_frames).

(** ** The service, its configuration and the outside world *)

Record settings : Type := Settings {
  OPENAI_API_KEY : option string;
  GPT_BASE_URL : option string;
  GPT_BEARER_TOKEN : option string
}.

(** The fields of a [GPTService] instance; an OpenAI client is its API key. *)
Record service : Type := Service {
  client : option string;
  gpt_base_url : option string;
  gpt_bearer_token : option string;
  use_custom_gpt : bool;
  prompt_template : string
}.

(** Truthiness of an optional string: set and not empty. *)
Definition is_set (o : option string) : bool :=
  match o with Some s => negb (Str.is_empty s) | None => false end.

(** [GPTService.__init__], the template already loaded. *)
Definition new_service (cfg : settings) (template : string) : service :=
  {| client := if is_set (OPENAI_API_KEY cfg) then OPENAI_API_KEY cfg else None;
     gpt_base_url := GPT_BASE_URL cfg;
     gpt_bearer_token := GPT_BEARER_TOKEN cfg;
     use_custom_gpt := is_set (GPT_BASE_URL cfg) && is_set (GPT_BEARER_TOKEN cfg);
     prompt_template := template |}.

(** Lines 988-1002 of [batch_analyze_frames]: the settings are read again,
    and a custom endpoint configured meanwhile is adopted. *)
Definition refreshed (svc : service) (cfg : settings) : service :=
  if is_set (GPT_BASE_URL cfg) && is_set (GPT_BEARER_TOKEN cfg)
     && negb (use_custom_gpt svc)
  then {| client := client svc;
          gpt_base_url := GPT_BASE_URL cfg;
          gpt_bearer_token := GPT_BEARER_TOKEN cfg;
          use_custom_gpt := true;
          prompt_template := prompt_template svc |}
  else svc.

Inductive backend : Type :=
| OpenAI (api_key : string)
| CustomGPT (base_url bearer_token : option string).

(** The batch request.  The rendered prompt text is kept as its parts: the
    custom template when the user has one, the number of frames and their
    timestamps. *)
Record request : Type := Request {
  req_model : string;
  req_template : option string;
  req_frame_count : nat;
  req_timestamps : list value;
  req_images : list string;
  req_max_tokens : Z
}.

(** What the endpoint does with a request: it answers, and [Content] is the
    content of the first choice of the body ([None] for a null content); it
    refuses with an HTTP error status; the call fails with any other
    exception (of the transport, of walking through a body of an unexpected
    shape, or of stripping a content that is not a string); or nothing comes
    within the 300 seconds. *)
Inductive reply : Type :=
| Content (content : option string)
| Status (code : Z) (text : string)
| Failure (e : exn)
| NoAnswer.

Record Env : Type := {
  World : Type;
  (** the clock, in milliseconds *)
  clock : World -> Z;
  (** open the image, read it and encode it *)
  read_image : value -> World -> (exn + string) * World;
  (** the user's [frame_analysis_prompt] *)
  select_rules : string -> World -> (exn + option string) * World;
  (** the user's [openai_api_key], decrypted *)
  select_api_key : string -> World -> (exn + option string) * World;
  (** the endpoint *)
  send : backend -> request -> World -> reply * World;
  json_error_text : string -> string;
  repr_keys : list string -> string
}.

Inductive outcome (A : Type) : Type :=
| Returned (a : A)
| Raised (e : exn)
| Hung.
Arguments Returned {A} a.
Arguments Raised {A} e.
Arguments Hung {A}.

Section Service.

Context (E : Env).

(** The state: the world and the log of the requests sent so far. *)
Record St : Type := MkSt { world : World E; calls : list (backend * request) }.

(** A computation that may raise. *)
Definition M (A : Type) : Type := St -> (exn + A) * St.

Definition ret {A} (a : A) : M A := fun s => (inr a, s).
Definition raise {A} (e : exn) : M A := fun s => (inl e, s).
Definition bind {A B} (m : M A) (k : A -> M B) : M B :=
  fun s => match m s with
           | (inr a, s') => k a s'
           | (inl e, s') => (inl e, s')
           end.
(** [try: m except Exception as e: ...], the exception as a value *)
Definition try {A} (m : M A) : M (exn + A) :=
  fun s => let '(r, s') := m s in (inr r, s').

Notation "x <- m ;; k" := (bind m (fun x => k))
  (at level 100, m at next level, right associativity).

Definition ask {A} (f : World E -> A * World E) : M A :=
  fun s => let '(a, w) := f (world s) in (inr a, MkSt w (calls s)).

Definition now : M Z := fun s => (inr (clock E (world s)), s).

Definition call (b : backend) (r : request) : M reply :=
  fun s => let '(a, w) := send E b r (world s) in
           (inr a, MkSt w (calls s ++ [(b, r)])).

(** [GPTService.get_prompt_template]; every failure inside falls back to
    the default template. *)
Definition get_prompt_template (svc : service) (user_id : option string)
           (db : bool) : M string :=
  if is_set user_id && db then
    r <- ask (select_rules E (default "" user_id)) ;;
    match r with
    | inr (Some custom_analysis_rules) =>
        if negb (Str.is_empty custom_analysis_rules)
        then ret (_build_full_prompt (prompt_template svc) custom_analysis_rules)
        else ret (prompt_template svc)
    | _ => ret (prompt_template svc)
    end
  else ret (prompt_template svc).

(** [GPTService._get_openai_client] *)
Definition _get_openai_client (svc : service) (user_id : option string)
           (db : bool) : M (option string) :=
  if use_custom_gpt svc then ret None
  else if is_set user_id && db then
    r <- ask (select_api_key E (default "" user_id)) ;;
    match r with
    | inr (Some decrypted_key) =>
        if negb (Str.is_empty decrypted_key)
        then ret (Some decrypted_key)
        else ret (client svc)
    | _ => ret (client svc)
    end
  else ret (client svc).

(** [GPTService._call_custom_gpt]: a 413 status becomes the payload
    exception, any other failure is raised again as it is. *)
Definition _call_custom_gpt (r : reply) : exn + option string :=
  match r with
  | Content c => inr c
  | Status code text =>
      if (code =? 413)%Z then inl (Exn OtherError TOO_LARGE)
      else inl (Exn OtherError text)
  | Failure e => inl e
  | NoAnswer => inl (Exn TimeoutError "")
  end.

(** The OpenAI client raises its own exception for an error status. *)
Definition openai_create (r : reply) : exn + option string :=
  match r with
  | Content c => inr c
  | Status code text => inl (Exn OtherError text)
  | Failure e => inl e
  | NoAnswer => inl (Exn TimeoutError "")
  end.

(** Lines 828-853: the call under [asyncio.wait_for]; a timeout is raised
    again with its own message. *)
Definition guarded_call (svc : service) (api_key : option string) (r : request)
  : M (exn + option string) :=
  let b := if use_custom_gpt svc
           then CustomGPT (gpt_base_url svc) (gpt_bearer_token svc)
           else OpenAI (default "" api_key) in
  a <- call b r ;;
  let answered := if use_custom_gpt svc then _call_custom_gpt a else openai_create a in
  match answered with
  | inl e =>
      match exn_cls e with
      | TimeoutError => ret (inl (Exn OtherError TIMED_OUT))
      | _ => ret (inl e)
      end
  | inr content => ret (inr content)
  end.

(** Lines 731-745: the images of the frames that have a path. *)
Fixpoint read_images (frames_batch : list frame) : M (exn + list string) :=
  match frames_batch with
  | [] => ret (inr [])
  | frame :: rest =>
      let image_path :=
        py_or (frame_get "image_path" frame) (frame_get "frame_path" frame) in
      if negb (truthy image_path) then read_images rest
      else
        r <- ask (read_image E image_path) ;;
        match r with
        | inl e => ret (inl e)
        | inr base64_image =>
            more <- read_images rest ;;
            ret (match more with
                 | inl e => inl e
                 | inr images => inr (base64_image :: images)
                 end)
        end
  end.

(** The body of the [try] of [analyze_frame_batch], lines 730-941. *)
Definition batch_body (svc : service) (api_key : option string)
           (frames_batch : list frame) (user_id : option string) (db : bool)
           (start_time : Z) : M ((exn * list frame) + list frame) :=
  images <- read_images frames_batch ;;
  match images with
  | inl e => ret (inl (e, frames_batch))
  | inr [] => ret (inr frames_batch)
  | inr image_contents =>
      template <- get_prompt_template svc user_id db ;;
      let timestamps :=
        map (fun f => default (VFloat 0 0) (f !! "timestamp")) frames_batch in
      let custom :=
        if is_set user_id && db
           && negb (String.eqb template (prompt_template svc))
        then Some template else None in
      let api_params :=
        Request "gpt-4o-mini" custom (length frames_batch) timestamps
                image_contents 4000 in
      answered <- guarded_call svc api_key api_params ;;
      match answered with
      | inl e => ret (inl (e, frames_batch))
      | inr content =>
          end_time <- now ;;
          ret (interpret_batch (json_error_text E) (repr_keys E) content
                               (end_time - start_time)%Z frames_batch)
      end
  end.

(** [GPTService.analyze_frame_batch] *)
Definition analyze_frame_batch (svc : service) (frames_batch : list frame)
           (user_id : option string) (db : bool) : M (list frame) :=
  api_key <-
    (if negb (use_custom_gpt svc) then
       c <- _get_openai_client svc user_id db ;;
       match c with
       | None => raise (Exn ValueError NO_KEY)
       | Some k => ret (Some k)
       end
     else ret None) ;;
  match frames_batch with
  | [] => ret []
  | _ =>
      start_time <- now ;;
      r <- batch_body svc api_key frames_batch user_id db start_time ;;
      match r with
      | inr frames' => ret frames'
      | inl (e, frames') => ret (batch_failed e frames')
      end
  end.

(** The test of line 1101 *)
Definition is_payload_too_large (error_str : string) : bool :=
  Str.contains "413" error_str
  || Str.contains "Request Entity Too Large" error_str
  || Str.contains "payload too large" (Str.lower error_str).

(** Lines 1112-1130: the frames of the batch, one call each. *)
Fixpoint analyze_individually (svc : service) (batch : list frame)
         (user_id : option string) (db : bool) : M (list frame) :=
  match batch with
  | [] => ret []
  | frame :: rest =>
      r <- try (analyze_frame_batch svc [frame] user_id db) ;;
      let individual :=
        match r with
        | inr single_result => single_result
        | inl frame_error =>
            [frame_update
               (failed ("Error analyzing frame: " +:+ str_exn frame_error) 0
                       (str_exn frame_error)) frame]
        end in
      more <- analyze_individually svc rest user_id db ;;
      ret (individual ++ more)
  end.

(** [analyze_batch_with_semaphore], lines 1080-1151, once the semaphore is
    acquired. *)
Definition analyze_batch_with_semaphore (svc : service) (user_id : option string)
           (db : bool) (batch : list frame) : M (list frame) :=
  r <- try (analyze_frame_batch svc batch user_id db) ;;
  match r with
  | inr result => ret result
  | inl e =>
      let error_str := str_exn e in
      if is_payload_too_large error_str
      then analyze_individually svc batch user_id db
      else ret (map (frame_update
                       (failed ("Error analyzing batch: " +:+ error_str) 0 error_str))
                    batch)
  end.

(** ** Batch planner and executor *)

(** Lines 1018-1021: is there a client for this user? *)
Definition client_available (svc : service) (user_id : option string) (db : bool)
           (s : St) : bool * St :=
  match _get_openai_client svc user_id db s with
  | (inr (Some _), s') => (true, s')
  | (_, s') => (false, s')
  end.

(** [asyncio.gather] with [return_exceptions=True].  A task, once it holds
    the semaphore, is run to its end (the tasks share nothing but the world,
    whose answers are arbitrary); the order is the scheduler's: [schedule]
    gives, at each step, which of the pending tasks runs next.  The results
    come back in the order of the tasks, whatever the order of completion. *)
Fixpoint run_pending {A} (fuel : nat) (pending : list (nat * M A))
         (schedule : list nat) (done : list (nat * (exn + A))) (s : St)
  : list (nat * (exn + A)) * St :=
  match fuel with
  | 0 => (done, s)
  | S fuel' =>
      let k := hd 0 schedule mod length pending in
      match pending !! k with
      | None => (done, s)
      | Some (i, task) =>
          let '(r, s') := task s in
          run_pending fuel' (delete k pending) (tl schedule) ((i, r) :: done) s'
      end
  end.

Definition gather {A} (tasks : list (M A)) (schedule : list nat) (s : St)
  : list (exn + A) * St :=
  let '(done, s') :=
    run_pending (length tasks) (imap (fun i task => (i, task)) tasks) schedule [] s in
  (omap (fun i => (list_to_map done : gmap nat (exn + A)) !! i)
        (seq 0 (length tasks)), s').

(** Lines 1157-1173: the results of the batches, one after the other. *)
Fixpoint flatten (frames : list frame) (batch_size : Z)
         (batch_results : list (exn + list frame)) (analyzed_frames : list frame)
  : list frame :=
  match batch_results with
  | [] => analyzed_frames
  | inr batch_result :: rest =>
      flatten frames batch_size rest (analyzed_frames ++ batch_result)
  | inl e :: rest =>
      let lo := Z.of_nat (length analyzed_frames) in
      let chunk := py_slice lo (lo + batch_size)%Z frames in
      flatten frames batch_size rest
              (analyzed_frames
               ++ map (frame_update (failed ("Error: " +:+ str_exn e) 0 (str_exn e)))
                      chunk)
  end.

(** [GPTService.batch_analyze_frames].  [cfg] is the process-wide
    [settings] read at call time; the service comes back with the fields
    the runtime check may have set. *)
Definition batch_analyze_frames (svc : service) (cfg : settings)
           (frames : list frame) (max_workers batch_size : Z)
           (user_id : option string) (db : bool) (schedule : list nat) (s : St)
  : (outcome (list frame) * service) * St :=
  let svc := refreshed svc cfg in
  let '(has_client, s) :=
    if negb (use_custom_gpt svc) then client_available svc user_id db s
    else (true, s) in
  if negb has_client then
    (Returned (map (frame_update (failed NO_KEY 0 NO_KEY)) frames), svc, s)
  else
    match frames with
    | [] => (Returned [], svc, s)
    | _ =>
        let effective_batch_size :=
          effective_batch_size (use_custom_gpt svc) batch_size in
        match split_batches frames effective_batch_size with
        | inl e => (Raised e, svc, s)
        | inr frame_batches =>
            if (max_workers <? 0)%Z then
              (Raised (Exn ValueError "Semaphore initial value must be >= 0"), svc, s)
            else if (max_workers =? 0)%Z && negb (is_nil frame_batches)
            then (Hung, svc, s)
            else
              let tasks :=
                map (analyze_batch_with_semaphore svc user_id db) frame_batches in
              let '(batch_results, s) := gather tasks schedule s in
              let analyzed_frames := flatten frames batch_size batch_results [] in
              match py_sort analyzed_frames with
              | inl e => (Raised e, svc, s)
              | inr sorted => (Returned sorted, svc, s)
              end
        end
    end.

End Service.

Arguments world {E} s.
Arguments calls {E} s.
Arguments MkSt {E} world calls.

(** ** Predicates of the statements *)

(** The keys an analysis writes into a frame. *)
Definition analysis_keys : list string :=
  ["description"; "ocr_text"; "meta_tags"; "processing_time_ms"; "gpt_response"; "error"].

(** [f'] is [f] after analysis: every other key is as it was. *)
Definition same_frame (f f' : frame) : Prop :=
  forall k, k ∉ analysis_keys -> f' !! k = f !! k.

(** The frame carries a number as its timestamp, or none (the sort then
    takes [0]). *)
Definition numeric_timestamp (f : frame) : Prop := is_Some (num (sort_key f)).

(** [a] may stand before [b] in ascending timestamp order. *)
Definition timestamp_le (a b : frame) : Prop :=
  exists qa qb, num (sort_key a) = Some qa /\ num (sort_key b) = Some qb /\ (qa <= qb)%Q.

Definition sorted_by_timestamp (l : list frame) : Prop :=
  StronglySorted timestamp_le l.

Definition is_dict (v : value) : bool := match v with VDict _ => true | _ => false end.

(** The frame has no image path under either key. *)
Definition no_image_path (f : frame) : Prop :=
  truthy (py_or (frame_get "image_path" f) (frame_get "frame_path" f)) = false.

(** What a run of [analyze_frame_batch] on [frames_batch] from state [s]
    leaves: at most one request, for all the frames of the batch; and either
    the missing-key exception, raised before anything is sent, or one frame
    per frame of the batch, in the same order. *)
Definition batch_run {E} (frames_batch : list frame) (s : St E)
           (r : exn + list frame) (s' : St E) : Prop :=
  exists new,
    calls s' = calls s ++ new
    /\ length new <= 1
    /\ Forall (fun c => req_frame_count (snd c) = length frames_batch
                        /\ 1 <= length (req_images (snd c)) <= length frames_batch) new
    /\ match r with
       | inl e => e = Exn ValueError NO_KEY /\ new = []
       | inr out => Forall2 same_frame frames_batch out
       end.

(** What a batch task leaves: requests of [1] to [len(batch)] frames each,
    and one frame per frame of the batch, in the same order. *)
Definition task_run {E} (batch : list frame) (s : St E)
           (r : exn + list frame) (s' : St E) : Prop :=
  exists new out,
    calls s' = calls s ++ new
    /\ Forall (fun c => 1 <= req_frame_count (snd c) <= length batch) new
    /\ r = inr out
    /\ Forall2 same_frame batch out.

(** A task of [gather] at position [i]: from every state it ends, sends
    only requests that satisfy [P], and its result satisfies [Q i]. *)
Definition well_behaved {E A} (P : backend * request -> Prop)
           (Q : nat -> exn + A -> Prop) (i : nat) (task : M E A) : Prop :=
  forall s, exists r s' new,
    task s = (r, s') /\ calls s' = calls s ++ new /\ Forall P new /\ Q i r.

(** ** Concrete worlds and frames for the examples *)

Definition quoted (s : string) : string := QUOTE +:+ s +:+ QUOTE.

(** The answer of the scenario: two results. *)
Definition two_results_json : string :=
  "{" +:+ quoted "frames" +:+ ":[{" +:+ quoted "description" +:+ ":" +:+ quoted "a"
  +:+ "},{" +:+ quoted "description" +:+ ":" +:+ quoted "b" +:+ "}]}".

Definition one_result_json : string :=
  "{" +:+ quoted "frames" +:+ ":[{" +:+ quoted "description" +:+ ":" +:+ quoted "a"
  +:+ "}]}".

(** An answer whose only result is a string. *)
Definition string_result_json : string :=
  "{" +:+ quoted "frames" +:+ ":[" +:+ quoted "x" +:+ "]}".

(** A world without state: every image is readable, no user has rules or a
    key of their own, and the endpoint answers as [answer] says. *)
Definition env_of (answer : request -> reply) : Env :=
  {| World := unit;
     clock := fun _ => 0%Z;
     read_image := fun _ w => (inr "/9j/4AAQ", w);
     select_rules := fun _ w => (inr None, w);
     select_api_key := fun _ w => (inr None, w);
     send := fun _ r w => (answer r, w);
     json_error_text := fun _ => "Expecting value: line 1 column 1 (char 0)";
     repr_keys := fun _ => "[]" |}.

(** The message of a refusal for size, as the OpenAI client words it. *)
Definition REFUSED : string := "Error code: 413 - Request Entity Too Large".

(** An endpoint that refuses two images or more and analyzes one. *)
Definition env_413 : Env :=
  env_of (fun r => if 2 <=? length (req_images r)
                   then Status 413 REFUSED
                   else Content (Some one_result_json)).

(** The endpoint of the 25-frame scenario: it refuses the batch that holds
    the frame of timestamp 10 and answers every other one. *)
Definition env_second_refused : Env :=
  env_of (fun r =>
            if existsb (fun ts => match ts with VInt 10 => true | _ => false end)
                       (req_timestamps r)
            then Status 413 REFUSED
            else Content (Some two_results_json)).

(** An endpoint whose failure has an empty message. *)
Definition env_silent : Env := env_of (fun _ => Failure (Exn OtherError "")).

Definition env_two : Env := env_of (fun _ => Content (Some two_results_json)).
Definition env_string : Env := env_of (fun _ => Content (Some string_result_json)).

Definition start (E : Env) (w : World E) : St E := MkSt w [].

(** A frame as the pipeline receives it, and one without an image path. *)
Definition frame_at (ts : Z) : frame :=
  <["image_path" := VStr "frame.jpg"]> (<["timestamp" := VInt ts]> ∅).

Definition pathless_frame_at (ts : Z) : frame := <["timestamp" := VInt ts]> ∅.

Definition cfg_none : settings := Settings None None None.
Definition cfg_openai : settings := Settings (Some "sk-test") None None.
Definition cfg_custom : settings :=
  Settings None (Some "https://gpt.example/v1") (Some "token").

Definition svc_none : service := new_service cfg_none "T".
Definition svc_openai : service := new_service cfg_openai "T".
Definition svc_custom : service := new_service cfg_custom "T".

Definition errors (l : list frame) : list (option value) := map (fun f => f !! "error") l.
Definition descriptions (l : list frame) : list (option value) :=
  map (fun f => f !! "description") l.
Definition timestamps (l : list frame) : list (option value) :=
  map (fun f => f !! "timestamp") l.
Definition images_sent {E} (s : St E) : list nat :=
  map (fun c => length (req_images (snd c))) (calls s).

(** ** Prompt resolver: reading the rules back *)

(** [GPTService._extract_analysis_rules].  The string operations of its body
    raise nothing, so the handler that returns the empty string is never
    entered. *)
Definition _extract_analysis_rules (prompt : string) : string :=
  match Str.find START_MARKER prompt with
  | None => ""
  | Some start_idx =>
      let content_start := start_idx + String.length START_MARKER in
      let remaining := Str.drop content_start prompt in
      let remaining := Str.lstrip (LF +:+ CR) remaining in
      let end_idx :=
        match Str.find END_MARKER remaining with
        | Some i => Some i
        | None => Str.find SECTION_MARKER remaining
        end in
      match end_idx with
      | None =>
          let content := Str.rstrip_ws remaining in
          if Str.endswith "---" content
          then Str.rstrip_ws (Str.drop_last 3 content)
          else content
      | Some end_idx => Str.strip (Str.take end_idx remaining)
      end
  end.

(** [GPTService.get_default_analysis_rules] *)
Definition get_default_analysis_rules (svc : service) : string :=
  _extract_analysis_rules (prompt_template svc).

(** The first four characters of the separator: a line that starts with
    three dashes. *)
Definition DASH_LINE : string := LF +:+ "---".

(** ** Requests: what a batch sends *)

(** The path under which the image of a frame is looked for, line 733. *)
Definition image_path_of (f : frame) : value :=
  py_or (frame_get "image_path" f) (frame_get "frame_path" f).

Definition has_path (f : frame) : bool := truthy (image_path_of f).

(** The backend a call of this service goes to, lines 829-849. *)
Definition backend_of (svc : service) (api_key : option string) : backend :=
  if use_custom_gpt svc
  then CustomGPT (gpt_base_url svc) (gpt_bearer_token svc)
  else OpenAI (default "" api_key).

(** What the caller of the endpoint sees, lines 828-853: the content, or the
    exception, a timeout with the text of line 853. *)
Definition call_outcome (svc : service) (a : reply) : exn + option string :=
  match (if use_custom_gpt svc then _call_custom_gpt a else openai_create a) with
  | inl e =>
      match exn_cls e with
      | TimeoutError => inl (Exn OtherError TIMED_OUT)
      | _ => inl e
      end
  | inr content => inr content
  end.

(** [c] is the request of the batch [frames_batch]: it goes to the backend
    of the service, announces every frame of the batch with its timestamp,
    and carries one image for each frame that has a path. *)
Definition batch_request (svc : service) (frames_batch : list frame)
           (c : backend * request) : Prop :=
  (exists api_key, fst c = backend_of svc api_key)
  /\ req_model (snd c) = "gpt-4o-mini"
  /\ req_max_tokens (snd c) = 4000%Z
  /\ req_frame_count (snd c) = length frames_batch
  /\ req_timestamps (snd c)
     = map (fun f => default (VFloat 0 0) (f !! "timestamp")) frames_batch
  /\ length (req_images (snd c)) = length (List.filter has_path frames_batch)
  /\ 1 <= length (req_images (snd c)).

(** What [batch_analyze_frames] does with a batch size or a worker count
    below one, once a backend is there and there are frames. *)
Definition degenerate_outcome (max_workers batch_size : Z) : outcome (list frame) :=
  if (batch_size =? 0)%Z then Raised (Exn ValueError "range() arg 3 must not be zero")
  else if (max_workers <? 0)%Z
  then Raised (Exn ValueError "Semaphore initial value must be >= 0")
  else if (batch_size <? 0)%Z then Returned []
  else Hung.

(** An endpoint that never answers, and a world in which no image can be
    read. *)
Definition env_no_answer : Env := env_of (fun _ => NoAnswer).

Definition NO_FILE : string := "[Errno 2] No such file or directory: 'frame.jpg'".

Definition env_unreadable : Env :=
  {| World := unit;
     clock := fun _ => 0%Z;
     read_image := fun _ w => (inl (Exn OtherError NO_FILE), w);
     select_rules := fun _ w => (inr None, w);
     select_api_key := fun _ w => (inr None, w);
     send := fun _ _ w => (Content (Some two_results_json), w);
     json_error_text := fun _ => "Expecting value: line 1 column 1 (char 0)";
     repr_keys := fun _ => "[]" |}.

(** ** More frames and worlds for the examples *)

(** A frame that carries the error of an earlier pass. *)
Definition stale_frame_at (ts : Z) : frame :=
  <["error" := VStr "earlier failure"]> (frame_at ts).

(** A world in which the user has an API key of their own. *)
Definition env_user_key : Env :=
  {| World := unit;
     clock := fun _ => 0%Z;
     read_image := fun _ w => (inr "/9j/4AAQ", w);
     select_rules := fun _ w => (inr None, w);
     select_api_key := fun _ w => (inr (Some "sk-user"), w);
     send := fun _ _ w => (Content (Some two_results_json), w);
     json_error_text := fun _ => "Expecting value: line 1 column 1 (char 0)";
     repr_keys := fun _ => "[]" |}.


(** A world in which the user has rules of their own. *)
Definition env_user_rules : Env :=
  {| World := unit;
     clock := fun _ => 0%Z;
     read_image := fun _ w => (inr "/9j/4AAQ", w);
     select_rules := fun _ w => (inr (Some "Be brief."), w);
     select_api_key := fun _ w => (inr None, w);
     send := fun _ _ w => (Content (Some two_results_json), w);
     json_error_text := fun _ => "Expecting value: line 1 column 1 (char 0)";
     repr_keys := fun _ => "[]" |}.

Definition svc_demo : service := new_service cfg_openai demo_template.
Example find_ex : Str.find "lo" "hello" = Some 3 /\ Str.rfind "l" "hello" = Some 3
                  /\ Str.find "z" "hello" = None /\ Str.strip "  a b  " = "a b".
Proof. repeat split; reflexivity. Qed.

Example loads_cat : Json.loads cat_json = Some (VDict cat_dict).
Proof. vm_compute. reflexivity. Qed.

Example loads_numbers :
  Json.loads " [1, -2.50, 3e2, true, null, {}] "
  = Some (VList [VInt 1; VFloat (-250) (-2); VFloat 3 2; VBool true; VNone; VDict []])
  /\ Json.loads "01" = None /\ Json.loads "[1,]" = None /\ Json.loads "" = None.
Proof. vm_compute. repeat split; reflexivity. Qed.

Example interpret_sure_cat :
  interpret (fun _ => "") (Some sure_cat) (VFloat 0 0)
  = inr (Parsed (VStr "a cat") VNone
                (VList [VStr "cat"; VStr "pet"; VStr "animal"]) (VFloat 0 0)).
Proof. vm_compute. reflexivity. Qed.

Example analyze_sure_cat :
  analyze_frame (fun _ => "") (inr (Some sure_cat)) (VFloat 0 0) VNone 12 !! "description"
  = Some (VStr "a cat").
Proof. vm_compute. reflexivity. Qed.

Example build_demo :
  _build_full_prompt demo_template "new rules"
  = "Intro" +:+ LF +:+ START_MARKER +:+ LF +:+ LF +:+ "new rules" +:+ END_MARKER +:+ "Tail".
Proof. vm_compute. reflexivity. Qed.

(** ** Facts about the string operations *)

Module StrFacts.
Import Str.

Lemma app_cons c s t : String c s +:+ t = String c (s +:+ t).
Proof. reflexivity. Qed.

Lemma app_nil_l s : "" +:+ s = s.
Proof. reflexivity. Qed.

Lemma app_nil_r s : s +:+ "" = s.
Proof. induction s as [|c s IH]; [reflexivity|]. rewrite app_cons, IH. reflexivity. Qed.

Lemma app_assoc a b c : (a +:+ b) +:+ c = a +:+ (b +:+ c).
Proof.
  induction a as [|x a IH]; [reflexivity|].
  rewrite !app_cons, IH. reflexivity.
Qed.

Lemma length_app a b : String.length (a +:+ b) = String.length a + String.length b.
Proof.
  induction a as [|x a IH]; [reflexivity|].
  rewrite app_cons. simpl. rewrite IH. reflexivity.
Qed.

Lemma take_drop n s : take n s +:+ drop n s = s.
Proof.
  revert s. induction n as [|n IH]; intros [|c s]; try reflexivity.
  simpl. rewrite app_cons, IH. reflexivity.
Qed.

Lemma take_0 s : take 0 s = "".
Proof. destruct s; reflexivity. Qed.

Lemma drop_0 s : drop 0 s = s.
Proof. destruct s; reflexivity. Qed.

Lemma take_app_length p r : take (String.length p) (p +:+ r) = p.
Proof.
  induction p as [|c p IH]; [apply take_0|].
  rewrite app_cons. simpl. rewrite IH. reflexivity.
Qed.

Lemma drop_app_length p r : drop (String.length p) (p +:+ r) = r.
Proof.
  induction p as [|c p IH]; [apply drop_0|].
  rewrite app_cons. simpl. exact IH.
Qed.

Lemma take_all s : take (String.length s) s = s.
Proof. rewrite <- (app_nil_r s) at 2. apply take_app_length. Qed.

Lemma take_add i n s : take (i + n) s = take i s +:+ take n (drop i s).
Proof.
  revert s. induction i as [|i IH]; intros s.
  - rewrite take_0, drop_0. reflexivity.
  - destruct s as [|c s]; simpl.
    + destruct n; reflexivity.
    + rewrite app_cons, IH. reflexivity.
Qed.

Lemma drop_add i n s : drop (i + n) s = drop n (drop i s).
Proof.
  revert s. induction i as [|i IH]; intros s.
  - rewrite drop_0. reflexivity.
  - destruct s as [|c s]; simpl; [destruct n; reflexivity|]. apply IH.
Qed.

Lemma drop_app_le n t r :
  n <= String.length t -> drop n (t +:+ r) = drop n t +:+ r.
Proof.
  revert t. induction n as [|n IH]; intros t H.
  - rewrite !drop_0. reflexivity.
  - destruct t as [|c t]; simpl in H; [lia|].
    rewrite app_cons. simpl. apply IH. lia.
Qed.

Lemma startswith_app p r : startswith p (p +:+ r) = true.
Proof.
  induction p as [|c p IH]; [reflexivity|].
  rewrite app_cons. simpl. rewrite Ascii.eqb_refl, IH. reflexivity.
Qed.

Lemma startswith_split p s :
  startswith p s = true -> s = p +:+ drop (String.length p) s.
Proof.
  revert s. induction p as [|c p IH]; intros s H.
  - rewrite drop_0. reflexivity.
  - destruct s as [|d s]; [discriminate|]. simpl in H.
    apply andb_true_iff in H as [Hc Hp]. apply Ascii.eqb_eq in Hc as ->.
    rewrite app_cons. simpl. f_equal. apply IH, Hp.
Qed.

Lemma find_startswith sub s i :
  find sub s = Some i -> startswith sub (drop i s) = true.
Proof.
  revert i. induction s as [|c s IH]; intros i H.
  - simpl in H. destruct (startswith sub "") eqn:E; [|discriminate].
    injection H as <-. exact E.
  - simpl in H. destruct (startswith sub (String c s)) eqn:E.
    + injection H as <-. exact E.
    + destruct (find sub s) as [j|] eqn:F; [|discriminate].
      injection H as <-. simpl. apply IH. reflexivity.
Qed.

(** A found occurrence splits the text around it. *)
Lemma find_split sub s i :
  find sub s = Some i ->
  s = take i s +:+ sub +:+ drop (i + String.length sub) s
  /\ take (i + String.length sub) s = take i s +:+ sub.
Proof.
  intros H. apply find_startswith, startswith_split in H.
  assert (Ht : take (String.length sub) (drop i s) = sub).
  { rewrite H at 1. apply take_app_length. }
  split.
  - rewrite drop_add. rewrite <- H. symmetry. apply take_drop.
  - rewrite take_add, Ht. reflexivity.
Qed.

Lemma find_cons sub c s :
  find sub (String c s)
  = if startswith sub (String c s) then Some 0
    else match find sub s with Some i => Some (S i) | None => None end.
Proof. reflexivity. Qed.

Lemma find_None_startswith sub s :
  find sub s = None -> startswith sub s = false.
Proof.
  destruct s as [|c s]; simpl; destruct (startswith sub _); congruence.
Qed.

Lemma find_None_tail sub c s :
  find sub (String c s) = None -> find sub s = None.
Proof.
  simpl. destruct (startswith sub (String c s)); [discriminate|].
  destruct (find sub s); congruence.
Qed.

Lemma lstrip_by_split P s : exists pre, s = pre +:+ lstrip_by P s.
Proof.
  induction s as [|c s [pre IH]].
  - exists "". reflexivity.
  - simpl. destruct (P c).
    + exists (String c pre). rewrite app_cons. f_equal. exact IH.
    + exists "". reflexivity.
Qed.

Lemma lstrip_by_id P c s : P c = false -> lstrip_by P (String c s) = String c s.
Proof. intros H. simpl. rewrite H. reflexivity. Qed.

Lemma lstrip_by_idemp P s : lstrip_by P (lstrip_by P s) = lstrip_by P s.
Proof.
  induction s as [|c s IH]; [reflexivity|].
  cbn [lstrip_by]. destruct (P c) eqn:E; [exact IH|].
  cbn [lstrip_by]. rewrite E. reflexivity.
Qed.

Lemma lstrip_by_app_keep P a c b :
  P c = false -> lstrip_by P (a +:+ String c b) = lstrip_by P a +:+ String c b.
Proof.
  intros H. induction a as [|d a IH].
  - rewrite app_nil_l. cbn [lstrip_by]. rewrite H. reflexivity.
  - rewrite app_cons. cbn [lstrip_by]. destruct (P d); [exact IH | reflexivity].
Qed.

Lemma find_None_lstrip sub P s :
  find sub s = None -> find sub (lstrip_by P s) = None.
Proof.
  induction s as [|c s IH]; intros H; [exact H|].
  cbn [lstrip_by]. destruct (P c); [|exact H].
  apply IH. eapply find_None_tail, H.
Qed.

Lemma rstrip_by_snoc_keep P s c :
  P c = false -> rstrip_by P (s +:+ String c "") = s +:+ String c "".
Proof.
  intros H. induction s as [|d s IH].
  - simpl. rewrite H. reflexivity.
  - rewrite app_cons. simpl. rewrite IH.
    destruct s; reflexivity.
Qed.

Lemma rstrip_by_snoc_drop P s c :
  P c = true -> rstrip_by P (s +:+ String c "") = rstrip_by P s.
Proof.
  intros H. induction s as [|d s IH].
  - simpl. rewrite H. reflexivity.
  - rewrite app_cons. simpl. rewrite IH. reflexivity.
Qed.

Lemma endswith_snoc s c : endswith (String c "") (s +:+ String c "") = true.
Proof.
  unfold endswith. rewrite length_app. simpl String.length.
  replace (String.length s + 1 - 1) with (String.length s) by lia.
  rewrite drop_app_length, String.eqb_refl.
  apply andb_true_iff. split; [apply Nat.leb_le; lia | reflexivity].
Qed.

Lemma rfind_snoc s c :
  rfind (String c "") (s +:+ String c "") = Some (String.length s).
Proof.
  induction s as [|d s IH].
  - simpl. rewrite Ascii.eqb_refl. reflexivity.
  - rewrite app_cons. simpl rfind. rewrite IH. reflexivity.
Qed.

End StrFacts.

(** ** Prompt resolver: the frame of the substitution *)


(** ** Response interpreter: a fenced JSON object *)

Module FenceFacts.
Import Str StrFacts.

Lemma startswith_app_l p q s :
  startswith (p +:+ q) s = true -> startswith p s = true.
Proof.
  revert s. induction p as [|c p IH]; intros s H; [reflexivity|].
  rewrite app_cons in H. destruct s as [|d s]; [discriminate|].
  simpl in *. apply andb_true_iff in H as [-> H]. simpl. apply IH, H.
Qed.

(** A fence cannot straddle the end of a text that is followed by a line
    feed. *)
Lemma startswith_fence_before_lf s r :
  startswith FENCE (s +:+ LF +:+ r) = startswith FENCE s.
Proof.
  destruct s as [|a [|b [|c s]]]; rewrite ?app_cons, ?app_nil_l;
    unfold FENCE, LF; simpl; rewrite ?app_cons; simpl;
    rewrite ?andb_false_r; reflexivity.
Qed.

Lemma find_fence_json_none s r :
  find FENCE s = None ->
  find FENCE_JSON r = None ->
  find FENCE_JSON (s +:+ LF +:+ r) = None.
Proof.
  intros Hs Hr. induction s as [|c s IH].
  - rewrite app_nil_l. unfold LF. rewrite app_cons, app_nil_l.
    simpl. rewrite Hr. reflexivity.
  - assert (E : startswith FENCE_JSON (String c s +:+ LF +:+ r) = false).
    { destruct (startswith FENCE_JSON (String c s +:+ LF +:+ r)) eqn:E; [|reflexivity].
      apply (startswith_app_l FENCE "json") in E.
      rewrite startswith_fence_before_lf in E.
      rewrite (find_None_startswith _ _ Hs) in E. discriminate. }
    rewrite app_cons in *. rewrite find_cons, E.
    rewrite IH; [reflexivity|]. eapply find_None_tail, Hs.
Qed.

Lemma delete_fences_S fuel lit s :
  delete_fences (S fuel) lit s
  = if startswith lit s && negb (is_empty lit)
    then delete_fences fuel lit (lstrip_ws (drop (String.length lit) s))
    else match s with
         | EmptyString => EmptyString
         | String c s' => String c (delete_fences fuel lit s')
         end.
Proof. reflexivity. Qed.

Lemma delete_fences_none fuel lit s :
  find lit s = None -> delete_fences fuel lit s = s.
Proof.
  revert s. induction fuel as [|fuel IH]; intros s H; [reflexivity|].
  simpl. rewrite (find_None_startswith _ _ H). simpl.
  destruct s as [|c s]; [reflexivity|].
  rewrite IH; [reflexivity|]. eapply find_None_tail, H.
Qed.

(** The closing fence is the only one: it goes, with nothing after it. *)
Lemma delete_fences_closing fuel s :
  find FENCE s = None ->
  String.length s + 2 <= fuel ->
  delete_fences fuel FENCE (s +:+ LF +:+ FENCE) = s +:+ LF.
Proof.
  revert fuel. induction s as [|c s IH]; intros fuel Hs Hfuel.
  - destruct fuel as [|[|fuel]]; simpl in Hfuel; try lia.
    destruct fuel; reflexivity.
  - destruct fuel as [|fuel]; simpl in Hfuel; [lia|].
    rewrite delete_fences_S.
    rewrite startswith_fence_before_lf, (find_None_startswith _ _ Hs).
    simpl andb. cbv iota.
    rewrite !app_cons. f_equal. apply IH; [eapply find_None_tail, Hs | lia].
Qed.

Lemma startswith_other_head c lit d r :
  Ascii.eqb c d = false -> startswith (String c lit) (String d r) = false.
Proof. intros H. simpl. rewrite H. reflexivity. Qed.

Lemma find_char_head c d s :
  find (String c "") (String d s) = None -> Ascii.eqb c d = false.
Proof.
  intros H. apply find_None_startswith in H. simpl in H.
  destruct (Ascii.eqb c d); [destruct s; discriminate | reflexivity].
Qed.

(** A text without the first character of the literal is copied as it is. *)
Lemma delete_fences_skip c lit q r fuel :
  find (String c "") q = None ->
  String.length q <= fuel ->
  delete_fences fuel (String c lit) (q +:+ r)
  = q +:+ delete_fences (fuel - String.length q) (String c lit) r.
Proof.
  revert fuel. induction q as [|d q IH]; intros fuel Hq Hfuel.
  - rewrite !app_nil_l. simpl String.length. rewrite Nat.sub_0_r. reflexivity.
  - destruct fuel as [|fuel]; simpl in Hfuel; [lia|].
    rewrite app_cons, delete_fences_S.
    rewrite (startswith_other_head _ _ _ _ (find_char_head _ _ _ Hq)).
    simpl andb. cbv iota. rewrite app_cons. f_equal.
    rewrite IH; [reflexivity | eapply find_None_tail, Hq | lia].
Qed.

Lemma startswith_after_prefix c lit q d r :
  find (String c "") q = None ->
  Ascii.eqb c d = false ->
  startswith (String c lit) (q +:+ String d r) = false.
Proof.
  intros Hq Hd. destruct q as [|e q].
  - rewrite app_nil_l. apply startswith_other_head, Hd.
  - rewrite app_cons. apply startswith_other_head. eapply find_char_head, Hq.
Qed.

Lemma find_after_prefix c q r :
  find (String c "") q = None ->
  find (String c "") (q +:+ String c r) = Some (String.length q).
Proof.
  intros Hq. induction q as [|e q IH].
  - rewrite app_nil_l, find_cons. simpl. rewrite Ascii.eqb_refl. reflexivity.
  - rewrite app_cons, find_cons.
    rewrite (startswith_other_head _ _ _ _ (find_char_head _ _ _ Hq)).
    rewrite IH; [reflexivity | eapply find_None_tail, Hq].
Qed.

Lemma endswith_fence_brace s : endswith FENCE (s +:+ "}") = false.
Proof.
  unfold endswith.
  destruct (String.eqb _ FENCE) eqn:E; [|apply andb_false_r].
  apply String.eqb_eq in E. exfalso.
  rewrite length_app in E. simpl String.length in E.
  replace (String.length s + 1 - 3) with (String.length s - 2) in E by lia.
  rewrite drop_app_le in E by lia.
  destruct (drop (String.length s - 2) s) as [|a [|b [|c [|d t]]]];
    rewrite ?app_cons, ?app_nil_l in E; unfold FENCE in E; discriminate.
Qed.

Section Object.
Variable prose body : string.
Let J : string := "{" +:+ body +:+ "}".
Let q : string := lstrip_ws prose.
Hypothesis no_fence : find FENCE J = None.
Hypothesis no_brace : find "{" prose = None.
Hypothesis no_tick : find "`" prose = None.

Lemma J_snoc : J = ("{" +:+ body) +:+ "}".
Proof. unfold J. rewrite app_assoc. reflexivity. Qed.

Lemma J_cons : J = String "{" (body +:+ "}").
Proof. reflexivity. Qed.

Lemma length_J : String.length J = S (S (String.length body)).
Proof. rewrite J_cons. simpl. rewrite length_app. simpl. lia. Qed.

Lemma q_no_brace : find "{" q = None.
Proof. apply find_None_lstrip, no_brace. Qed.

Lemma q_no_tick : find "`" q = None.
Proof. apply find_None_lstrip, no_tick. Qed.

Lemma strip_J : strip J = J.
Proof.
  unfold strip, rstrip_ws, lstrip_ws. rewrite J_snoc.
  rewrite rstrip_by_snoc_keep by reflexivity.
  rewrite <- J_snoc, J_cons. reflexivity.
Qed.

Lemma qJ_snoc : q +:+ J = (q +:+ "{" +:+ body) +:+ "}".
Proof. rewrite J_snoc, !app_assoc. reflexivity. Qed.

(** The prose and the object, already stripped. *)
Lemma strip_qJ : strip (q +:+ J) = q +:+ J.
Proof.
  unfold strip, rstrip_ws. rewrite qJ_snoc.
  rewrite rstrip_by_snoc_keep by reflexivity. rewrite <- qJ_snoc.
  unfold lstrip_ws. rewrite J_cons.
  rewrite lstrip_by_app_keep by reflexivity.
  unfold q, lstrip_ws. rewrite lstrip_by_idemp. reflexivity.
Qed.

Lemma strip_qJ_lf : strip (q +:+ J +:+ LF) = q +:+ J.
Proof.
  rewrite <- app_assoc.
  unfold strip, rstrip_ws. unfold LF at 1.
  rewrite rstrip_by_snoc_drop by reflexivity. apply strip_qJ.
Qed.

Lemma strip_prose_fenced : strip (prose +:+ fenced J) = q +:+ fenced J.
Proof.
  unfold strip, rstrip_ws.
  assert (E : prose +:+ fenced J
              = (prose +:+ FENCE_JSON +:+ LF +:+ J +:+ LF +:+ "``") +:+ "`").
  { unfold fenced, FENCE. rewrite !app_assoc. reflexivity. }
  rewrite E at 1. rewrite rstrip_by_snoc_keep by reflexivity.
  rewrite <- E. unfold lstrip_ws.
  change (fenced J) with (String "`" ("``json" +:+ LF +:+ J +:+ LF +:+ FENCE)).
  apply lstrip_by_app_keep. reflexivity.
Qed.

(** The opening fence goes with the line feed after it; nothing else
    matches the first expression. *)
Lemma delete_open_fence n :
  delete_fences (S n) FENCE_JSON (fenced J) = J +:+ LF +:+ FENCE.
Proof.
  unfold fenced. rewrite delete_fences_S.
  rewrite (startswith_app FENCE_JSON). simpl andb. cbv iota.
  rewrite drop_app_length.
  change (LF +:+ J +:+ LF +:+ FENCE)
    with (String (ascii_of_nat 10) (String "{" ((body +:+ "}") +:+ LF +:+ FENCE))).
  unfold lstrip_ws. simpl lstrip_by.
  change (String "{" ((body +:+ "}") +:+ LF +:+ FENCE)) with (J +:+ LF +:+ FENCE).
  apply delete_fences_none, find_fence_json_none; [exact no_fence | reflexivity].
Qed.

Lemma strip_markdown_prose_fenced :
  _strip_markdown_code_blocks (q +:+ fenced J) = q +:+ J.
Proof.
  unfold _strip_markdown_code_blocks.
  assert (A : re_sub_fence FENCE_JSON (q +:+ fenced J) = q +:+ J +:+ LF +:+ FENCE).
  { unfold re_sub_fence.
    change FENCE_JSON with (String "`" "``json").
    rewrite delete_fences_skip;
      [| exact q_no_tick | rewrite length_app; lia].
    replace (S (String.length (q +:+ fenced J)) - String.length q)
      with (S (String.length (fenced J))) by (rewrite length_app; lia).
    change (String "`" "``json") with FENCE_JSON.
    rewrite delete_open_fence. reflexivity. }
  rewrite A.
  assert (B : re_sub_fence FENCE (q +:+ J +:+ LF +:+ FENCE) = q +:+ J +:+ LF).
  { unfold re_sub_fence.
    change FENCE with (String "`" "``").
    rewrite delete_fences_skip;
      [| exact q_no_tick | rewrite length_app; lia].
    change (String "`" "``") with FENCE.
    rewrite delete_fences_closing; [reflexivity | exact no_fence |].
    rewrite !length_app. simpl. lia. }
  rewrite B, strip_qJ_lf.
  assert (S0 : startswith FENCE (q +:+ J) = false).
  { rewrite J_cons. apply startswith_after_prefix; [exact q_no_tick | reflexivity]. }
  rewrite S0.
  rewrite qJ_snoc at 1. rewrite endswith_fence_brace. apply strip_qJ.
Qed.

Lemma repair_json_J : _repair_json J = J.
Proof.
  assert (L : lstrip BLANKS J = J) by (rewrite J_cons; reflexivity).
  assert (S1 : startswith "{" J = true) by (rewrite J_cons; reflexivity).
  assert (E1 : endswith "}" J = true) by (rewrite J_snoc; apply endswith_snoc).
  assert (R : rstrip BLANKS J = J).
  { unfold rstrip. rewrite J_snoc. apply rstrip_by_snoc_keep. reflexivity. }
  unfold _repair_json. rewrite strip_J.
  replace (is_empty J) with false by (rewrite J_cons; reflexivity).
  cbv zeta. rewrite L, S1. cbn [negb].
  rewrite E1. cbn [negb].
  rewrite R, S1. cbn [negb]. rewrite E1. cbn [negb]. apply strip_J.
Qed.

(** From the first opening brace to the last closing brace: the object,
    without the prose. *)
Lemma extract_J :
  match find "{" (q +:+ J), rfind "}" (q +:+ J) with
  | Some json_start, Some json_end =>
      if json_start <? json_end
      then slice json_start (json_end + 1) (q +:+ J)
      else q +:+ J
  | _, _ => q +:+ J
  end = J.
Proof.
  assert (F : find "{" (q +:+ J) = Some (String.length q)).
  { rewrite J_cons. apply find_after_prefix, q_no_brace. }
  assert (R : rfind "}" (q +:+ J) = Some (String.length q + S (String.length body))).
  { rewrite qJ_snoc, rfind_snoc. rewrite !length_app. reflexivity. }
  rewrite F, R.
  replace (String.length q <? String.length q + S (String.length body)) with true
    by (symmetry; apply Nat.ltb_lt; lia).
  unfold slice. rewrite drop_app_length.
  replace (String.length q + S (String.length body) + 1 - String.length q)
    with (String.length J) by (rewrite length_J; lia).
  apply take_all.
Qed.

Lemma repair_path_prose_fenced jet d :
  Json.loads J = Some d -> repair_path jet (q +:+ fenced J) = inr d.
Proof.
  intros H. unfold repair_path.
  rewrite strip_markdown_prose_fenced, strip_qJ, extract_J, repair_json_J, H.
  reflexivity.
Qed.

Lemma interpret_prose_fenced jet d ts :
  Json.loads J = Some d ->
  Json.loads (strip (prose +:+ fenced J)) = None ->
  interpret jet (Some (prose +:+ fenced J)) ts = interpret jet (Some J) ts.
Proof.
  intros H Hdirect. unfold interpret.
  rewrite strip_prose_fenced in *. rewrite strip_J.
  replace (is_empty (q +:+ fenced J)) with false by (destruct q; reflexivity).
  rewrite J_cons at 2. simpl is_empty. cbv iota.
  unfold decode_response. rewrite Hdirect, H.
  rewrite (repair_path_prose_fenced jet d H). reflexivity.
Qed.

End Object.

(** Without prose the fenced text starts with a backtick, which starts no
    JSON value. *)
Lemma loads_fenced J : Json.loads (strip (fenced J)) = None.
Proof.
  replace (strip (fenced J)) with (fenced J); [reflexivity|].
  unfold strip, rstrip_ws, lstrip_ws.
  assert (E : fenced J = (FENCE_JSON +:+ LF +:+ J +:+ LF +:+ "``") +:+ "`").
  { unfold fenced, FENCE. rewrite !app_assoc. reflexivity. }
  rewrite E at 2. rewrite rstrip_by_snoc_keep by reflexivity.
  rewrite <- E. reflexivity.
Qed.

End FenceFacts.

Lemma interpret_sure_cat_any jet ts :
  interpret jet (Some sure_cat) ts
  = inr (Parsed (VStr "a cat") VNone (VList [VStr "cat"; VStr "pet"; VStr "animal"]) ts).
Proof. vm_compute. reflexivity. Qed.

(** C7, as stated, fails: the fence-stripping expressions are applied to the
    whole text, so a fence inside a string of the object is deleted too, with
    the blank after it.  The object [ticks_json] is well formed and decodes
    directly to the description [a ``` b]; wrapped in a fence, the repair path
    yields the description [a b]. *)
Lemma repair_fenced_ticks_differ :
  Json.loads ticks_json
  = Some (VDict [("description", VStr "a ``` b"); ("meta_tags", VList [])])
  /\ interpret (fun _ => "") (Some ticks_json) (VFloat 0 0)
     = inr (Parsed (VStr "a ``` b") VNone (VList []) (VFloat 0 0))
  /\ interpret (fun _ => "") (Some (fenced ticks_json)) (VFloat 0 0)
     = inr (Parsed (VStr "a b") VNone (VList []) (VFloat 0 0))
  /\ interpret (fun _ => "") (Some (fenced ticks_json)) (VFloat 0 0)
     <> interpret (fun _ => "") (Some ticks_json) (VFloat 0 0).
Proof.
  split; [vm_compute; reflexivity|].
  split; [vm_compute; reflexivity|].
  split; [vm_compute; reflexivity|].
  vm_compute. discriminate.
Qed.

(** C7, amended.  For every well-formed JSON object text that holds no
    triple backtick, wrapped in a json fence and preceded by any prose without
    a brace and without a backtick (no prose at all included), whenever the
    direct decode of the whole text fails: the repair path (strip fences, first
    brace to last brace, repair, decode) decodes exactly the object, and
    [analyze_frame] reads the same fields (description, meta_tags, and the
    others) as from the unwrapped text.  Without prose the direct decode
    always fails.  In particular the text [Sure! ```json ... ```] of the
    scenario is read with description [a cat] and meta_tags
    [cat, pet, animal]. *)
Theorem repair_fenced_object (jet : string -> string) (prose body : string)
        (d : Dict.t) (ts fn : value) (elapsed : Z) :
  Json.loads ("{" +:+ body +:+ "}") = Some (VDict d) ->
  Str.find FENCE ("{" +:+ body +:+ "}") = None ->
  Str.find "{" prose = None ->
  Str.find "`" prose = None ->
  Json.loads (Str.strip (prose +:+ fenced ("{" +:+ body +:+ "}"))) = None ->
  Json.loads (Str.strip (fenced ("{" +:+ body +:+ "}"))) = None
  /\ repair_path jet (Str.strip (prose +:+ fenced ("{" +:+ body +:+ "}")))
     = inr (VDict d)
  /\ interpret jet (Some (prose +:+ fenced ("{" +:+ body +:+ "}"))) ts
     = interpret jet (Some ("{" +:+ body +:+ "}")) ts
  /\ analyze_frame jet (inr (Some (prose +:+ fenced ("{" +:+ body +:+ "}")))) ts fn elapsed
     = analyze_frame jet (inr (Some ("{" +:+ body +:+ "}"))) ts fn elapsed
  /\ interpret jet (Some sure_cat) ts
     = inr (Parsed (VStr "a cat") VNone
                   (VList [VStr "cat"; VStr "pet"; VStr "animal"]) ts).
Proof.
  intros Hloads Hfence Hbrace Htick Hdirect.
  split; [apply FenceFacts.loads_fenced|].
  split.
  { rewrite FenceFacts.strip_prose_fenced.
    apply FenceFacts.repair_path_prose_fenced; assumption. }
  assert (E := FenceFacts.interpret_prose_fenced prose body Hfence Hbrace Htick
                 jet (VDict d) ts Hloads Hdirect).
  split; [exact E|].
  split; [unfold analyze_frame; rewrite E; reflexivity|].
  apply interpret_sure_cat_any.
Qed.

Lemma repair_fenced_object_witness :
  Json.loads ("{" +:+ cat_body +:+ "}") = Some (VDict cat_dict)
  /\ Str.find FENCE ("{" +:+ cat_body +:+ "}") = None
  /\ Json.loads (Str.strip ("Sure! " +:+ fenced ("{" +:+ cat_body +:+ "}"))) = None
  /\ interpret (fun _ => "") (Some ("Sure! " +:+ fenced ("{" +:+ cat_body +:+ "}")))
       (VFloat 0 0)
     = interpret (fun _ => "") (Some ("{" +:+ cat_body +:+ "}")) (VFloat 0 0).
Proof.
  split; [vm_compute; reflexivity|].
  split; [vm_compute; reflexivity|].
  split; [vm_compute; reflexivity|].
  apply (repair_fenced_object (fun _ => "") "Sure! " cat_body cat_dict
           (VFloat 0 0) VNone 0%Z);
    vm_compute; reflexivity.
Defined.

(** ** Planning: the partition into batches *)

Module PlanFacts.

Lemma py_slice_window {A} (i step : nat) (l : list A) :
  py_slice (Z.of_nat i) (Z.of_nat i + Z.of_nat step)%Z l = take step (drop i l).
Proof.
  unfold py_slice, clamp_index.
  destruct (Z.ltb_spec (Z.of_nat i) 0); [lia|].
  destruct (Z.ltb_spec (Z.of_nat i + Z.of_nat step) 0); [lia|].
  destruct (le_lt_dec (length l) i) as [Hge|Hlt].
  - rewrite (drop_ge l i) by lia.
    replace (Z.to_nat (Z.of_nat i `min` Z.of_nat (length l))) with (length l) by lia.
    rewrite drop_all. destruct step; destruct (_ - _); reflexivity.
  - replace (Z.to_nat (Z.of_nat i `min` Z.of_nat (length l))) with i by lia.
    destruct (le_lt_dec (length l) (i + step)) as [Hfar|Hnear].
    + replace (Z.to_nat ((Z.of_nat i + Z.of_nat step) `min` Z.of_nat (length l)))
        with (length l) by lia.
      rewrite !take_ge; [reflexivity | rewrite length_drop; lia | rewrite length_drop; lia].
    + replace (Z.to_nat ((Z.of_nat i + Z.of_nat step) `min` Z.of_nat (length l)))
        with (i + step) by lia.
      f_equal. lia.
Qed.

Section Range.
Context {A : Type} (l : list A) (step : nat) (Hstep : 1 <= step).

Let window (i : nat) : list A := take step (drop i l).

Lemma range_concat fuel i :
  length l - i <= fuel ->
  concat (map window (range_from fuel i (length l) step)) = drop i l.
Proof.
  revert i. induction fuel as [|fuel IH]; intros i Hfuel; simpl.
  - symmetry. apply drop_ge. lia.
  - destruct (Nat.ltb_spec i (length l)) as [Hlt|Hge]; simpl.
    + rewrite IH by lia. unfold window.
      rewrite <- (take_drop step (drop i l)) at 2.
      rewrite drop_drop. reflexivity.
    + symmetry. apply drop_ge. lia.
Qed.

Lemma range_length fuel i :
  length l - i <= fuel ->
  length (range_from fuel i (length l) step) = (length l - i + step - 1) / step.
Proof.
  revert i. induction fuel as [|fuel IH]; intros i Hfuel; simpl.
  - replace (length l - i + step - 1) with (step - 1) by lia.
    symmetry. apply Nat.div_small. lia.
  - destruct (Nat.ltb_spec i (length l)) as [Hlt|Hge]; simpl.
    + rewrite IH by lia.
      destruct (le_lt_dec step (length l - i)) as [Hfull|Hlast].
      * replace (length l - i + step - 1)
          with ((length l - (i + step) + step - 1) + 1 * step) by lia.
        rewrite Nat.div_add by lia. lia.
      * replace (length l - (i + step) + step - 1) with (step - 1) by lia.
        rewrite (Nat.div_small (step - 1)) by lia.
        apply (Nat.div_unique _ _ _ (length l - i - 1)); lia.
    + replace (length l - i + step - 1) with (step - 1) by lia.
      symmetry. apply Nat.div_small. lia.
Qed.

Lemma range_windows fuel i :
  Forall (fun b : list A => 1 <= length b <= step)
         (map window (range_from fuel i (length l) step)).
Proof.
  revert i. induction fuel as [|fuel IH]; intros i; simpl; [constructor|].
  destruct (Nat.ltb_spec i (length l)) as [Hlt|Hge]; simpl; [|constructor].
  constructor; [|apply IH].
  unfold window. rewrite length_take, length_drop. lia.
Qed.

End Range.

Lemma split_batches_nat (frames : list frame) (step : nat) :
  1 <= step ->
  split_batches frames (Z.of_nat step)
  = inr (map (fun i => take step (drop i frames))
             (range_from (length frames) 0 (length frames) step)).
Proof.
  intros Hstep. unfold split_batches, py_range.
  destruct (Z.eqb_spec (Z.of_nat step) 0); [lia|].
  destruct (Z.ltb_spec (Z.of_nat step) 0); [lia|].
  rewrite Nat2Z.id. f_equal. apply map_ext. intros i. apply py_slice_window.
Qed.

Lemma effective_batch_size_pos custom b :
  (1 <= b)%Z -> (1 <= effective_batch_size custom b)%Z.
Proof. unfold effective_batch_size. destruct custom; lia. Qed.

(** What the executor needs of the plan. *)
Lemma split_batches_spec (frames : list frame) (custom : bool) (B : Z) :
  (1 <= B)%Z ->
  exists batches,
    split_batches frames (effective_batch_size custom B) = inr batches
    /\ concat batches = frames
    /\ Forall (fun b : list frame =>
                 (1 <= Z.of_nat (length b) <= effective_batch_size custom B)%Z) batches.
Proof.
  intros HB.
  pose proof (effective_batch_size_pos custom B HB) as Hpos.
  set (eb := effective_batch_size custom B) in *.
  assert (Hstep : 1 <= Z.to_nat eb) by lia.
  rewrite <- (Z2Nat.id eb) by lia.
  rewrite (split_batches_nat frames (Z.to_nat eb) Hstep).
  eexists. split; [reflexivity|]. split.
  - apply (range_concat frames _ Hstep). lia.
  - eapply Forall_impl; [apply (range_windows frames _ Hstep)|].
    intros b Hb. simpl in Hb. lia.
Qed.

End PlanFacts.

(** C3. For every frame list and every batch size [B >= 1], the planning
    step succeeds and cuts the frames into [ceil(N / B')] batches, where [B']
    is the batch size in effect ([min(B, 2)] with the custom backend, [B]
    otherwise); the batches are contiguous, none is empty or longer than
    [B'], and their concatenation is the frame list itself. *)
Theorem split_batches_partition (frames : list frame) (custom : bool) (B : Z) :
  (1 <= B)%Z ->
  exists batches,
    split_batches frames (effective_batch_size custom B) = inr batches
    /\ Z.of_nat (length batches)
       = ((Z.of_nat (length frames) + effective_batch_size custom B - 1)
          / effective_batch_size custom B)%Z
    /\ concat batches = frames
    /\ Forall (fun b : list frame =>
                 (1 <= Z.of_nat (length b) <= effective_batch_size custom B)%Z) batches.
Proof.
  intros HB.
  pose proof (PlanFacts.effective_batch_size_pos custom B HB) as Hpos.
  set (eb := effective_batch_size custom B) in *.
  assert (Hstep : 1 <= Z.to_nat eb) by lia.
  rewrite <- (Z2Nat.id eb) by lia.
  rewrite (PlanFacts.split_batches_nat frames (Z.to_nat eb) Hstep).
  eexists. split; [reflexivity|]. split; [|split].
  - rewrite length_map, (PlanFacts.range_length frames _ Hstep) by lia.
    rewrite Nat2Z.inj_div. f_equal. lia.
  - rewrite (PlanFacts.range_concat frames _ Hstep) by lia. reflexivity.
  - eapply Forall_impl; [apply (PlanFacts.range_windows frames _ Hstep)|].
    intros b Hb. simpl in Hb. lia.
Qed.

Lemma split_batches_partition_witness :
  (1 <= 10)%Z
  /\ exists batches,
      split_batches (replicate 25 (∅ : frame)) (effective_batch_size false 10)
      = inr batches
      /\ Z.of_nat (length batches) = 3%Z
      /\ concat batches = replicate 25 (∅ : frame).
Proof.
  split; [lia|].
  destruct (split_batches_partition (replicate 25 ∅) false 10 ltac:(lia))
    as (batches & Hsplit & Hlen & Hcat & _).
  exists batches. split; [exact Hsplit|]. split; [|exact Hcat].
  rewrite Hlen. reflexivity.
Defined.

(** ** Frames under analysis *)

Module FrameFacts.

Lemma same_frame_refl f : same_frame f f.
Proof. intros k _. reflexivity. Qed.

Lemma same_frame_trans f g h : same_frame f g -> same_frame g h -> same_frame f h.
Proof. intros H1 H2 k Hk. rewrite (H2 k Hk). apply H1, Hk. Qed.

Lemma same_frame_insert f k v : k ∈ analysis_keys -> same_frame f (<[k := v]> f).
Proof.
  intros Hk k' Hk'. apply lookup_insert_ne. intros ->. contradiction.
Qed.

Lemma same_frame_update kvs f :
  Forall (fun kv => fst kv ∈ analysis_keys) kvs -> same_frame f (frame_update kvs f).
Proof.
  unfold frame_update. revert f.
  induction kvs as [|[k v] kvs IH]; intros f H; simpl; [apply same_frame_refl|].
  inversion H as [|? ? Hk Hrest]; subst.
  eapply same_frame_trans; [apply same_frame_insert, Hk | apply IH, Hrest].
Qed.

Ltac key_in := apply list_elem_of_In; simpl; tauto.

Lemma failed_keys d t e : Forall (fun kv => fst kv ∈ analysis_keys) (failed d t e).
Proof. unfold failed. repeat (constructor; [simpl; key_in|]). constructor. Qed.

Lemma analyzed_keys r t : Forall (fun kv => fst kv ∈ analysis_keys) (analyzed r t).
Proof. unfold analyzed. repeat (constructor; [simpl; key_in|]). constructor. Qed.

Lemma same_frame_failed f d t e : same_frame f (frame_update (failed d t e) f).
Proof. apply same_frame_update, failed_keys. Qed.

Lemma same_frame_analyzed f r t : same_frame f (frame_update (analyzed r t) f).
Proof. apply same_frame_update, analyzed_keys. Qed.

Lemma same_frame_sort_key f f' : same_frame f f' -> sort_key f' = sort_key f.
Proof.
  intros H. unfold sort_key. rewrite (H "timestamp"); [reflexivity|].
  intros Hin. apply list_elem_of_In in Hin. simpl in Hin.
  repeat destruct Hin as [Hin|Hin]; try discriminate. exact Hin.
Qed.

Lemma same_frames_refl l : Forall2 same_frame l l.
Proof. induction l; constructor; auto using same_frame_refl. Qed.

Lemma same_frames_trans l1 l2 l3 :
  Forall2 same_frame l1 l2 -> Forall2 same_frame l2 l3 -> Forall2 same_frame l1 l3.
Proof.
  intros H. revert l3. induction H; intros l3 H3; inversion H3; subst; constructor.
  - eapply same_frame_trans; eassumption.
  - auto.
Qed.

Lemma same_frames_failed l l' d t e :
  Forall2 same_frame l l' ->
  Forall2 same_frame l (map (frame_update (failed d t e)) l').
Proof.
  intros H. induction H; simpl; constructor; [|assumption].
  eapply same_frame_trans; [eassumption | apply same_frame_failed].
Qed.

(** An entry of [failed] is read back. *)
Lemma failed_error f d t e : frame_update (failed d t e) f !! "error" = Some (VStr e).
Proof. unfold frame_update, failed. simpl. apply lookup_insert_eq. Qed.

Lemma failed_description f d t e :
  frame_update (failed d t e) f !! "description" = Some (VStr d).
Proof.
  unfold frame_update, failed. simpl.
  rewrite !lookup_insert_ne by discriminate. apply lookup_insert_eq.
Qed.

Section Batch.
Variable jet : string -> string.
Variable rk : list string -> string.

Lemma map_results_same results per_frame i frames :
  Forall2 same_frame frames (fst (map_results results per_frame i frames)).
Proof.
  revert i. induction frames as [|f frames IH]; intros i; simpl; [constructor|].
  destruct (i <? length results).
  - destruct (results !! i) as [[]|]; simpl; try apply same_frames_refl.
    specialize (IH (S i)).
    destruct (map_results results per_frame (S i) frames) as [rest e]. simpl in *.
    constructor; [apply same_frame_analyzed | exact IH].
  - specialize (IH (S i)).
    destruct (map_results results per_frame (S i) frames) as [rest e]. simpl in *.
    constructor; [apply same_frame_failed | exact IH].
Qed.

Lemma interpret_batch_same content t frames :
  match interpret_batch jet rk content t frames with
  | inl (_, out) | inr out => Forall2 same_frame frames out
  end.
Proof.
  unfold interpret_batch.
  destruct (Json.loads _) as [json|].
  - destruct (batch_results rk json) as [e|results]; [apply same_frames_refl|].
    pose proof (map_results_same results
                  (t / Z.of_nat (length frames))%Z 0 frames) as H.
    destruct (map_results _ _ _ _) as [out [e|]]; exact H.
  - destruct content; [|apply same_frames_refl].
    apply same_frames_failed, same_frames_refl.
Qed.

Lemma batch_failed_same e frames out :
  Forall2 same_frame frames out -> Forall2 same_frame frames (batch_failed e out).
Proof. apply same_frames_failed. Qed.

End Batch.

End FrameFacts.

(** ** Runs of the batch call *)

Section RunFacts.

Context (E : Env).

Ltac run := unfold bind, ret, raise, try, ask, now, call in *; simpl in *.

Lemma read_images_run frames (s : St E) :
  exists r s',
    read_images E frames s = (inr r, s')
    /\ calls s' = calls s
    /\ match r with
       | inr images => length images <= length frames
       | inl _ => True
       end
    /\ (Forall no_image_path frames -> r = inr []).
Proof.
  revert s. induction frames as [|f frames IH]; intros s; simpl.
  - exists (inr []), s. run. auto.
  - destruct (truthy (py_or (frame_get "image_path" f) (frame_get "frame_path" f)))
      eqn:Hpath; simpl.
    + run. destruct (read_image E _ (world s)) as [[e|img] w].
      * eexists (inl e), _. repeat split; auto.
        intros H. inversion H as [|? ? Hf _]; subst.
        unfold no_image_path in Hf. congruence.
      * destruct (IH (MkSt w (calls s))) as (r & s' & Hr & Hc & Hlen & _).
        rewrite Hr. destruct r as [e|images].
        -- eexists (inl e), _. repeat split; auto.
           intros H. inversion H as [|? ? Hf _]; subst.
           unfold no_image_path in Hf. congruence.
        -- eexists (inr (img :: images)), _. repeat split; auto.
           ++ simpl. lia.
           ++ intros H. inversion H as [|? ? Hf _]; subst.
              unfold no_image_path in Hf. congruence.
    + destruct (IH s) as (r & s' & Hr & Hc & Hlen & Hnone).
      exists r, s'. repeat split; auto.
      * destruct r; auto; simpl; lia.
      * intros H. inversion H; subst. auto.
Qed.

Lemma read_images_pathless frames (s : St E) :
  Forall no_image_path frames -> read_images E frames s = (inr (inr []), s).
Proof.
  induction 1 as [|f frames Hf _ IH]; simpl; [reflexivity|].
  unfold no_image_path in Hf. rewrite Hf. simpl. exact IH.
Qed.

Lemma get_prompt_template_run svc user_id db (s : St E) :
  exists t s', get_prompt_template E svc user_id db s = (inr t, s')
               /\ calls s' = calls s.
Proof.
  unfold get_prompt_template. destruct (is_set user_id && db); run.
  - destruct (select_rules E _ (world s)) as [[e|[rules|]] w]; simpl;
      try destruct (negb (Str.is_empty rules)); eauto.
  - eauto.
Qed.

Lemma get_openai_client_run svc user_id db (s : St E) :
  exists c s', _get_openai_client E svc user_id db s = (inr c, s')
               /\ calls s' = calls s.
Proof.
  unfold _get_openai_client.
  destruct (use_custom_gpt svc); run; [eauto|].
  destruct (is_set user_id && db); run; [|eauto].
  destruct (select_api_key E _ (world s)) as [[e|[key|]] w]; simpl;
    try destruct (negb (Str.is_empty key)); eauto.
Qed.

Lemma guarded_call_run svc api_key req (s : St E) :
  exists a b s', guarded_call E svc api_key req s = (inr a, s')
                 /\ calls s' = calls s ++ [(b, req)].
Proof.
  unfold guarded_call. run.
  destruct (send E _ req (world s)) as [a w].
  destruct (if use_custom_gpt svc then _call_custom_gpt a else openai_create a)
    as [e|c]; [destruct (exn_cls e)|]; simpl; eauto.
Qed.

Lemma batch_body_run svc api_key frames user_id db start (s : St E) :
  exists r s' new,
    batch_body E svc api_key frames user_id db start s = (inr r, s')
    /\ calls s' = calls s ++ new
    /\ length new <= 1
    /\ Forall (fun c => req_frame_count (snd c) = length frames
                        /\ 1 <= length (req_images (snd c)) <= length frames) new
    /\ match r with
       | inl (_, out) | inr out => Forall2 same_frame frames out
       end.
Proof.
  unfold batch_body.
  destruct (read_images_run frames s) as (imgs & s1 & Himgs & Hc1 & Hlen & _).
  unfold bind at 1. rewrite Himgs.
  destruct imgs as [e|[|img images]].
  - run. exists (inl (e, frames)), s1, []. rewrite app_nil_r.
    repeat split; auto using FrameFacts.same_frames_refl.
  - run. exists (inr frames), s1, []. rewrite app_nil_r.
    repeat split; auto using FrameFacts.same_frames_refl.
  - destruct (get_prompt_template_run svc user_id db s1) as (t & s2 & Ht & Hc2).
    unfold bind at 1. rewrite Ht.
    match goal with |- context [guarded_call E svc api_key ?r] => set (req := r) end.
    destruct (guarded_call_run svc api_key req s2) as (a & b & s3 & Ha & Hc3).
    unfold bind at 1. rewrite Ha.
    assert (Hnew : calls s3 = calls s ++ [(b, req)]) by congruence.
    assert (Hreq : Forall (fun c => req_frame_count (snd c) = length frames
                            /\ 1 <= length (req_images (snd c)) <= length frames)
                          [(b, req)]).
    { constructor; [|constructor]. simpl in *. lia. }
    destruct a as [e|content].
    + run. exists (inl (e, frames)), s3, [(b, req)].
      repeat split; auto using FrameFacts.same_frames_refl.
    + run. eexists _, s3, [(b, req)]. split; [reflexivity|].
      repeat split; auto. apply FrameFacts.interpret_batch_same.
Qed.

Lemma analyze_frame_batch_run svc frames user_id db (s : St E) :
  exists r s', analyze_frame_batch E svc frames user_id db s = (r, s')
               /\ batch_run frames s r s'.
Proof.
  unfold analyze_frame_batch, batch_run.
  assert (Hbody : forall api_key s1, calls s1 = calls s ->
    exists r s',
      (match frames with
       | [] => ret E []
       | _ :: _ =>
           bind E (now E) (fun start_time =>
           bind E (batch_body E svc api_key frames user_id db start_time) (fun r =>
           match r with
           | inr frames' => ret E frames'
           | inl (e, frames') =>
               ret E (batch_failed e frames')
           end))
       end) s1 = (r, s')
      /\ exists new,
          calls s' = calls s ++ new /\ length new <= 1
          /\ Forall (fun c => req_frame_count (snd c) = length frames
                              /\ 1 <= length (req_images (snd c)) <= length frames) new
          /\ match r with
             | inl e => e = Exn ValueError NO_KEY /\ new = []
             | inr out => Forall2 same_frame frames out
             end).
  { intros api_key s1 Hs1. destruct frames as [|f frames'] eqn:Hframes.
    - run. exists (inr []), s1. split; [reflexivity|]. exists [].
      rewrite app_nil_r. repeat split; auto.
    - rewrite <- Hframes in *. unfold bind at 1, now.
      destruct (batch_body_run svc api_key frames user_id db (clock E (world s1)) s1)
        as (r & s' & new & Hr & Hc & Hlen & Hreq & Hsame).
      unfold bind at 1. rewrite Hr. rewrite Hs1 in Hc.
      destruct r as [[e out]|out]; run.
      + eexists (inr _), s'. split; [reflexivity|]. exists new.
        repeat split; auto. apply FrameFacts.batch_failed_same, Hsame.
      + eexists (inr _), s'. split; [reflexivity|]. exists new.
        repeat split; auto. }
  destruct (use_custom_gpt svc) eqn:Hcustom; simpl.
  - unfold bind at 1, ret at 1. apply Hbody. reflexivity.
  - destruct (get_openai_client_run svc user_id db s) as (c & s1 & Hclient & Hc1).
    unfold bind at 1, bind at 1. rewrite Hclient.
    destruct c as [k|].
    + unfold ret at 1. apply Hbody, Hc1.
    + run. exists (inl (Exn ValueError NO_KEY)), s1. split; [reflexivity|].
      exists []. rewrite app_nil_r. repeat split; auto.
Qed.

Lemma analyze_individually_run svc batch user_id db (s : St E) :
  exists out s' new,
    analyze_individually E svc batch user_id db s = (inr out, s')
    /\ calls s' = calls s ++ new
    /\ Forall (fun c => 1 <= req_frame_count (snd c) <= length batch) new
    /\ Forall2 same_frame batch out.
Proof.
  revert s. induction batch as [|f rest IH]; intros s; simpl.
  - run. exists [], s, []. rewrite app_nil_r. repeat split; auto.
  - destruct (analyze_frame_batch_run svc [f] user_id db s)
      as (r & s1 & Hr & new1 & Hc1 & _ & Hreq1 & Hsame1).
    unfold bind at 1, try. rewrite Hr.
    destruct (IH s1) as (more & s2 & new2 & Hmore & Hc2 & Hreq2 & Hsame2).
    unfold bind at 1. rewrite Hmore. unfold ret.
    eexists _, s2, (new1 ++ new2). split; [reflexivity|].
    split; [rewrite Hc2, Hc1, app_assoc; reflexivity|]. split.
    + apply Forall_app. split.
      * eapply Forall_impl; [exact Hreq1|]. simpl. intros c [-> _]. lia.
      * eapply Forall_impl; [exact Hreq2|]. simpl. intros c ?. lia.
    + change (f :: rest) with ([f] ++ rest). apply Forall2_app; [|exact Hsame2].
      destruct r as [e|single]; [|exact Hsame1].
      constructor; [apply FrameFacts.same_frame_failed | constructor].
Qed.

Lemma analyze_batch_with_semaphore_run svc user_id db batch (s : St E) :
  exists r s', analyze_batch_with_semaphore E svc user_id db batch s = (r, s')
               /\ task_run batch s r s'.
Proof.
  unfold analyze_batch_with_semaphore, task_run.
  destruct (analyze_frame_batch_run svc batch user_id db s)
    as (r & s1 & Hr & new1 & Hc1 & _ & Hreq1 & Hsame1).
  unfold bind at 1, try. rewrite Hr.
  assert (Hreq : Forall (fun c => 1 <= req_frame_count (snd c) <= length batch) new1).
  { eapply Forall_impl; [exact Hreq1|]. simpl. intros c [-> ?]. lia. }
  destruct r as [e|out].
  - destruct Hsame1 as [-> ->]. rewrite app_nil_r in Hc1.
    destruct (is_payload_too_large (str_exn (Exn ValueError NO_KEY))).
    + destruct (analyze_individually_run svc batch user_id db s1)
        as (out & s2 & new2 & Hout & Hc2 & Hreq2 & Hsame2).
      rewrite Hout. exists (inr out), s2. split; [reflexivity|].
      exists new2, out. rewrite Hc2, Hc1. auto.
    + run. eexists (inr _), s1. split; [reflexivity|].
      eexists [], _. rewrite app_nil_r. repeat split; auto.
      apply FrameFacts.same_frames_failed, FrameFacts.same_frames_refl.
  - run. exists (inr out), s1. split; [reflexivity|]. exists new1, out. auto.
Qed.

(** The only exception [analyze_frame_batch] lets out does not look like
    a rejected payload: the per-frame fallback of the batch task is never
    entered. *)
Lemma fallback_unreachable svc user_id db batch (s : St E) :
  analyze_batch_with_semaphore E svc user_id db batch s
  = match analyze_frame_batch E svc batch user_id db s with
    | (inr result, s') => (inr result, s')
    | (inl e, s') =>
        (inr (map (frame_update
                     (failed ("Error analyzing batch: " +:+ str_exn e) 0 (str_exn e)))
                  batch), s')
    end.
Proof.
  unfold analyze_batch_with_semaphore.
  destruct (analyze_frame_batch_run svc batch user_id db s)
    as (r & s1 & Hr & new1 & _ & _ & _ & Hsame1).
  unfold bind at 1, try. rewrite Hr.
  destruct r as [e|out]; [|reflexivity].
  destruct Hsame1 as [-> _]. reflexivity.
Qed.

End RunFacts.

(** ** The executor: every task runs once, in any order *)

Section GatherFacts.

Context (E : Env) {A : Type}.
Variable P : backend * request -> Prop.
Variable Q : nat -> exn + A -> Prop.

Lemma run_pending_spec fuel (pending : list (nat * M E A)) schedule done s :
  Forall (fun it => well_behaved P Q (fst it) (snd it)) pending ->
  length pending <= fuel ->
  exists done' s' new,
    run_pending E fuel pending schedule done s = (done', s')
    /\ calls s' = calls s ++ new
    /\ Forall P new
    /\ done'.*1 ≡ₚ pending.*1 ++ done.*1
    /\ (Forall (fun ir => Q (fst ir) (snd ir)) done ->
        Forall (fun ir => Q (fst ir) (snd ir)) done').
Proof.
  revert pending schedule done s.
  induction fuel as [|fuel IH]; intros pending schedule done s Htasks Hfuel.
  - destruct pending; simpl in Hfuel; [|lia].
    exists done, s, []. rewrite app_nil_r. simpl. repeat split; auto.
  - simpl. set (k := hd 0 schedule `mod` length pending).
    destruct (pending !! k) as [[i task]|] eqn:Hk.
    + pose proof (proj1 (Forall_lookup _ _) Htasks k _ Hk s) as Hrun. simpl in Hrun.
      destruct Hrun as (r & s1 & new1 & Hr & Hc1 & Hp1 & Hq).
      rewrite Hr.
      assert (Hlt : k < length pending) by (eapply lookup_lt_Some, Hk).
      destruct (IH (delete k pending) (tl schedule) ((i, r) :: done) s1)
        as (done' & s2 & new2 & Hrec & Hc2 & Hp2 & Hperm & Hdone).
      { apply Forall_delete, Htasks. }
      { rewrite length_delete by eauto. lia. }
      exists done', s2, (new1 ++ new2). split; [exact Hrec|].
      split; [rewrite Hc2, Hc1, app_assoc; reflexivity|].
      split; [apply Forall_app; auto|]. split.
      * rewrite Hperm. rewrite (delete_Permutation pending k (i, task) Hk) at 2.
        rewrite !fmap_cons. simpl.
        rewrite <- Permutation_middle. reflexivity.
      * intros Hd. apply Hdone. constructor; auto.
    + assert (pending = []) as ->.
      { destruct pending as [|p pending']; [reflexivity|]. exfalso.
        apply lookup_ge_None in Hk. unfold k in Hk.
        pose proof (Nat.mod_upper_bound (hd 0 schedule) (length (p :: pending'))
                      ltac:(simpl; lia)) as Hb.
        exact (Nat.lt_irrefl _ (Nat.lt_le_trans _ _ _ Hb Hk)). }
      exists done, s, []. rewrite app_nil_r. simpl. repeat split; auto.
Qed.

Lemma imap_indices {B} (g : nat -> nat) (l : list B) :
  (imap (fun i t => (g i, t)) l).*1 = g <$> seq 0 (length l).
Proof.
  revert g. induction l as [|x l IH]; intros g; [reflexivity|].
  simpl. f_equal. rewrite <- fmap_S_seq, <- list_fmap_compose. apply (IH (g ∘ S)).
Qed.

Lemma omap_total {B C} (f : B -> option C) (l : list B) :
  Forall (fun x => is_Some (f x)) l ->
  Forall2 (fun x r => f x = Some r) l (omap f l).
Proof.
  induction 1 as [|x l [r Hr] _ IH]; simpl; [constructor|].
  rewrite Hr. constructor; assumption.
Qed.

Lemma gather_spec (tasks : list (M E A)) schedule s :
  (forall i task, tasks !! i = Some task -> well_behaved P Q i task) ->
  exists rs s' new,
    gather E tasks schedule s = (rs, s')
    /\ calls s' = calls s ++ new
    /\ Forall P new
    /\ length rs = length tasks
    /\ forall i r, rs !! i = Some r -> Q i r.
Proof.
  intros Htasks. unfold gather.
  destruct (run_pending_spec (length tasks) (imap (fun i task => (i, task)) tasks)
              schedule [] s) as (done & s' & new & Hrun & Hc & Hp & Hperm & Hq).
  { apply Forall_forall. intros [i task] Hin.
    apply elem_of_lookup_imap in Hin as (j & t & Heq & Hj).
    injection Heq as -> ->. simpl. apply Htasks, Hj. }
  { rewrite length_imap. lia. }
  rewrite Hrun. eexists _, s', new. split; [reflexivity|].
  split; [exact Hc|]. split; [exact Hp|].
  specialize (Hq (Forall_nil_2 _)).
  simpl in Hperm. rewrite app_nil_r, (imap_indices id), list_fmap_id in Hperm.
  assert (Hnodup : NoDup done.*1) by (rewrite Hperm; apply NoDup_seq).
  assert (Hall : Forall (fun i => is_Some ((list_to_map done : gmap nat _) !! i))
                        (seq 0 (length tasks))).
  { apply Forall_forall. intros i Hi. rewrite <- Hperm in Hi.
    apply list_elem_of_fmap in Hi as [[j r] [-> Hin]]. simpl.
    exists r. apply elem_of_list_to_map_1; assumption. }
  pose proof (omap_total _ _ Hall) as Hres.
  split.
  - rewrite <- (Forall2_length _ _ _ Hres). apply length_seq.
  - intros i r Hi.
    destruct (Forall2_lookup_r _ _ _ _ _ Hres Hi) as (j & Hj & Hlook).
    apply lookup_seq in Hj as [-> _]. simpl in Hlook.
    apply elem_of_list_to_map_2 in Hlook.
    apply (proj1 (Forall_forall _ _) Hq (i, r) Hlook).
Qed.

End GatherFacts.

(** ** The final sort *)

Module SortFacts.

Section Keyed.
Context {A : Type}.

Let key_le (p q : Q * A) : Prop := (fst p <= fst q)%Q.

Lemma insert_by_key_perm k (x : A) l : insert_by_key k x l ≡ₚ (k, x) :: l.
Proof.
  induction l as [|[k' y] l IH]; simpl; [reflexivity|].
  destruct (Qle_bool k k'); [reflexivity|].
  rewrite IH. apply perm_swap.
Qed.

Lemma sort_by_key_perm (l : list (Q * A)) : sort_by_key l ≡ₚ l.
Proof.
  induction l as [|[k x] l IH]; simpl; [reflexivity|].
  rewrite insert_by_key_perm, IH. reflexivity.
Qed.

Lemma insert_by_key_sorted k (x : A) l :
  StronglySorted key_le l -> StronglySorted key_le (insert_by_key k x l).
Proof.
  induction 1 as [|[k' y] l Hs IH Hall]; simpl.
  - repeat constructor.
  - destruct (Qle_bool k k') eqn:Hle.
    + apply Qle_bool_iff in Hle. constructor; [constructor; assumption|].
      constructor; [exact Hle|].
      eapply Forall_impl; [exact Hall|].
      intros p Hp. unfold key_le in *. simpl in *. eapply Qle_trans; eassumption.
    + assert (Hlt : (k' <= k)%Q).
      { apply Qlt_le_weak, Qnot_le_lt. intros H.
        apply Qle_bool_iff in H. congruence. }
      constructor; [exact IH|].
      rewrite insert_by_key_perm. constructor; assumption.
Qed.

Lemma sort_by_key_sorted (l : list (Q * A)) : StronglySorted key_le (sort_by_key l).
Proof.
  induction l as [|[k x] l IH]; simpl; [constructor|].
  apply insert_by_key_sorted, IH.
Qed.

(** A list already in order is left as it is. *)
Lemma sort_by_key_sorted_id (l : list (Q * A)) :
  StronglySorted key_le l -> sort_by_key l = l.
Proof.
  induction 1 as [|[k x] l Hs IH Hall]; simpl; [reflexivity|].
  rewrite IH. destruct l as [|[k' y] l]; simpl; [reflexivity|].
  inversion Hall as [|? ? Hle _]; subst. unfold key_le in Hle. simpl in Hle.
  apply Qle_bool_iff in Hle. rewrite Hle. reflexivity.
Qed.

End Keyed.

(** The sort looks at the keys only: two lists with the same keys, position
    by position, are rearranged in the same way. *)
Section Parametric.
Context {A B : Type} (R : A -> B -> Prop).

Let rel (p : Q * A) (q : Q * B) : Prop := fst p = fst q /\ R (snd p) (snd q).

Lemma insert_by_key_rel k x y l l' :
  R x y -> Forall2 rel l l' ->
  Forall2 rel (insert_by_key k x l) (insert_by_key k y l').
Proof.
  intros Hxy H. induction H as [|[k1 a] [k2 b] l l' [Hk Hab] Hl IH]; simpl.
  - repeat constructor. exact Hxy.
  - simpl in Hk. subst k2. destruct (Qle_bool k k1).
    + constructor; [split; [reflexivity | exact Hxy]|].
      constructor; [split; [reflexivity | exact Hab] | exact Hl].
    + constructor; [split; [reflexivity | exact Hab] | exact IH].
Qed.

Lemma sort_by_key_rel l l' :
  Forall2 rel l l' -> Forall2 rel (sort_by_key l) (sort_by_key l').
Proof.
  induction 1 as [|[k1 a] [k2 b] l l' [Hk Hab] Hl IH]; simpl; [constructor|].
  simpl in Hk. subst k2. apply insert_by_key_rel; assumption.
Qed.

End Parametric.

Lemma keys_of (l : list frame) :
  Forall numeric_timestamp l ->
  exists keys, mapM (fun x => num (sort_key x)) l = Some keys
               /\ Forall2 (fun x k => num (sort_key x) = Some k) l keys.
Proof.
  intros H.
  assert (Hsome : is_Some (mapM (fun x => num (sort_key x)) l)).
  { apply mapM_is_Some. exact H. }
  destruct Hsome as [keys Hkeys]. exists keys. split; [exact Hkeys|].
  apply mapM_Some, Hkeys.
Qed.

Lemma sorted_of_keyed (l : list (Q * frame)) :
  Forall (fun p => num (sort_key (snd p)) = Some (fst p)) l ->
  StronglySorted (fun p q : Q * frame => (fst p <= fst q)%Q) l ->
  sorted_by_timestamp (map snd l).
Proof.
  intros Hkeyed Hs. induction Hs as [|[k x] l Hs IH Hall]; simpl; [constructor|].
  inversion Hkeyed as [|? ? Hx Hrest]; subst. simpl in Hx.
  constructor; [apply IH, Hrest|].
  apply Forall_fmap, Forall_forall. intros [k' y] Hin. simpl.
  exists k, k'. split; [exact Hx|]. split.
  - apply (proj1 (Forall_forall _ _) Hrest (k', y) Hin).
  - apply (proj1 (Forall_forall _ _) Hall (k', y) Hin).
Qed.

Lemma zip_keys (l : list frame) keys :
  Forall2 (fun x k => num (sort_key x) = Some k) l keys ->
  (zip keys l).*2 = l
  /\ Forall (fun p => num (sort_key (snd p)) = Some (fst p)) (zip keys l).
Proof.
  induction 1 as [|x k l keys Hx _ [IH1 IH2]]; simpl; [split; [reflexivity|constructor]|].
  split; [f_equal; exact IH1 | constructor; assumption].
Qed.

(** With numeric timestamps the sort succeeds; its result is a rearrangement
    of the list, in ascending order of timestamp. *)
Lemma py_sort_spec (l : list frame) :
  Forall numeric_timestamp l ->
  exists sorted, py_sort l = inr sorted
                 /\ sorted ≡ₚ l
                 /\ sorted_by_timestamp sorted.
Proof.
  intros Hnum. destruct (keys_of l Hnum) as (keys & Hkeys & Hall).
  destruct (zip_keys l keys Hall) as [Hsnd Hkeyed].
  assert (Hgen : exists sorted,
             sorted = map snd (sort_by_key (zip keys l))
             /\ sorted ≡ₚ l /\ sorted_by_timestamp sorted).
  { eexists. split; [reflexivity|]. split.
    - rewrite sort_by_key_perm. rewrite <- Hsnd at 2. reflexivity.
    - apply sorted_of_keyed; [|apply sort_by_key_sorted].
      rewrite sort_by_key_perm. exact Hkeyed. }
  destruct Hgen as (sorted & -> & Hperm & Hsorted).
  unfold py_sort. destruct l as [|x [|y l]].
  - exists []. repeat split; auto. constructor.
  - exists [x]. repeat split; auto. repeat constructor.
  - rewrite Hkeys. eexists. split; [reflexivity|]. split; assumption.
Qed.

(** Analysis does not move a frame: the analyzed frames are sorted into the
    places the input frames are sorted into. *)
Lemma py_sort_same (l l' : list frame) :
  Forall2 same_frame l l' ->
  Forall numeric_timestamp l ->
  exists sorted sorted',
    py_sort l = inr sorted /\ py_sort l' = inr sorted'
    /\ Forall2 same_frame sorted sorted'.
Proof.
  intros Hsame Hnum. destruct (keys_of l Hnum) as (keys & Hkeys & Hall).
  assert (Hkeys' : mapM (fun x => num (sort_key x)) l' = Some keys).
  { apply mapM_Some. clear Hkeys Hnum. revert keys Hall.
    induction Hsame as [|x x' l l' Hx _ IH]; intros keys Hall;
      inversion Hall; subst; constructor; auto.
    rewrite (FrameFacts.same_frame_sort_key _ _ Hx). assumption. }
  assert (Hrel : Forall2 (fun p q : Q * frame => fst p = fst q
                                                 /\ same_frame (snd p) (snd q))
                         (zip keys l) (zip keys l')).
  { clear Hkeys Hkeys' Hnum. revert keys Hall.
    induction Hsame as [|x x' l l' Hx _ IH]; intros keys Hall;
      inversion Hall; subst; simpl; constructor; auto. }
  apply (sort_by_key_rel same_frame) in Hrel.
  assert (Hout : Forall2 same_frame (map snd (sort_by_key (zip keys l)))
                         (map snd (sort_by_key (zip keys l')))).
  { apply Forall2_fmap. eapply Forall2_impl; [exact Hrel|]. intros ? ? [_ H]. exact H. }
  unfold py_sort. inversion Hsame as [|x x' t t' Hx Ht]; subst.
  - exists [], []. repeat split; constructor.
  - inversion Ht as [|y y' u u' Hy Hu]; subst.
    + exists [x], [x']. repeat split; repeat constructor; assumption.
    + rewrite Hkeys, Hkeys'. eexists _, _. repeat split; exact Hout.
Qed.

Lemma timestamp_le_same a a' b b' :
  same_frame a a' -> same_frame b b' -> timestamp_le a b -> timestamp_le a' b'.
Proof.
  intros Ha Hb (qa & qb & H1 & H2 & Hle). exists qa, qb.
  rewrite (FrameFacts.same_frame_sort_key _ _ Ha),
          (FrameFacts.same_frame_sort_key _ _ Hb). auto.
Qed.

Lemma sorted_same (l l' : list frame) :
  Forall2 same_frame l l' -> sorted_by_timestamp l -> sorted_by_timestamp l'.
Proof.
  induction 1 as [|a a' l l' Ha Hl IH]; intros Hs; [constructor|].
  inversion Hs as [|? ? Hsl Hall]; subst. constructor; [apply IH, Hsl|].
  clear IH Hsl Hs. induction Hl as [|b b' l l' Hb _ IH]; [constructor|].
  inversion Hall; subst. constructor; [|apply IH; assumption].
  eapply timestamp_le_same; eassumption.
Qed.

Lemma zip_keys_sorted (l : list frame) keys :
  Forall2 (fun x k => num (sort_key x) = Some k) l keys ->
  sorted_by_timestamp l ->
  StronglySorted (fun p q : Q * frame => (fst p <= fst q)%Q) (zip keys l).
Proof.
  induction 1 as [|x k l keys Hx Hl IH]; intros Hs; simpl; [constructor|].
  inversion Hs as [|? ? Hsl Hall]; subst. constructor; [apply IH, Hsl|].
  clear IH Hsl Hs. induction Hl as [|y k' l keys Hy _ IH]; simpl; [constructor|].
  inversion Hall as [|? ? (qa & qb & Ha & Hb & Hle) Hrest]; subst.
  constructor; [|apply IH, Hrest]. simpl. congruence.
Qed.

(** The sort leaves a list in ascending order as it is. *)
Lemma py_sort_sorted (l : list frame) :
  Forall numeric_timestamp l -> sorted_by_timestamp l -> py_sort l = inr l.
Proof.
  intros Hnum Hs. destruct (keys_of l Hnum) as (keys & Hkeys & Hall).
  destruct (zip_keys l keys Hall) as [Hsnd _].
  unfold py_sort. destruct l as [|x [|y l]]; try reflexivity.
  rewrite Hkeys, (sort_by_key_sorted_id _ (zip_keys_sorted _ _ Hall Hs)).
  f_equal. exact Hsnd.
Qed.

End SortFacts.

(** ** The planner and executor as a whole *)

Section PipelineFacts.

Context (E : Env).

Lemma flatten_results frames batch_size batches rs acc :
  Forall2 (fun (b : list frame) (r : exn + list frame) =>
             exists out, r = inr out /\ Forall2 same_frame b out) batches rs ->
  exists outs, flatten frames batch_size rs acc = acc ++ outs
               /\ Forall2 same_frame (concat batches) outs.
Proof.
  intros H. revert acc.
  induction H as [|b r batches rs (out & -> & Hout) _ IH]; intros acc; simpl.
  - exists []. rewrite app_nil_r. split; [reflexivity | constructor].
  - destruct (IH (acc ++ out)) as (outs & Hflat & Hsame).
    exists (out ++ outs). rewrite Hflat, app_assoc. split; [reflexivity|].
    apply Forall2_app; assumption.
Qed.

Lemma client_available_calls svc user_id db (s : St E) :
  calls (snd (client_available E svc user_id db s)) = calls s.
Proof.
  unfold client_available.
  destruct (get_openai_client_run E svc user_id db s) as (c & s' & Hc & Hcalls).
  rewrite Hc. destruct c; exact Hcalls.
Qed.

(** Without a client, and without the custom endpoint, nothing is planned:
    the frames come back in the order given, each with the error. *)
Lemma no_client_path svc cfg frames max_workers batch_size user_id db schedule
      (s : St E) :
  use_custom_gpt (refreshed svc cfg) = false ->
  fst (client_available E (refreshed svc cfg) user_id db s) = false ->
  exists s',
    batch_analyze_frames E svc cfg frames max_workers batch_size user_id db schedule s
    = (Returned (map (frame_update (failed NO_KEY 0 NO_KEY)) frames),
       refreshed svc cfg, s')
    /\ calls s' = calls s.
Proof.
  intros Hcustom Hclient. unfold batch_analyze_frames.
  rewrite Hcustom. simpl negb. cbv iota.
  pose proof (client_available_calls (refreshed svc cfg) user_id db s) as Hcalls.
  destruct (client_available E (refreshed svc cfg) user_id db s) as [b s1].
  simpl in *. subst b. simpl. exists s1. split; [reflexivity | exact Hcalls].
Qed.

(** No frames: nothing is planned and nothing is sent. *)
Lemma empty_path svc cfg max_workers batch_size user_id db schedule (s : St E) :
  exists s',
    batch_analyze_frames E svc cfg [] max_workers batch_size user_id db schedule s
    = (Returned [], refreshed svc cfg, s')
    /\ calls s' = calls s.
Proof.
  unfold batch_analyze_frames.
  destruct (use_custom_gpt (refreshed svc cfg)); simpl negb; cbv iota.
  - exists s. split; reflexivity.
  - pose proof (client_available_calls (refreshed svc cfg) user_id db s) as Hcalls.
    destruct (client_available E (refreshed svc cfg) user_id db s) as [[] s1];
      simpl in *; exists s1; split; auto.
Qed.

Lemma empty_batch svc user_id db (s : St E) :
  exists s',
    calls s' = calls s
    /\ analyze_frame_batch E svc [] user_id db s
       = (if use_custom_gpt svc || fst (client_available E svc user_id db s)
          then inr [] else inl (Exn ValueError NO_KEY), s').
Proof.
  unfold analyze_frame_batch, client_available.
  destruct (use_custom_gpt svc) eqn:Hcustom; simpl.
  - exists s. split; reflexivity.
  - destruct (get_openai_client_run E svc user_id db s) as (c & s1 & Hc & Hcalls).
    unfold bind at 1, bind at 1. rewrite Hc.
    exists s1. split; [exact Hcalls|]. destruct c; reflexivity.
Qed.

(** A batch in which no frame has an image path comes back as it went in. *)
Lemma pathless_batch svc frames user_id db (s : St E) :
  use_custom_gpt svc = true ->
  frames <> [] ->
  Forall no_image_path frames ->
  analyze_frame_batch E svc frames user_id db s = (inr frames, s).
Proof.
  intros Hcustom Hne Hpaths. unfold analyze_frame_batch.
  rewrite Hcustom. simpl. unfold bind at 1, ret at 1.
  destruct frames as [|f frames']; [congruence|].
  unfold bind at 1, now. unfold bind at 1, batch_body. unfold bind at 1.
  rewrite (read_images_pathless E _ s Hpaths). reflexivity.
Qed.

(** With a backend, the frames are planned, dispatched, merged and sorted. *)
Lemma merge_path svc cfg frames max_workers batch_size user_id db schedule
      (s : St E) :
  frames <> [] ->
  (1 <= batch_size)%Z ->
  (1 <= max_workers)%Z ->
  Forall numeric_timestamp frames ->
  use_custom_gpt (refreshed svc cfg) = true
  \/ fst (client_available E (refreshed svc cfg) user_id db s) = true ->
  exists result s' sorted_input new,
    batch_analyze_frames E svc cfg frames max_workers batch_size user_id db schedule s
    = (Returned result, refreshed svc cfg, s')
    /\ py_sort frames = inr sorted_input
    /\ Forall2 same_frame sorted_input result
    /\ sorted_by_timestamp result
    /\ calls s' = calls s ++ new
    /\ Forall (fun c =>
                 (1 <= Z.of_nat (req_frame_count (snd c))
                  <= effective_batch_size (use_custom_gpt (refreshed svc cfg))
                                          batch_size)%Z) new.
Proof.
  intros Hne Hbs Hmw Hnum Hbackend. unfold batch_analyze_frames.
  set (svc' := refreshed svc cfg) in *.
  assert (Hclient : exists s1,
             (if negb (use_custom_gpt svc')
              then client_available E svc' user_id db s else (true, s)) = (true, s1)
             /\ calls s1 = calls s).
  { destruct (use_custom_gpt svc') eqn:Hcustom; simpl.
    - exists s. auto.
    - destruct Hbackend as [?|Hav]; [discriminate|].
      pose proof (client_available_calls svc' user_id db s) as Hcalls.
      destruct (client_available E svc' user_id db s) as [b s1]. simpl in *.
      subst b. exists s1. auto. }
  destruct Hclient as (s1 & -> & Hcalls1). simpl negb. cbv iota.
  destruct frames as [|f0 frames0] eqn:Hframes; [congruence|].
  rewrite <- Hframes in *. clear Hne.
  destruct (PlanFacts.split_batches_spec frames (use_custom_gpt svc') batch_size Hbs)
    as (batches & -> & Hconcat & Hbounds).
  set (eb := effective_batch_size (use_custom_gpt svc') batch_size) in *.
  destruct (Z.ltb_spec max_workers 0); [lia|].
  destruct (Z.eqb_spec max_workers 0); [lia|]. simpl andb. cbv iota.
  set (P := fun c : backend * request =>
              (1 <= Z.of_nat (req_frame_count (snd c)) <= eb)%Z).
  set (Q := fun (i : nat) (r : exn + list frame) =>
              exists b out, batches !! i = Some b /\ r = inr out
                            /\ Forall2 same_frame b out).
  destruct (gather_spec E P Q
              (map (analyze_batch_with_semaphore E svc' user_id db) batches)
              schedule s1) as (rs & s2 & new & -> & Hcalls2 & Hnew & Hlen & Hrs).
  { intros i task Hi s0.
    apply list_lookup_fmap_Some in Hi as (b & -> & Hb).
    destruct (analyze_batch_with_semaphore_run E svc' user_id db b s0)
      as (r & s' & Hr & new & out & Hc & Hreq & -> & Hsame).
    exists (inr out), s', new. split; [exact Hr|]. split; [exact Hc|]. split.
    - pose proof (proj1 (Forall_lookup _ _) Hbounds i b Hb) as Hb'. simpl in Hb'.
      eapply Forall_impl; [exact Hreq|]. unfold P. simpl. intros c ?. lia.
    - exists b, out. auto. }
  rewrite length_map in Hlen.
  assert (Hall : Forall2 (fun (b : list frame) (r : exn + list frame) =>
                            exists out, r = inr out /\ Forall2 same_frame b out)
                         batches rs).
  { apply Forall2_same_length_lookup_2; [congruence|].
    intros i b r Hb Hr. destruct (Hrs i r Hr) as (b' & out & Hb' & -> & Hsame).
    exists out. split; [reflexivity|]. congruence. }
  destruct (flatten_results frames batch_size batches rs [] Hall)
    as (analyzed & -> & Hsame).
  rewrite Hconcat in Hsame. rewrite app_nil_l.
  destruct (SortFacts.py_sort_same frames analyzed Hsame Hnum)
    as (sorted_input & result & Hin & Hout & Hsorted).
  assert (Hnum' : Forall numeric_timestamp analyzed).
  { clear -Hsame Hnum. induction Hsame as [|x y l l' Hxy _ IH]; [constructor|].
    inversion Hnum; subst. constructor; auto.
    unfold numeric_timestamp in *.
    rewrite (FrameFacts.same_frame_sort_key _ _ Hxy). assumption. }
  destruct (SortFacts.py_sort_spec analyzed Hnum') as (result' & Hres & _ & Hord).
  assert (result' = result) by congruence. subst result'.
  rewrite Hout. exists result, s2, sorted_input, new.
  split; [reflexivity|]. split; [exact Hin|]. split; [exact Hsorted|].
  split; [exact Hord|]. split; [congruence | exact Hnew].
Qed.

End PipelineFacts.

(** ** Results shorter than the batch *)

Lemma map_results_dicts results per_frame i (frames : list frame) :
  Forall (fun r => is_dict r = true) results ->
  snd (map_results results per_frame i frames) = None
  /\ forall j f, frames !! j = Some f ->
       fst (map_results results per_frame i frames) !! j
       = Some (match results !! (i + j) with
               | Some (VDict d) => frame_update (analyzed d per_frame) f
               | _ => frame_update (failed "No analysis result" 0 MISSING) f
               end).
Proof.
  intros Hdicts. revert i. induction frames as [|f0 frames IH]; intros i; simpl.
  - split; [reflexivity|]. intros j f Hj. rewrite lookup_nil in Hj. discriminate.
  - destruct (IH (S i)) as [Hnone Hlook].
    destruct (Nat.ltb_spec i (length results)) as [Hlt|Hge].
    + destruct (lookup_lt_is_Some_2 results i Hlt) as [r Hr]. rewrite Hr.
      pose proof (proj1 (Forall_lookup _ _) Hdicts i r Hr) as Hdict.
      destruct r; try discriminate.
      destruct (map_results results per_frame (S i) frames) as [rest e].
      simpl in *. split; [exact Hnone|].
      intros [|j] f Hj; simpl in *.
      * injection Hj as ->. rewrite Nat.add_0_r, Hr. reflexivity.
      * rewrite (Hlook j f Hj). rewrite <- plus_n_Sm. reflexivity.
    + destruct (map_results results per_frame (S i) frames) as [rest e].
      simpl in *. split; [exact Hnone|].
      intros [|j] f Hj; simpl in *.
      * injection Hj as ->. rewrite Nat.add_0_r.
        rewrite (proj2 (lookup_ge_None results i)) by lia. reflexivity.
      * rewrite (Hlook j f Hj). rewrite <- plus_n_Sm. reflexivity.
Qed.

(** C4, as stated, fails: a result entry that is not an object stops the
    mapping loop (it has no [get]), the outer handler marks every frame of the
    batch with that exception, and the position beyond the array does not
    carry the missing-result text.  Here the answer holds one entry, a
    string, for a batch of two frames. *)
Lemma missing_result_after_string_entry :
  Json.loads string_result_json = Some (VDict [("frames", VList [VStr "x"])])
  /\ batch_results (fun _ => "[]") (VDict [("frames", VList [VStr "x"])])
     = inr [VStr "x"]
  /\ match analyze_frame_batch env_string svc_openai [frame_at 0; frame_at 1]
                               None false (start env_string tt) with
     | (inr result, _) =>
         errors result
         = [Some (VStr "'str' object has no attribute 'get'");
            Some (VStr "'str' object has no attribute 'get'")]
         /\ errors result !! 1 <> Some (Some (VStr MISSING))
     | _ => False
     end.
Proof.
  split; [vm_compute; reflexivity|].
  split; [vm_compute; reflexivity|].
  vm_compute. split; [reflexivity | discriminate].
Qed.

(** C4, amended.  For every batch whose answer decodes to a results array
    shorter than the batch, every entry of which is a JSON object: the
    interpretation raises nothing and yields one frame per frame of the
    batch; frame [i] is written from result [i] while [i] is below the length
    of the array, and every frame at or beyond that length is written as a
    failure whose error is exactly [Missing result in batch response].  In
    the scenario of two results for three frames, the third frame carries
    that error and the first two their descriptions. *)
Theorem missing_results_filled (jet : string -> string) (rk : list string -> string)
        (content : string) (json : value) (results : list value) (t : Z)
        (frames : list frame) :
  Json.loads (Str.strip content) = Some json ->
  batch_results rk json = inr results ->
  Forall (fun r => is_dict r = true) results ->
  length results < length frames ->
  exists out,
    interpret_batch jet rk (Some content) t frames = inr out
    /\ length out = length frames
    /\ (forall i f, frames !! i = Some f -> i < length results ->
          exists d, results !! i = Some (VDict d)
                    /\ out !! i
                       = Some (frame_update
                                 (analyzed d (t / Z.of_nat (length frames))%Z) f))
    /\ (forall i f, frames !! i = Some f -> length results <= i ->
          out !! i = Some (frame_update (failed "No analysis result" 0 MISSING) f)
          /\ frame_update (failed "No analysis result" 0 MISSING) f !! "error"
             = Some (VStr MISSING))
    /\ match analyze_frame_batch env_two svc_openai
                                 [frame_at 0; frame_at 1; frame_at 2]
                                 None false (start env_two tt) with
       | (inr result, _) =>
           errors result = [None; None; Some (VStr MISSING)]
           /\ descriptions result
              = [Some (VStr "a"); Some (VStr "b"); Some (VStr "No analysis result")]
       | _ => False
       end.
Proof.
  intros Hjson Hresults Hdicts Hshort.
  unfold interpret_batch. rewrite Hjson, Hresults.
  set (per_frame := (t / Z.of_nat (length frames))%Z).
  destruct (map_results_dicts results per_frame 0 frames Hdicts) as [Hnone Hlook].
  pose proof (FrameFacts.map_results_same results per_frame 0 frames) as Hsame.
  destruct (map_results results per_frame 0 frames) as [out e].
  simpl in *. subst e. exists out. split; [reflexivity|].
  split; [symmetry; eapply Forall2_length, Hsame|]. split; [|split].
  - intros i f Hf Hi. rewrite (Hlook i f Hf).
    destruct (lookup_lt_is_Some_2 results i Hi) as [r Hr]. rewrite Hr.
    pose proof (proj1 (Forall_lookup _ _) Hdicts i r Hr) as Hdict.
    destruct r; try discriminate. eexists. split; reflexivity.
  - intros i f Hf Hi. rewrite (Hlook i f Hf).
    rewrite (proj2 (lookup_ge_None results i)) by lia.
    split; [reflexivity | apply FrameFacts.failed_error].
  - vm_compute. split; reflexivity.
Qed.

Lemma missing_results_filled_witness :
  Json.loads (Str.strip two_results_json)
  = Some (VDict [("frames", VList [VDict [("description", VStr "a")];
                                   VDict [("description", VStr "b")]])])
  /\ exists out,
      interpret_batch (fun _ => "") (fun _ => "") (Some two_results_json) 30
                      [frame_at 0; frame_at 1; frame_at 2] = inr out
      /\ length out = 3.
Proof.
  split; [vm_compute; reflexivity|].
  destruct (missing_results_filled (fun _ => "") (fun _ => "") two_results_json
              (VDict [("frames", VList [VDict [("description", VStr "a")];
                                        VDict [("description", VStr "b")]])])
              [VDict [("description", VStr "a")]; VDict [("description", VStr "b")]]
              30 [frame_at 0; frame_at 1; frame_at 2])
    as (out & Hout & Hlen & _).
  - vm_compute. reflexivity.
  - vm_compute. reflexivity.
  - repeat constructor.
  - simpl. lia.
  - exists out. split; assumption.
Defined.

(** ** The claims about the planner and executor *)

(** C1. The code does not do what the claim says.  A payload rejection is
    raised inside the [try] of [analyze_frame_batch], whose own handler turns
    it into an error on every frame of the batch and returns normally; the
    task never sees an exception that looks like a rejected payload, so its
    per-frame fallback is never entered (second part, for every world).
    With an endpoint that refuses two images and analyzes one, a batch of two
    frames comes back with the payload error on both frames after a single
    request of two images; no single-frame request is made, although each
    frame alone is analyzed without error (third part).  In the scenario of
    25 frames in batches of 10 whose second batch is refused, the result has
    the 25 frames in timestamp order, frames 10 to 19 carry the message of the
    refusal, and three requests were sent, of 10, 5 and 10 images in the
    order the tasks ran (fourth part). *)
Theorem payload_rejection_not_split :
  match batch_analyze_frames env_413 svc_custom cfg_custom [frame_at 0; frame_at 1]
                             5 10 None false [] (start env_413 tt) with
  | (Returned result, _, s') =>
      errors result = [Some (VStr TOO_LARGE); Some (VStr TOO_LARGE)]
      /\ images_sent s' = [2]
  | _ => False
  end
  /\ (forall (E : Env) svc user_id db batch (s : St E),
        analyze_batch_with_semaphore E svc user_id db batch s
        = match analyze_frame_batch E svc batch user_id db s with
          | (inr result, s') => (inr result, s')
          | (inl e, s') =>
              (inr (map (frame_update
                           (failed ("Error analyzing batch: " +:+ str_exn e) 0
                                   (str_exn e))) batch), s')
          end)
  /\ match analyze_frame_batch env_413 svc_custom [frame_at 0] None false
                               (start env_413 tt) with
     | (inr result, s') =>
         errors result = [None] /\ descriptions result = [Some (VStr "a")]
         /\ images_sent s' = [1]
     | _ => False
     end
  /\ match batch_analyze_frames env_second_refused svc_openai cfg_openai
                                (map (fun i => frame_at (Z.of_nat i)) (seq 0 25))
                                5 10 None false [1; 1] (start env_second_refused tt) with
     | (Returned result, _, s') =>
         timestamps result = map (fun i => Some (VInt (Z.of_nat i))) (seq 0 25)
         /\ errors (take 10 (drop 10 result)) = replicate 10 (Some (VStr REFUSED))
         /\ images_sent s' = [10; 5; 10]
     | _ => False
     end.
Proof.
  split; [vm_compute; split; reflexivity|].
  split; [intros; apply fallback_unreachable|].
  split; vm_compute; repeat split; reflexivity.
Qed.

(** C9. The code does not do what the claim says for a batch in which no
    frame has an image path: [analyze_frame_batch] logs a warning and returns
    the frames as they came, so the result of [batch_analyze_frames] holds
    frames with no [error] and no [description] at all, no request was sent,
    and the tally of the final log line counts both frames as successful. *)
Theorem pathless_frames_come_back_unmarked :
  match batch_analyze_frames env_two svc_openai cfg_openai
                             [pathless_frame_at 0; pathless_frame_at 1]
                             5 10 None false [] (start env_two tt) with
  | (Returned result, _, s') =>
      result = [pathless_frame_at 0; pathless_frame_at 1]
      /\ errors result = [None; None]
      /\ descriptions result = [None; None]
      /\ images_sent s' = []
      /\ successful result = 2
  | _ => False
  end.
Proof. vm_compute. repeat split; reflexivity. Qed.

(** A failure whose exception has an empty message leaves an empty error
    text on the frames. *)
Example silent_failure_empty_error :
  match batch_analyze_frames env_silent svc_openai cfg_openai [frame_at 0; frame_at 1]
                             5 10 None false [] (start env_silent tt) with
  | (Returned result, _, _) =>
      errors result = [Some (VStr ""); Some (VStr "")]
      /\ descriptions result
         = [Some (VStr "Error in batch analysis: "); Some (VStr "Error in batch analysis: ")]
  | _ => False
  end.
Proof. vm_compute. split; reflexivity. Qed.



(** C5, as stated, fails: when no backend is configured the frames are
    marked and returned in the order given, without the sort.  Two frames
    given with timestamps 2 and 1 come back in that order. *)
Lemma unsorted_without_backend :
  match batch_analyze_frames env_two svc_none cfg_none [frame_at 2; frame_at 1]
                             5 10 None false [] (start env_two tt) with
  | (Returned result, _, _) =>
      timestamps result = [Some (VInt 2); Some (VInt 1)]
      /\ errors result = [Some (VStr NO_KEY); Some (VStr NO_KEY)]
      /\ ~ sorted_by_timestamp result
  | _ => False
  end.
Proof.
  destruct (no_client_path env_two svc_none cfg_none [frame_at 2; frame_at 1]
              5 10 None false [] (start env_two tt)) as (s' & Hrun & _);
    [reflexivity | reflexivity |].
  rewrite Hrun. split; [vm_compute; reflexivity|]. split; [vm_compute; reflexivity|].
  cbn [map]. intros Hsorted. inversion Hsorted as [|a l _ Hall]; subst.
  inversion Hall as [|b l' (qa & qb & Ha & Hb & Hle) _]; subst.
  vm_compute in Ha, Hb. injection Ha as <-. injection Hb as <-.
  vm_compute in Hle. apply Hle. reflexivity.
Qed.

(** C5, amended.  Whenever a backend is available (the custom endpoint, or
    an OpenAI client for this user) or the input frames are already in
    ascending timestamp order, with a batch size and a worker count of at
    least one and numeric timestamps: for every order in which the batch
    tasks run, the list returned is in ascending timestamp order, and it is
    the same arrangement of the input frames, the stable sort of the input,
    each frame with its analysis entries written. *)
Theorem merged_result_sorted (E : Env) svc cfg (frames : list frame)
        (max_workers batch_size : Z) user_id db (s : St E) :
  (1 <= batch_size)%Z ->
  (1 <= max_workers)%Z ->
  Forall numeric_timestamp frames ->
  use_custom_gpt (refreshed svc cfg) = true
  \/ fst (client_available E (refreshed svc cfg) user_id db s) = true
  \/ sorted_by_timestamp frames ->
  exists sorted_input,
    py_sort frames = inr sorted_input
    /\ sorted_input ≡ₚ frames
    /\ forall schedule, exists result s',
         batch_analyze_frames E svc cfg frames max_workers batch_size user_id db
                              schedule s
         = (Returned result, refreshed svc cfg, s')
         /\ sorted_by_timestamp result
         /\ Forall2 same_frame sorted_input result.
Proof.
  intros Hbs Hmw Hnum Hcases.
  destruct (SortFacts.py_sort_spec frames Hnum) as (sorted_input & Hs & Hperm & _).
  exists sorted_input. split; [exact Hs|]. split; [exact Hperm|].
  intros schedule.
  assert (Hbackend :
            (use_custom_gpt (refreshed svc cfg) = true
             \/ fst (client_available E (refreshed svc cfg) user_id db s) = true)
            \/ (use_custom_gpt (refreshed svc cfg) = false
                /\ fst (client_available E (refreshed svc cfg) user_id db s) = false
                /\ sorted_by_timestamp frames)).
  { destruct (use_custom_gpt (refreshed svc cfg)); [auto|].
    destruct (fst (client_available E (refreshed svc cfg) user_id db s)); [auto|].
    right. destruct Hcases as [?|[?|?]]; try discriminate. auto. }
  destruct Hbackend as [Hbackend|(Hcustom & Hclient & Hsorted)].
  - destruct frames as [|f frames'] eqn:Hframes.
    + destruct (empty_path E svc cfg max_workers batch_size user_id db schedule s)
        as (s' & Hrun & _).
      exists [], s'. split; [exact Hrun|]. split; [constructor|].
      simpl in Hs. injection Hs as <-. constructor.
    + rewrite <- Hframes in *.
      destruct (merge_path E svc cfg frames max_workers batch_size user_id db
                  schedule s)
        as (result & s' & sorted' & new & Hrun & Hin & Hsame & Hord & _); auto.
      { rewrite Hframes. discriminate. }
      exists result, s'. split; [exact Hrun|]. split; [exact Hord|].
      assert (sorted' = sorted_input) by congruence. subst sorted'. exact Hsame.
  - destruct (no_client_path E svc cfg frames max_workers batch_size user_id db
                schedule s Hcustom Hclient) as (s' & Hrun & _).
    rewrite (SortFacts.py_sort_sorted frames Hnum Hsorted) in Hs.
    injection Hs as <-.
    assert (Hsame : Forall2 same_frame frames
                            (map (frame_update (failed NO_KEY 0 NO_KEY)) frames))
      by apply FrameFacts.same_frames_failed, FrameFacts.same_frames_refl.
    eexists _, s'. split; [exact Hrun|]. split; [|exact Hsame].
    eapply SortFacts.sorted_same; eassumption.
Qed.

Lemma merged_result_sorted_witness :
  Forall numeric_timestamp [frame_at 3; frame_at 1; frame_at 2]
  /\ exists result s',
      batch_analyze_frames env_two svc_openai cfg_openai
                           [frame_at 3; frame_at 1; frame_at 2] 5 1 None false [2; 1]
                           (start env_two tt)
      = (Returned result, refreshed svc_openai cfg_openai, s')
      /\ sorted_by_timestamp result.
Proof.
  assert (Hnum : Forall numeric_timestamp [frame_at 3; frame_at 1; frame_at 2])
    by (repeat constructor; vm_compute; eauto).
  split; [exact Hnum|].
  destruct (merged_result_sorted env_two svc_openai cfg_openai
              [frame_at 3; frame_at 1; frame_at 2] 5 1 None false (start env_two tt))
    as (sorted_input & _ & _ & Hall).
  - lia.
  - lia.
  - exact Hnum.
  - right. left. vm_compute. reflexivity.
  - destruct (Hall [2; 1]) as (result & s' & Hrun & Hsorted & _).
    exists result, s'. split; assumption.
Defined.

(** C6. The batch size in effect is [min(batch_size, 2)] when the custom
    endpoint is the active backend (after the runtime check of the settings)
    and the requested batch size otherwise; the frames are cut with it, so
    that in every run with a backend each request carries between one frame
    and that many.  With the custom endpoint five frames at the default size
    go out as 2, 2 and 1; with the OpenAI client twenty-five frames go out as
    10, 10 and 5. *)
Theorem custom_backend_batch_clamped (E : Env) svc cfg (frames : list frame)
        (max_workers batch_size : Z) user_id db schedule (s : St E) :
  frames <> [] ->
  (1 <= batch_size)%Z ->
  (1 <= max_workers)%Z ->
  Forall numeric_timestamp frames ->
  use_custom_gpt (refreshed svc cfg) = true
  \/ fst (client_available E (refreshed svc cfg) user_id db s) = true ->
  effective_batch_size true batch_size = Z.min batch_size 2
  /\ (effective_batch_size true batch_size <= 2)%Z
  /\ effective_batch_size false batch_size = batch_size
  /\ (exists result s' new,
        batch_analyze_frames E svc cfg frames max_workers batch_size user_id db
                             schedule s
        = (Returned result, refreshed svc cfg, s')
        /\ calls s' = calls s ++ new
        /\ Forall (fun c =>
                     (1 <= Z.of_nat (req_frame_count (snd c))
                      <= if use_custom_gpt (refreshed svc cfg)
                         then Z.min batch_size 2 else batch_size)%Z) new)
  /\ match batch_analyze_frames env_two svc_custom cfg_custom
                                (map (fun i => frame_at (Z.of_nat i)) (seq 0 5))
                                5 10 None false [] (start env_two tt) with
     | (Returned _, _, s') => images_sent s' = [2; 2; 1]
     | _ => False
     end
  /\ match batch_analyze_frames env_two svc_openai cfg_openai
                                (map (fun i => frame_at (Z.of_nat i)) (seq 0 25))
                                5 10 None false [] (start env_two tt) with
     | (Returned result, _, s') => images_sent s' = [10; 10; 5] /\ length result = 25
     | _ => False
     end.
Proof.
  intros Hne Hbs Hmw Hnum Hbackend.
  split; [reflexivity|]. split; [unfold effective_batch_size; lia|].
  split; [reflexivity|]. split; [|split].
  - destruct (merge_path E svc cfg frames max_workers batch_size user_id db schedule s
                Hne Hbs Hmw Hnum Hbackend)
      as (result & s' & _ & new & Hrun & _ & _ & _ & Hcalls & Hnew).
    exists result, s', new. split; [exact Hrun|]. split; [exact Hcalls|].
    exact Hnew.
  - vm_compute. reflexivity.
  - vm_compute. split; reflexivity.
Qed.

Lemma custom_backend_batch_clamped_witness :
  use_custom_gpt (refreshed svc_custom cfg_custom) = true
  /\ exists result s' new,
      batch_analyze_frames env_two svc_custom cfg_custom
                           [frame_at 0; frame_at 1; frame_at 2] 5 10 None false []
                           (start env_two tt)
      = (Returned result, refreshed svc_custom cfg_custom, s')
      /\ calls s' = calls (start env_two tt) ++ new
      /\ Forall (fun c => (1 <= Z.of_nat (req_frame_count (snd c)) <= 2)%Z) new.
Proof.
  split; [reflexivity|].
  destruct (custom_backend_batch_clamped env_two svc_custom cfg_custom
              [frame_at 0; frame_at 1; frame_at 2] 5 10 None false []
              (start env_two tt))
    as (_ & _ & _ & (result & s' & new & Hrun & Hcalls & Hnew) & _).
  - discriminate.
  - lia.
  - lia.
  - repeat constructor; vm_compute; eauto.
  - left. reflexivity.
  - exists result, s', new. split; [exact Hrun|]. split; [exact Hcalls|]. exact Hnew.
Defined.

(** C10, as stated, fails for [analyze_frame_batch]: the check for a client
    comes before the check for an empty batch, so with no backend configured
    an empty batch raises instead of returning the empty list. *)
Lemma empty_batch_without_backend_raises :
  analyze_frame_batch env_two svc_none [] None false (start env_two tt)
  = (inl (Exn ValueError NO_KEY), start env_two tt).
Proof. reflexivity. Qed.

(** C10, amended.  For an empty frame list [batch_analyze_frames] returns
    the empty list and sends no request, for every configuration of the
    backend (none included), user, batch size, worker count and schedule.
    [analyze_frame_batch] returns the empty list and sends no request when
    the custom endpoint is active or a client is available, and raises the
    missing-key error, also without sending anything, otherwise. *)
Theorem empty_input_returns_empty (E : Env) svc cfg (max_workers batch_size : Z)
        user_id db schedule (s : St E) :
  (exists s',
     batch_analyze_frames E svc cfg [] max_workers batch_size user_id db schedule s
     = (Returned [], refreshed svc cfg, s')
     /\ calls s' = calls s)
  /\ (exists s',
        analyze_frame_batch E svc [] user_id db s
        = (if use_custom_gpt svc || fst (client_available E svc user_id db s)
           then inr [] else inl (Exn ValueError NO_KEY), s')
        /\ calls s' = calls s).
Proof.
  split; [apply empty_path|].
  destruct (empty_batch E svc user_id db s) as (s' & Hcalls & Hrun).
  exists s'. split; assumption.
Qed.


(** * Further properties of the service *)

(** ** The fence stripper on arbitrary text *)

Module StripFacts.
Import Str StrFacts FenceFacts.

Lemma rstrip_by_cons P c s :
  rstrip_by P (String c s)
  = match rstrip_by P s with
    | EmptyString => if P c then EmptyString else String c EmptyString
    | r => String c r
    end.
Proof. reflexivity. Qed.

Lemma rstrip_by_idemp P s : rstrip_by P (rstrip_by P s) = rstrip_by P s.
Proof.
  induction s as [|c s IH]; [reflexivity|].
  rewrite rstrip_by_cons. destruct (rstrip_by P s) as [|d r] eqn:E.
  - destruct (P c) eqn:Hc; [reflexivity|].
    rewrite rstrip_by_cons. simpl. rewrite Hc. reflexivity.
  - rewrite rstrip_by_cons, IH. reflexivity.
Qed.

Lemma rstrip_by_fixed_tail P c s :
  rstrip_by P (String c s) = String c s -> rstrip_by P s = s.
Proof.
  rewrite rstrip_by_cons. destruct (rstrip_by P s) as [|d r].
  - destruct (P c); [discriminate|]. intros H. injection H as <-. reflexivity.
  - intros H. injection H as <-. reflexivity.
Qed.

Lemma rstrip_by_lstrip_by P Q s :
  rstrip_by P s = s -> rstrip_by P (lstrip_by Q s) = lstrip_by Q s.
Proof.
  induction s as [|c s IH]; intros H; [reflexivity|].
  cbn [lstrip_by]. destruct (Q c); [|exact H].
  apply IH. eapply rstrip_by_fixed_tail, H.
Qed.

Lemma strip_idemp s : strip (strip s) = strip s.
Proof.
  unfold strip, rstrip_ws, lstrip_ws.
  rewrite rstrip_by_lstrip_by by apply rstrip_by_idemp.
  apply lstrip_by_idemp.
Qed.

Lemma rstrip_by_split P s : exists suf, s = rstrip_by P s +:+ suf.
Proof.
  induction s as [|c s [suf IH]].
  - exists "". reflexivity.
  - rewrite rstrip_by_cons. destruct (rstrip_by P s) as [|d r] eqn:E.
    + destruct (P c).
      * exists (String c s). reflexivity.
      * exists suf. rewrite app_cons. f_equal. exact IH.
    + exists suf. rewrite app_cons. f_equal. exact IH.
Qed.

Lemma startswith_app_r p a b : startswith p a = true -> startswith p (a +:+ b) = true.
Proof.
  revert a. induction p as [|c p IH]; intros a H; [reflexivity|].
  destruct a as [|d a]; [discriminate|]. rewrite app_cons. simpl in *.
  apply andb_true_iff in H as [-> H]. simpl. apply IH, H.
Qed.

Lemma find_None_app_l sub a b : find sub (a +:+ b) = None -> find sub a = None.
Proof.
  induction a as [|c a IH]; intros H.
  - rewrite app_nil_l in H. apply find_None_startswith in H.
    destruct sub as [|x sub]; [destruct b; discriminate | reflexivity].
  - rewrite app_cons in H. rewrite find_cons.
    pose proof (find_None_startswith _ _ H) as Hs.
    destruct (startswith sub (String c a)) eqn:Hp.
    + apply (startswith_app_r _ _ b) in Hp. rewrite app_cons in Hp. congruence.
    + rewrite IH; [reflexivity|]. eapply find_None_tail, H.
Qed.

Lemma find_None_rstrip sub P s : find sub s = None -> find sub (rstrip_by P s) = None.
Proof.
  intros H. destruct (rstrip_by_split P s) as [suf E].
  rewrite E in H. eapply find_None_app_l, H.
Qed.

Lemma find_None_strip sub s : find sub s = None -> find sub (strip s) = None.
Proof. intros H. apply find_None_lstrip, find_None_rstrip, H. Qed.

Lemma find_None_longer p q s : find p s = None -> find (p +:+ q) s = None.
Proof.
  induction s as [|c s IH]; intros H.
  - apply find_None_startswith in H.
    destruct p as [|x p]; [discriminate | reflexivity].
  - rewrite find_cons.
    destruct (startswith (p +:+ q) (String c s)) eqn:Hp.
    + apply startswith_app_l in Hp. rewrite (find_None_startswith _ _ H) in Hp.
      discriminate.
    + rewrite IH; [reflexivity|]. eapply find_None_tail, H.
Qed.

Lemma find_app_some sub a b : find sub (a +:+ sub +:+ b) <> None.
Proof.
  induction a as [|c a IH].
  - rewrite app_nil_l. destruct (sub +:+ b) eqn:E.
    + simpl. rewrite <- E, startswith_app. discriminate.
    + rewrite find_cons, <- E, startswith_app. discriminate.
  - rewrite app_cons, find_cons.
    destruct (startswith sub _); [discriminate|].
    destruct (find sub (a +:+ sub +:+ b)); [discriminate | contradiction].
Qed.

Lemma endswith_find sub s : endswith sub s = true -> find sub s <> None.
Proof.
  unfold endswith. intros H. apply andb_true_iff in H as [_ H].
  apply String.eqb_eq in H.
  set (n := String.length s - String.length sub) in *.
  pose proof (take_drop n s) as E. rewrite H in E.
  intros Hn. apply (find_app_some sub (take n s) "").
  rewrite app_nil_r, E. exact Hn.
Qed.

(** Where no fence starts, none starts after the deletions either. *)
Lemma delete_fences_head1 fuel s :
  startswith "`" s = false -> startswith "`" (delete_fences fuel FENCE s) = false.
Proof.
  destruct fuel as [|fuel]; intros H; [exact H|].
  rewrite delete_fences_S.
  destruct (startswith FENCE s) eqn:Hf.
  { apply (startswith_app_l "`" "``") in Hf. congruence. }
  simpl andb. cbv iota. destruct s as [|c s]; [reflexivity|].
  simpl in *. rewrite andb_true_r in *. exact H.
Qed.

Lemma delete_fences_head2 fuel s :
  startswith "``" s = false -> startswith "``" (delete_fences fuel FENCE s) = false.
Proof.
  destruct fuel as [|fuel]; intros H; [exact H|].
  rewrite delete_fences_S.
  destruct (startswith FENCE s) eqn:Hf.
  { apply (startswith_app_l "``" "`") in Hf. congruence. }
  simpl andb. cbv iota. destruct s as [|c s]; [reflexivity|].
  change (startswith "``" (String c s)) with (Ascii.eqb "`" c && startswith "`" s) in H.
  change (startswith "``" (String c (delete_fences fuel FENCE s)))
    with (Ascii.eqb "`" c && startswith "`" (delete_fences fuel FENCE s)).
  destruct (Ascii.eqb "`" c); [|reflexivity]. simpl in *.
  apply delete_fences_head1, H.
Qed.

Lemma delete_fences_complete fuel s :
  String.length s < fuel -> find FENCE (delete_fences fuel FENCE s) = None.
Proof.
  revert s. induction fuel as [|fuel IH]; intros s Hlen; [lia|].
  rewrite delete_fences_S.
  destruct (startswith FENCE s) eqn:Hf; simpl andb; cbv iota.
  - apply IH.
    destruct (lstrip_by_split is_space (drop (String.length FENCE) s)) as [pre Hpre].
    fold lstrip_ws in Hpre.
    apply startswith_split in Hf.
    assert (L : String.length s
                = 3 + (String.length pre
                       + String.length (lstrip_ws (drop (String.length FENCE) s)))).
    { rewrite Hf at 1. rewrite length_app. rewrite Hpre at 1.
      rewrite length_app. reflexivity. }
    lia.
  - destruct s as [|c s]; [reflexivity|].
    simpl in Hlen.
    rewrite find_cons.
    assert (Hs : startswith FENCE (String c (delete_fences fuel FENCE s)) = false).
    { change (startswith FENCE (String c s))
        with (Ascii.eqb "`" c && startswith "``" s) in Hf.
      change (startswith FENCE (String c (delete_fences fuel FENCE s)))
        with (Ascii.eqb "`" c && startswith "``" (delete_fences fuel FENCE s)).
      destruct (Ascii.eqb "`" c); [|reflexivity]. simpl in *.
      apply delete_fences_head2, Hf. }
    rewrite Hs, IH by lia. reflexivity.
Qed.

Lemma re_sub_fence_complete s : find FENCE (re_sub_fence FENCE s) = None.
Proof. apply delete_fences_complete. lia. Qed.

(** The two checks that follow the substitutions find nothing to do. *)
Lemma strip_markdown_eq text :
  _strip_markdown_code_blocks text
  = strip (re_sub_fence FENCE (re_sub_fence FENCE_JSON text)).
Proof.
  unfold _strip_markdown_code_blocks.
  set (t := strip (re_sub_fence FENCE (re_sub_fence FENCE_JSON text))).
  assert (Hnone : find FENCE t = None)
    by apply find_None_strip, re_sub_fence_complete.
  cbv zeta. rewrite (find_None_startswith _ _ Hnone).
  destruct (endswith FENCE t) eqn:He.
  - apply endswith_find in He. contradiction.
  - apply strip_idemp.
Qed.

Lemma strip_markdown_plain text :
  find FENCE text = None -> _strip_markdown_code_blocks text = strip text.
Proof.
  intros H. rewrite strip_markdown_eq. unfold re_sub_fence.
  rewrite (delete_fences_none _ FENCE_JSON text)
    by apply (find_None_longer FENCE "json"), H.
  rewrite delete_fences_none by exact H. reflexivity.
Qed.

End StripFacts.

(** X1. Whatever the text, the result of [_strip_markdown_code_blocks] holds
    no triple backtick: the second substitution removes every fence, and
    neither the deletions nor the stripping bring backticks together into a
    new one.  The two tests that follow the substitutions (does the text
    still start, or end, with a fence) therefore never succeed, and the
    result is the stripped text of the two substitutions. *)
Theorem strip_markdown_leaves_no_fence (text : string) :
  Str.find FENCE (_strip_markdown_code_blocks text) = None
  /\ _strip_markdown_code_blocks text
     = Str.strip (Str.re_sub_fence FENCE (Str.re_sub_fence FENCE_JSON text)).
Proof.
  split; [|apply StripFacts.strip_markdown_eq].
  rewrite StripFacts.strip_markdown_eq.
  apply StripFacts.find_None_strip, StripFacts.re_sub_fence_complete.
Qed.

(** X2. A text that holds no triple backtick is only stripped of the
    whitespace around it: nothing inside it is changed. *)
Theorem strip_markdown_plain_text (text : string) :
  Str.find FENCE text = None ->
  _strip_markdown_code_blocks text = Str.strip text.
Proof.
  intros Hplain. rewrite StripFacts.strip_markdown_eq. unfold Str.re_sub_fence.
  assert (Hjson : Str.find FENCE_JSON text = None)
    by apply (StripFacts.find_None_longer FENCE "json"), Hplain.
  rewrite (FenceFacts.delete_fences_none _ FENCE_JSON text Hjson).
  rewrite (FenceFacts.delete_fences_none _ FENCE text Hplain).
  reflexivity.
Qed.

Lemma strip_markdown_plain_text_witness :
  Str.find FENCE (" a `` b" +:+ LF) = None
  /\ _strip_markdown_code_blocks (" a `` b" +:+ LF) = "a `` b".
Proof.
  split; [reflexivity|].
  rewrite (strip_markdown_plain_text (" a `` b" +:+ LF)); reflexivity.
Defined.

(** X3. [_strip_markdown_code_blocks] is idempotent: applied to its own
    result it changes nothing. *)
Theorem strip_markdown_idempotent (text : string) :
  _strip_markdown_code_blocks (_strip_markdown_code_blocks text)
  = _strip_markdown_code_blocks text.
Proof.
  rewrite (StripFacts.strip_markdown_plain (_strip_markdown_code_blocks text)).
  - rewrite StripFacts.strip_markdown_eq. apply StripFacts.strip_idemp.
  - rewrite StripFacts.strip_markdown_eq.
    apply StripFacts.find_None_strip, StripFacts.re_sub_fence_complete.
Qed.

(** ** The JSON repair on arbitrary text *)

Module RepairFacts.
Import Str StrFacts FenceFacts StripFacts.

Lemma endswith_split sub s :
  endswith sub s = true -> exists pre, s = pre +:+ sub.
Proof.
  unfold endswith. intros H. apply andb_true_iff in H as [_ H].
  apply String.eqb_eq in H.
  exists (take (String.length s - String.length sub) s).
  pose proof (take_drop (String.length s - String.length sub) s) as E.
  rewrite H in E. symmetry. exact E.
Qed.

(** The last two checks of [_repair_json] leave a text in braces. *)
Lemma braces_closed t :
  exists body,
    (let t1 := if negb (startswith "{" t) then "{" +:+ t else t in
     if negb (endswith "}" t1) then t1 +:+ "}" else t1)
    = "{" +:+ body +:+ "}".
Proof.
  cbv zeta.
  assert (H1 : exists u, (if negb (startswith "{" t) then "{" +:+ t else t)
                         = "{" +:+ u).
  { destruct (startswith "{" t) eqn:E; simpl negb; cbv iota.
    - apply startswith_split in E. simpl String.length in E.
      exists (drop 1 t). exact E.
    - exists t. reflexivity. }
  destruct H1 as [u ->].
  destruct (endswith "}" ("{" +:+ u)) eqn:E; simpl negb; cbv iota.
  - apply endswith_split in E as [pre E].
    destruct pre as [|c pre].
    + rewrite app_nil_l in E. discriminate.
    + rewrite !app_cons, app_nil_l in E. injection E as <- ->.
      exists pre. reflexivity.
  - exists u. rewrite app_assoc. reflexivity.
Qed.

Lemma repair_json_braces s : exists body, _repair_json s = "{" +:+ body +:+ "}".
Proof.
  unfold _repair_json.
  destruct (is_empty (strip s)); [exists ""; reflexivity|].
  cbv zeta.
  match goal with
  | |- context [rstrip BLANKS ?x] => generalize (rstrip BLANKS x)
  end.
  intros t. destruct (braces_closed t) as [body E]. cbv zeta in E.
  exists body. rewrite E. apply strip_J.
Qed.

Lemma rstrip_by_app_keep P a c b :
  P c = false ->
  rstrip_by P ((a +:+ String c "") +:+ b) = (a +:+ String c "") +:+ rstrip_by P b.
Proof.
  intros H. induction a as [|d a IH].
  - rewrite !app_nil_l, !app_cons, !app_nil_l. rewrite rstrip_by_cons.
    destruct (rstrip_by P b); [rewrite H|]; reflexivity.
  - rewrite !app_cons, rstrip_by_cons. rewrite <- app_cons, IH.
    destruct a; reflexivity.
Qed.

Lemma find_None_rfind sub s : find sub s = None -> rfind sub s = None.
Proof.
  induction s as [|c s IH]; intros H.
  - simpl in *. destruct (startswith sub ""); [discriminate | reflexivity].
  - pose proof (find_None_startswith _ _ H) as Hs.
    simpl. rewrite (IH (find_None_tail _ _ _ H)).
    simpl in Hs. rewrite Hs. reflexivity.
Qed.

Lemma rfind_cons sub c s :
  rfind sub (String c s)
  = match rfind sub s with
    | Some i => Some (S i)
    | None => if startswith sub (String c s) then Some 0 else None
    end.
Proof. reflexivity. Qed.

Lemma rfind_app_none c a b :
  find (String c "") b = None ->
  rfind (String c "") ((a +:+ String c "") +:+ b) = Some (String.length a).
Proof.
  intros H. apply find_None_rfind in H.
  induction a as [|d a IH].
  - rewrite !app_nil_l, !app_cons, !app_nil_l. rewrite rfind_cons, H.
    simpl. rewrite Ascii.eqb_refl. reflexivity.
  - rewrite !app_cons, rfind_cons, IH. reflexivity.
Qed.

Section Embedded.
Variable prose body tail : string.
Let J : string := "{" +:+ body +:+ "}".
Hypothesis no_open : find "{" prose = None.
Hypothesis no_close : find "}" tail = None.

Let q := lstrip BLANKS (lstrip_ws prose).
Let r := rstrip_ws tail.

Lemma q_none : find "{" q = None.
Proof. apply find_None_lstrip, find_None_lstrip, no_open. Qed.

Lemma r_none : find "}" r = None.
Proof. apply find_None_rstrip, no_close. Qed.

Lemma strip_embedded : strip (prose +:+ J +:+ tail) = lstrip_ws prose +:+ J +:+ r.
Proof.
  unfold strip, rstrip_ws.
  replace (prose +:+ J +:+ tail) with (((prose +:+ "{" +:+ body) +:+ "}") +:+ tail)
    by (unfold J; rewrite !app_assoc; reflexivity).
  rewrite rstrip_by_app_keep by reflexivity.
  replace (((prose +:+ "{" +:+ body) +:+ "}") +:+ rstrip_by is_space tail)
    with (prose +:+ String "{" (body +:+ "}" +:+ rstrip_by is_space tail))
    by (rewrite !app_assoc; reflexivity).
  unfold lstrip_ws. rewrite lstrip_by_app_keep by reflexivity.
  unfold J, r, rstrip_ws. rewrite !app_assoc. reflexivity.
Qed.

Lemma find_open : find "{" (q +:+ J +:+ r) = Some (String.length q).
Proof.
  change (J +:+ r) with (String "{" ((body +:+ "}") +:+ r)).
  apply find_after_prefix, q_none.
Qed.

(** After the opening brace is found: the object and what follows. *)
Lemma open_found :
  (if negb (startswith "{" (q +:+ J +:+ r)) then J +:+ r else q +:+ J +:+ r)
  = J +:+ r.
Proof.
  destruct (startswith "{" (q +:+ J +:+ r)) eqn:E; simpl negb; cbv iota;
    [|reflexivity].
  destruct q as [|c q'] eqn:Hq; [reflexivity|].
  exfalso. pose proof q_none as Hn. rewrite Hq in Hn.
  apply find_char_head in Hn.
  rewrite app_cons, (startswith_other_head _ _ _ _ Hn) in E. discriminate.
Qed.

Lemma rfind_close : rfind "}" (J +:+ r) = Some (S (String.length body)).
Proof.
  replace (J +:+ r) with ((("{" +:+ body) +:+ "}") +:+ r)
    by (unfold J; rewrite !app_assoc; reflexivity).
  rewrite rfind_app_none by apply r_none. reflexivity.
Qed.

Lemma close_found :
  (if negb (endswith "}" (J +:+ r)) then J else J +:+ r) = J.
Proof.
  destruct (endswith "}" (J +:+ r)) eqn:E; simpl negb; cbv iota; [|reflexivity].
  apply endswith_split in E as [pre E].
  assert (R' : rfind "}" (J +:+ r) = Some (String.length pre))
    by (rewrite E; apply rfind_snoc).
  assert (Hlen : String.length (J +:+ r) = String.length pre + 1)
    by (rewrite E, length_app; reflexivity).
  rewrite length_app in Hlen. unfold J in Hlen at 1. rewrite (length_J body) in Hlen.
  assert (String.length r = 0)
    by (rewrite rfind_close in R'; injection R' as R'; lia).
  destruct r; [apply app_nil_r | discriminate].
Qed.

Lemma repair_json_embedded : _repair_json (prose +:+ J +:+ tail) = J.
Proof.
  unfold _repair_json. rewrite strip_embedded.
  replace (is_empty (lstrip_ws prose +:+ J +:+ r)) with false
    by (destruct (lstrip_ws prose); reflexivity).
  cbv zeta.
  assert (L : lstrip BLANKS (lstrip_ws prose +:+ J +:+ r) = q +:+ J +:+ r).
  { unfold lstrip. change (J +:+ r) with (String "{" ((body +:+ "}") +:+ r)).
    apply lstrip_by_app_keep. reflexivity. }
  rewrite L, find_open, drop_app_length, open_found, rfind_close.
  replace (take (S (String.length body) + 1) (J +:+ r)) with J.
  2:{ replace (S (String.length body) + 1) with (String.length J)
        by (unfold J; rewrite (length_J body); lia).
      symmetry. apply take_app_length. }
  rewrite close_found.
  assert (R : rstrip BLANKS J = J).
  { unfold rstrip, J. rewrite (J_snoc body). apply rstrip_by_snoc_keep. reflexivity. }
  assert (S1 : startswith "{" J = true) by reflexivity.
  assert (E1 : endswith "}" J = true)
    by (unfold J; rewrite (J_snoc body); apply endswith_snoc).
  rewrite R, S1. cbn [negb]. rewrite E1. cbn [negb]. apply strip_J.
Qed.

End Embedded.

End RepairFacts.

(** X4. Whatever the text, the result of [_repair_json] starts with an
    opening brace and ends with a closing brace (for an empty or blank text
    it is the empty object), and [_repair_json] is idempotent. *)
Theorem repair_json_in_braces (json_str : string) :
  (exists body, _repair_json json_str = "{" +:+ body +:+ "}")
  /\ _repair_json (_repair_json json_str) = _repair_json json_str.
Proof.
  destruct (RepairFacts.repair_json_braces json_str) as [body E].
  split; [exists body; exact E|].
  rewrite E. apply FenceFacts.repair_json_J.
Qed.

(** X5. An object with text around it: when the text before holds no
    opening brace and the text after holds no closing brace, [_repair_json]
    returns the part from the first opening brace to the last closing brace,
    and drops the rest. *)
Theorem repair_json_drops_surroundings (prose body tail : string) :
  Str.find "{" prose = None ->
  Str.find "}" tail = None ->
  _repair_json (prose +:+ "{" +:+ body +:+ "}" +:+ tail) = "{" +:+ body +:+ "}".
Proof.
  intros Hopen Hclose.
  replace (prose +:+ "{" +:+ body +:+ "}" +:+ tail)
    with (prose +:+ ("{" +:+ body +:+ "}") +:+ tail)
    by (rewrite !StrFacts.app_assoc; reflexivity).
  apply RepairFacts.repair_json_embedded; assumption.
Qed.

Lemma repair_json_drops_surroundings_witness :
  Str.find "{" "Here it is: " = None
  /\ Str.find "}" " Hope this helps." = None
  /\ _repair_json ("Here it is: " +:+ "{" +:+ cat_body +:+ "}" +:+ " Hope this helps.")
     = cat_json.
Proof.
  split; [reflexivity|]. split; [reflexivity|].
  apply (repair_json_drops_surroundings "Here it is: " cat_body " Hope this helps.");
    reflexivity.
Defined.

(** ** Prompt resolver: the rules written and read back *)

Module PromptFacts.
Import Str StrFacts FenceFacts StripFacts.

Lemma startswith_app_long sub a d :
  String.length sub <= String.length a ->
  startswith sub (a +:+ d) = startswith sub a.
Proof.
  revert a. induction sub as [|c sub IH]; intros a H; [reflexivity|].
  destruct a as [|x a]; simpl in H; [lia|].
  rewrite app_cons. simpl. rewrite IH by lia. reflexivity.
Qed.

(** The first occurrence does not depend on what follows it. *)
Lemma find_change_suffix sub pre d d' :
  find sub (pre +:+ sub +:+ d) = Some (String.length pre) ->
  find sub (pre +:+ sub +:+ d') = Some (String.length pre).
Proof.
  induction pre as [|c pre IH]; intros H.
  - rewrite app_nil_l. destruct (sub +:+ d') eqn:E.
    + simpl. rewrite <- E, startswith_app. reflexivity.
    + rewrite find_cons, <- E, startswith_app. reflexivity.
  - rewrite app_cons, find_cons in *.
    assert (Hs : forall x, startswith sub (String c (pre +:+ sub +:+ x))
                           = startswith sub (String c pre +:+ sub)).
    { intros x. rewrite <- app_cons, <- app_assoc. apply startswith_app_long.
      rewrite length_app. lia. }
    rewrite Hs in *.
    destruct (startswith sub (String c pre +:+ sub)); [discriminate|].
    destruct (find sub (pre +:+ sub +:+ d)) as [i|] eqn:F; [|discriminate].
    simpl in H. injection H as ->. rewrite IH; reflexivity.
Qed.

Lemma startswith_length p s : startswith p s = true -> String.length p <= String.length s.
Proof.
  revert s. induction p as [|c p IH]; intros s H; simpl; [lia|].
  destruct s as [|d s]; [discriminate|]. simpl in *.
  apply andb_true_iff in H as [_ H]. apply IH in H. lia.
Qed.

Lemma find_length sub s i :
  find sub s = Some i -> i + String.length sub <= String.length s.
Proof.
  revert i. induction s as [|c s IH]; intros i H.
  - simpl in H. destruct (startswith sub "") eqn:E; [|discriminate].
    injection H as <-. apply startswith_length in E. simpl in *. lia.
  - rewrite find_cons in H. destruct (startswith sub (String c s)) eqn:E.
    + injection H as <-. apply startswith_length in E. lia.
    + destruct (find sub s) as [j|] eqn:F; [|discriminate].
      injection H as <-. specialize (IH j eq_refl). simpl. lia.
Qed.

Lemma length_take n s : n <= String.length s -> String.length (take n s) = n.
Proof.
  revert s. induction n as [|n IH]; intros [|c s] H; simpl in *; try lia.
  rewrite IH by lia. reflexivity.
Qed.

(** A dash line cannot straddle the end of a text that is followed by a
    line feed. *)
Lemma startswith_dash_line_before_lf c s x :
  startswith DASH_LINE (String c s +:+ LF +:+ x) = startswith DASH_LINE (String c s).
Proof.
  destruct s as [|a [|b [|d s]]]; rewrite ?app_cons, ?app_nil_l;
    unfold DASH_LINE, LF; simpl; rewrite ?app_cons; simpl;
    rewrite ?andb_false_r; reflexivity.
Qed.

Lemma find_separator_after rules rest :
  find DASH_LINE rules = None ->
  find END_MARKER (rules +:+ END_MARKER +:+ rest) = Some (String.length rules).
Proof.
  intros H. induction rules as [|c rules IH].
  - rewrite app_nil_l. reflexivity.
  - assert (E : startswith END_MARKER (String c rules +:+ END_MARKER +:+ rest) = false).
    { destruct (startswith END_MARKER _) eqn:E; [|reflexivity].
      apply (startswith_app_l DASH_LINE LF) in E.
      change (END_MARKER +:+ rest) with (LF +:+ ("---" +:+ LF) +:+ rest) in E.
      rewrite startswith_dash_line_before_lf in E.
      rewrite (find_None_startswith _ _ H) in E. discriminate. }
    rewrite app_cons in *. rewrite find_cons, E.
    rewrite IH; [reflexivity|]. eapply find_None_tail, H.
Qed.

Lemma lstrip_by_head P s c t : lstrip_by P s = String c t -> P c = false.
Proof.
  induction s as [|d s IH]; [discriminate|].
  cbn [lstrip_by]. destruct (P d) eqn:E; [exact IH|].
  intros H. injection H as <- _. exact E.
Qed.

Lemma newline_is_space c : in_chars (LF +:+ CR) c = true -> is_space c = true.
Proof.
  unfold in_chars, contains. intros H.
  destruct (Ascii.eqb c (ascii_of_nat 10)) eqn:E1;
    [apply Ascii.eqb_eq in E1 as ->; reflexivity|].
  destruct (Ascii.eqb c (ascii_of_nat 13)) eqn:E2;
    [apply Ascii.eqb_eq in E2 as ->; reflexivity|].
  exfalso. revert H. unfold LF, CR. rewrite app_cons, app_nil_l.
  rewrite find_cons. simpl startswith. rewrite E1. simpl.
  rewrite E2. simpl. discriminate.
Qed.

Section RoundTrip.
Variable template rules : string.
Variable start_idx end_idx : nat.
Let content_start := start_idx + String.length START_MARKER.
Let remaining := lstrip (LF +:+ CR) (drop content_start template).
Hypothesis has_start : find START_MARKER template = Some start_idx.
Hypothesis has_end : find END_MARKER remaining = Some end_idx.
Hypothesis stripped : strip rules = rules.
Hypothesis not_empty : rules <> "".
Hypothesis no_dash_line : find DASH_LINE rules = None.

Let before := take content_start template.
Let after := drop end_idx remaining.

Lemma built : _build_full_prompt template rules
              = before +:+ LF +:+ LF +:+ rules +:+ after.
Proof.
  unfold _build_full_prompt. rewrite has_start. cbv zeta.
  fold content_start. fold remaining. rewrite has_end. reflexivity.
Qed.

Lemma before_eq : before = take start_idx template +:+ START_MARKER.
Proof. apply (find_split _ _ _ has_start). Qed.

Lemma length_before : String.length before = content_start.
Proof. apply length_take. apply (find_length _ _ _ has_start). Qed.

Lemma start_found x : find START_MARKER (before +:+ x) = Some start_idx.
Proof.
  pose proof (find_length _ _ _ has_start) as Hlen.
  assert (Hi : String.length (take start_idx template) = start_idx)
    by (apply length_take; lia).
  rewrite before_eq, app_assoc. rewrite <- Hi at 2.
  apply (find_change_suffix _ _ (drop content_start template)).
  rewrite Hi. rewrite <- app_assoc, <- before_eq.
  unfold before. rewrite take_drop. exact has_start.
Qed.

Lemma after_eq : exists rest, after = END_MARKER +:+ rest.
Proof.
  exists (drop (String.length END_MARKER) after).
  apply startswith_split. apply (find_startswith _ _ _ has_end).
Qed.

Lemma rules_head : exists c t, rules = String c t /\ in_chars (LF +:+ CR) c = false.
Proof.
  destruct rules as [|c t] eqn:E; [contradiction|].
  exists c, t. split; [reflexivity|].
  destruct (in_chars (LF +:+ CR) c) eqn:Hc; [|reflexivity].
  apply newline_is_space in Hc.
  pose proof stripped as Hs. unfold strip, lstrip_ws in Hs.
  apply lstrip_by_head in Hs. congruence.
Qed.

(** What the extraction finds after the header of the built prompt. *)
Lemma rest_of_built :
  lstrip (LF +:+ CR) (LF +:+ LF +:+ rules +:+ after) = rules +:+ after.
Proof.
  destruct rules_head as (c & t & Hr & Hc).
  rewrite Hr. unfold lstrip.
  assert (Hnl : in_chars (LF +:+ CR) (ascii_of_nat 10) = true) by reflexivity.
  set (P := in_chars (LF +:+ CR)) in *.
  change (LF +:+ LF +:+ String c t +:+ after)
    with (String (ascii_of_nat 10) (String (ascii_of_nat 10) (String c (t +:+ after)))).
  cbn [lstrip_by]. rewrite Hnl, Hc. reflexivity.
Qed.

End RoundTrip.

End PromptFacts.

(** X6. Reading back what was written.  For a template that has the start
    sentinel and, after it, the separator line, and for rules that are not
    empty, have no whitespace around them and hold no line that starts with
    three dashes: [_extract_analysis_rules] applied to the prompt that
    [_build_full_prompt] builds from these rules returns exactly the rules. *)
Theorem rules_round_trip (template rules : string) (start_idx end_idx : nat) :
  Str.find START_MARKER template = Some start_idx ->
  Str.find END_MARKER
    (Str.lstrip (LF +:+ CR) (Str.drop (start_idx + String.length START_MARKER) template))
  = Some end_idx ->
  Str.strip rules = rules ->
  rules <> "" ->
  Str.find DASH_LINE rules = None ->
  _extract_analysis_rules (_build_full_prompt template rules) = rules.
Proof.
  intros Hstart Hend Hstripped Hne Hdash.
  pose proof (PromptFacts.built template rules start_idx end_idx Hstart Hend) as Hbuilt.
  pose proof (PromptFacts.start_found template start_idx Hstart) as Hfound.
  pose proof (PromptFacts.length_before template start_idx Hstart) as Hlen.
  pose proof (PromptFacts.rest_of_built template rules start_idx end_idx Hstripped Hne)
    as Hrest.
  destruct (PromptFacts.after_eq template start_idx end_idx Hend) as [rest Hafter].
  cbv zeta in Hbuilt, Hfound, Hlen, Hrest. specialize (Hrest Hdash).
  set (before := Str.take (start_idx + String.length START_MARKER) template) in *.
  set (after := Str.drop end_idx _) in *.
  rewrite Hbuilt. unfold _extract_analysis_rules.
  rewrite Hfound. cbv zeta.
  rewrite <- Hlen, StrFacts.drop_app_length, Hrest, Hafter.
  rewrite (PromptFacts.find_separator_after rules rest Hdash).
  rewrite StrFacts.take_app_length. exact Hstripped.
Qed.

Lemma rules_round_trip_witness :
  Str.find START_MARKER demo_template = Some 6
  /\ Str.strip "Be brief." = "Be brief."
  /\ Str.find DASH_LINE "Be brief." = None
  /\ _extract_analysis_rules (_build_full_prompt demo_template "Be brief.") = "Be brief.".
Proof.
  split; [reflexivity|]. split; [reflexivity|]. split; [reflexivity|].
  apply (rules_round_trip demo_template "Be brief." 6 9);
    first [reflexivity | discriminate].
Defined.

Module ExtractFacts.
Import Str StrFacts FenceFacts StripFacts.

(** Before its first occurrence a text is not found. *)
Lemma find_take_first sub s e :
  sub <> "" -> find sub s = Some e -> find sub (take e s) = None.
Proof.
  intros Hsub. revert e. induction s as [|c s IH]; intros e H.
  - destruct e; simpl; destruct sub; try reflexivity; contradiction.
  - rewrite find_cons in H. destruct (startswith sub (String c s)) eqn:E.
    + injection H as <-. rewrite take_0. destruct sub; [contradiction | reflexivity].
    + destruct (find sub s) as [j|] eqn:F; [|discriminate].
      injection H as <-. simpl take. rewrite find_cons.
      destruct (startswith sub (String c (take j s))) eqn:E'.
      * apply (startswith_app_r _ _ (drop j s)) in E'.
        rewrite app_cons, take_drop in E'. congruence.
      * rewrite (IH j eq_refl). reflexivity.
Qed.

Lemma find_None_take sub n s : find sub s = None -> find sub (take n s) = None.
Proof.
  intros H. rewrite <- (take_drop n s) in H. eapply find_None_app_l, H.
Qed.

Lemma rstrip_strip s : rstrip_ws (strip s) = strip s.
Proof.
  unfold strip, rstrip_ws, lstrip_ws.
  apply rstrip_by_lstrip_by, rstrip_by_idemp.
Qed.

End ExtractFacts.

(** X7. Whatever the prompt, the text [_extract_analysis_rules] returns
    holds no separator line and has no whitespace at its end. *)
Theorem extracted_rules_clean (prompt : string) :
  Str.find END_MARKER (_extract_analysis_rules prompt) = None
  /\ Str.rstrip_ws (_extract_analysis_rules prompt) = _extract_analysis_rules prompt.
Proof.
  unfold _extract_analysis_rules.
  destruct (Str.find START_MARKER prompt) as [start_idx|]; [|split; reflexivity].
  cbv zeta.
  set (remaining := Str.lstrip (LF +:+ CR)
                      (Str.drop (start_idx + String.length START_MARKER) prompt)).
  destruct (Str.find END_MARKER remaining) as [e|] eqn:Hend.
  - split; [|apply ExtractFacts.rstrip_strip].
    apply StripFacts.find_None_strip, ExtractFacts.find_take_first;
      [discriminate | exact Hend].
  - destruct (Str.find SECTION_MARKER remaining) as [e|] eqn:Hsec.
    + split; [|apply ExtractFacts.rstrip_strip].
      apply StripFacts.find_None_strip, ExtractFacts.find_None_take, Hend.
    + assert (Hc : Str.find END_MARKER (Str.rstrip_ws remaining) = None)
        by apply StripFacts.find_None_rstrip, Hend.
      destruct (Str.endswith "---" (Str.rstrip_ws remaining)).
      * split; [|apply StripFacts.rstrip_by_idemp].
        apply StripFacts.find_None_rstrip. unfold Str.drop_last.
        apply ExtractFacts.find_None_take, Hc.
      * split; [exact Hc | apply StripFacts.rstrip_by_idemp].
Qed.

(** ** The JSON repair: truncated and unwrapped texts *)

Module RepairMore.
Import Str StrFacts FenceFacts StripFacts RepairFacts.

Lemma blank_is_space c : in_chars BLANKS c = true -> is_space c = true.
Proof.
  unfold in_chars, contains. intros H.
  destruct (Ascii.eqb c (ascii_of_nat 10)) eqn:E1;
    [apply Ascii.eqb_eq in E1 as ->; reflexivity|].
  destruct (Ascii.eqb c (ascii_of_nat 13)) eqn:E2;
    [apply Ascii.eqb_eq in E2 as ->; reflexivity|].
  destruct (Ascii.eqb c (ascii_of_nat 9)) eqn:E3;
    [apply Ascii.eqb_eq in E3 as ->; reflexivity|].
  destruct (Ascii.eqb c " ") eqn:E4;
    [apply Ascii.eqb_eq in E4 as ->; reflexivity|].
  exfalso. revert H. unfold BLANKS, LF, CR, TAB.
  rewrite !app_cons, !app_nil_l.
  rewrite !find_cons. simpl startswith. rewrite E1, E2, E3, E4. simpl. discriminate.
Qed.

Lemma lstrip_by_sub (P Q : ascii -> bool) s :
  (forall c, Q c = true -> P c = true) ->
  lstrip_by P s = s -> lstrip_by Q s = s.
Proof.
  intros Hsub H. destruct s as [|c s]; [reflexivity|].
  cbn [lstrip_by]. destruct (Q c) eqn:E; [|reflexivity].
  apply Hsub in E. pose proof (PromptFacts.lstrip_by_head P _ _ _ H). congruence.
Qed.

Lemma rstrip_by_sub (P Q : ascii -> bool) s :
  (forall c, Q c = true -> P c = true) ->
  rstrip_by P s = s -> rstrip_by Q s = s.
Proof.
  intros Hsub. induction s as [|c s IH]; intros H; [reflexivity|].
  pose proof (rstrip_by_fixed_tail _ _ _ H) as Ht.
  rewrite rstrip_by_cons in *. rewrite (IH Ht). rewrite Ht in H.
  destruct s; [|reflexivity].
  destruct (Q c) eqn:E; [|reflexivity].
  apply Hsub in E. rewrite E in H. discriminate.
Qed.

Lemma count_char_none c s : find (String c "") s = None -> count_char c s = 0.
Proof.
  induction s as [|d s IH]; intros H; [reflexivity|].
  pose proof (find_char_head _ _ _ H) as Hd.
  simpl. rewrite Hd, (IH (find_None_tail _ _ _ H)). reflexivity.
Qed.

Lemma strip_fixed_l s : lstrip_ws (strip s) = strip s.
Proof. unfold strip, lstrip_ws. apply lstrip_by_idemp. Qed.

Lemma strip_brace_l body : strip ("{" +:+ body) = "{" +:+ rstrip_ws body.
Proof.
  unfold strip, rstrip_ws. change ("{" +:+ body) with (String "{" body).
  rewrite rstrip_by_cons.
  destruct (rstrip_by is_space body); reflexivity.
Qed.

(** An object cut off before its closing brace: what the tests of
    [_repair_json] find. *)
Lemma truncated_tests b :
  find "}" b = None ->
  endswith "}" ("{" +:+ b) = false
  /\ rfind "}" ("{" +:+ b) = None
  /\ more_open_than_closed ("{" +:+ b) = true.
Proof.
  intros Hn.
  assert (HX : find "}" ("{" +:+ b) = None).
  { change ("{" +:+ b) with (String "{" b). rewrite find_cons, Hn. reflexivity. }
  split; [|split].
  - destruct (endswith "}" ("{" +:+ b)) eqn:E; [|reflexivity].
    apply endswith_find in E. contradiction.
  - apply find_None_rfind, HX.
  - unfold more_open_than_closed. rewrite (count_char_none _ _ HX).
    change ("{" +:+ b) with (String "{" b). simpl. reflexivity.
Qed.

Lemma closed_is_fixed b :
  rstrip BLANKS (("{" +:+ b) +:+ "}") = ("{" +:+ b) +:+ "}"
  /\ endswith "}" (("{" +:+ b) +:+ "}") = true
  /\ strip (("{" +:+ b) +:+ "}") = "{" +:+ b +:+ "}".
Proof.
  split; [apply rstrip_by_snoc_keep; reflexivity|].
  split; [apply endswith_snoc|].
  rewrite app_assoc. apply strip_J.
Qed.

(** A stripped text without braces: what the tests find. *)
Lemma braceless_tests s :
  find "{" s = None -> find "}" s = None ->
  lstrip BLANKS (strip s) = strip s
  /\ rstrip BLANKS (strip s) = strip s
  /\ startswith "{" (strip s) = false
  /\ find "{" (strip s) = None
  /\ endswith "}" (strip s) = false
  /\ rfind "}" (strip s) = None
  /\ endswith "}" ("{" +:+ strip s) = false
  /\ more_open_than_closed ("{" +:+ strip s) = true.
Proof.
  intros Ho Hc.
  assert (Hto : find "{" (strip s) = None) by apply find_None_strip, Ho.
  assert (Htc : find "}" (strip s) = None) by apply find_None_strip, Hc.
  destruct (truncated_tests (strip s) Htc) as (E2 & _ & _).
  repeat split; auto.
  - apply (lstrip_by_sub is_space); [apply blank_is_space | apply strip_fixed_l].
  - apply (rstrip_by_sub is_space);
      [apply blank_is_space | apply ExtractFacts.rstrip_strip].
  - apply find_None_startswith, Hto.
  - destruct (endswith "}" (strip s)) eqn:E; [|reflexivity].
    apply endswith_find in E. contradiction.
  - apply find_None_rfind, Htc.
  - unfold more_open_than_closed. change ("{" +:+ strip s) with (String "{" (strip s)).
    simpl. rewrite (count_char_none _ _ Htc), (count_char_none _ _ Hto). reflexivity.
Qed.

Section Surrounded.
Variable prose body tail : string.
Let J : string := "{" +:+ body +:+ "}".
Let whole : string := prose +:+ J +:+ tail.
Hypothesis no_open : find "{" prose = None.
Hypothesis no_close : find "}" tail = None.
Hypothesis no_fence : find FENCE whole = None.

Let q := lstrip_ws prose.
Let r := rstrip_ws tail.

Lemma strip_whole : strip whole = q +:+ J +:+ r.
Proof. apply strip_embedded. Qed.

Lemma slice_object :
  match find "{" (q +:+ J +:+ r), rfind "}" (q +:+ J +:+ r) with
  | Some json_start, Some json_end =>
      if json_start <? json_end
      then slice json_start (json_end + 1) (q +:+ J +:+ r)
      else q +:+ J +:+ r
  | _, _ => q +:+ J +:+ r
  end = J.
Proof.
  assert (F : find "{" (q +:+ J +:+ r) = Some (String.length q)).
  { change (J +:+ r) with (String "{" ((body +:+ "}") +:+ r)).
    apply find_after_prefix, find_None_lstrip, no_open. }
  assert (R : rfind "}" (q +:+ J +:+ r)
              = Some (String.length q + S (String.length body))).
  { replace (q +:+ J +:+ r) with (((q +:+ "{" +:+ body) +:+ "}") +:+ r)
      by (unfold J; rewrite !app_assoc; reflexivity).
    rewrite rfind_app_none by apply find_None_rstrip, no_close.
    rewrite !length_app. reflexivity. }
  rewrite F, R.
  replace (String.length q <? String.length q + S (String.length body)) with true
    by (symmetry; apply Nat.ltb_lt; lia).
  unfold slice. rewrite drop_app_length.
  replace (String.length q + S (String.length body) + 1 - String.length q)
    with (String.length J) by (unfold J; rewrite (length_J body); lia).
  apply take_app_length.
Qed.

Lemma repair_path_embedded jet d :
  Json.loads J = Some d -> repair_path jet (strip whole) = inr d.
Proof.
  intros H. unfold repair_path.
  rewrite strip_markdown_plain by apply find_None_strip, no_fence.
  rewrite !strip_idemp, strip_whole, slice_object.
  unfold J in *. rewrite (repair_json_J body), H. reflexivity.
Qed.

Lemma interpret_embedded jet d ts :
  Json.loads J = Some d ->
  Json.loads (strip whole) = None ->
  interpret jet (Some whole) ts = interpret jet (Some J) ts.
Proof.
  intros H Hdirect.
  assert (SJ : strip J = J) by apply strip_J.
  unfold interpret. rewrite SJ.
  replace (is_empty (strip whole)) with false
    by (rewrite strip_whole; destruct q; reflexivity).
  change (is_empty J) with false. cbv iota.
  unfold decode_response. rewrite Hdirect, H.
  rewrite (repair_path_embedded jet d H). reflexivity.
Qed.

End Surrounded.

End RepairMore.

(** X8. An object cut off before its closing brace: a text that starts
    with an opening brace and holds no closing brace comes back with the
    whitespace at its end removed and a closing brace appended. *)
Theorem repair_json_closes_truncated (body : string) :
  Str.find "}" body = None ->
  _repair_json ("{" +:+ body) = "{" +:+ Str.rstrip_ws body +:+ "}".
Proof.
  intros Hbody. unfold _repair_json. rewrite RepairMore.strip_brace_l.
  set (b := Str.rstrip_ws body).
  assert (Hb : Str.find "}" b = None) by apply StripFacts.find_None_rstrip, Hbody.
  destruct (RepairMore.truncated_tests b Hb) as (Hends & Hrfind & Hmore).
  destruct (RepairMore.closed_is_fixed b) as (Hrstrip & Hclosed & Hstrip).
  change (Str.is_empty ("{" +:+ b)) with false. cbv iota zeta.
  change (Str.lstrip BLANKS ("{" +:+ b)) with ("{" +:+ b).
  replace (Str.startswith "{" ("{" +:+ b)) with true by reflexivity.
  cbn [negb]. cbv iota.
  rewrite Hends. cbn [negb]. cbv iota.
  rewrite Hrfind, Hmore.
  replace (Str.startswith "{" ("{" +:+ b)) with true by reflexivity.
  cbn [andb]. cbv iota.
  rewrite Hrstrip.
  replace (Str.startswith "{" (("{" +:+ b) +:+ "}")) with true by reflexivity.
  cbn [negb]. cbv iota.
  rewrite Hclosed. cbn [negb]. cbv iota. exact Hstrip.
Qed.

Lemma repair_json_closes_truncated_witness :
  Str.find "}" (quoted "description" +:+ ":" +:+ quoted "a cat" +:+ LF) = None
  /\ Json.loads (_repair_json ("{" +:+ quoted "description" +:+ ":" +:+ quoted "a cat" +:+ LF))
     = Some (VDict [("description", VStr "a cat")]).
Proof.
  split; [reflexivity|].
  rewrite (repair_json_closes_truncated
             (quoted "description" +:+ ":" +:+ quoted "a cat" +:+ LF)); reflexivity.
Defined.

(** X9. A text without any brace comes back stripped and wrapped in
    braces, whether or not it looks like key-value pairs: the test for a
    quote, [timestamp] or [description] (lines 196-203) makes no difference
    to the result. *)
Theorem repair_json_wraps_braceless (json_str : string) :
  Str.find "{" json_str = None ->
  Str.find "}" json_str = None ->
  _repair_json json_str = "{" +:+ Str.strip json_str +:+ "}".
Proof.
  intros Hopen Hclose. unfold _repair_json.
  destruct (RepairMore.braceless_tests json_str Hopen Hclose)
    as (Hl & Hr & Hstart & Hfind & Hend & Hrfind & Hend' & Hmore).
  destruct (RepairMore.closed_is_fixed (Str.strip json_str))
    as (Hrstrip & Hclosed & Hstrip).
  set (t := Str.strip json_str) in *.
  destruct (Str.is_empty t) eqn:Hempty; [destruct t; [reflexivity | discriminate]|].
  cbv zeta. rewrite Hl, Hstart, Hfind. cbn [negb]. cbv iota.
  destruct (Str.contains QUOTE t || Str.contains "timestamp" (Str.lower t)
            || Str.contains "description" (Str.lower t)).
  - (* wrapped by the heuristic *)
    rewrite Hmore, Hclosed. cbn [negb]. cbv iota.
    rewrite Hrstrip.
    replace (Str.startswith "{" (("{" +:+ t) +:+ "}")) with true by reflexivity.
    cbn [negb]. cbv iota. rewrite Hclosed. cbn [negb]. cbv iota. exact Hstrip.
  - (* wrapped by the last two checks *)
    rewrite Hend. cbn [negb]. cbv iota. rewrite Hrfind, Hstart. cbn [andb]. cbv iota.
    rewrite Hr, Hstart. cbn [negb]. cbv iota.
    rewrite Hend'. cbn [negb]. cbv iota. exact Hstrip.
Qed.

Lemma repair_json_wraps_braceless_witness :
  Str.find "{" " no json here " = None
  /\ Str.find "}" " no json here " = None
  /\ _repair_json " no json here " = "{no json here}".
Proof.
  split; [reflexivity|]. split; [reflexivity|].
  rewrite (repair_json_wraps_braceless " no json here "); reflexivity.
Defined.

(** X10. An object with prose around it, without fences.  When the direct
    decode of the whole text fails, the text before the object holds no
    opening brace, the text after it no closing brace, and there is no
    triple backtick anywhere, the repair path of [analyze_frame] decodes
    exactly the object, and the result is the one of the object alone. *)
Theorem embedded_object_is_read (jet : string -> string) (prose body tail : string)
        (d : Dict.t) (ts fn : value) (elapsed : Z) :
  Json.loads ("{" +:+ body +:+ "}") = Some (VDict d) ->
  Str.find "{" prose = None ->
  Str.find "}" tail = None ->
  Str.find FENCE (prose +:+ ("{" +:+ body +:+ "}") +:+ tail) = None ->
  Json.loads (Str.strip (prose +:+ ("{" +:+ body +:+ "}") +:+ tail)) = None ->
  repair_path jet (Str.strip (prose +:+ ("{" +:+ body +:+ "}") +:+ tail)) = inr (VDict d)
  /\ analyze_frame jet (inr (Some (prose +:+ ("{" +:+ body +:+ "}") +:+ tail))) ts fn elapsed
     = analyze_frame jet (inr (Some ("{" +:+ body +:+ "}"))) ts fn elapsed.
Proof.
  intros Hloads Hopen Hclose Hfence Hdirect. split.
  - apply RepairMore.repair_path_embedded; assumption.
  - unfold analyze_frame.
    rewrite (RepairMore.interpret_embedded prose body tail Hopen Hclose Hfence
               jet (VDict d) ts Hloads Hdirect).
    reflexivity.
Qed.

Lemma embedded_object_is_read_witness :
  Json.loads ("{" +:+ cat_body +:+ "}") = Some (VDict cat_dict)
  /\ Json.loads (Str.strip ("Sure! " +:+ ("{" +:+ cat_body +:+ "}") +:+ " Done.")) = None
  /\ analyze_frame (fun _ => "")
       (inr (Some ("Sure! " +:+ ("{" +:+ cat_body +:+ "}") +:+ " Done.")))
       (VFloat 0 0) VNone 0 !! "description"
     = Some (VStr "a cat").
Proof.
  split; [reflexivity|]. split; [reflexivity|].
  destruct (embedded_object_is_read (fun _ => "") "Sure! " cat_body " Done." cat_dict
              (VFloat 0 0) VNone 0) as [_ H];
    [reflexivity | reflexivity | reflexivity | reflexivity | reflexivity |].
  rewrite H. reflexivity.
Defined.

(** ** The single-frame interpreter: what every result looks like *)

Module InterpretFacts.

Lemma extract_fields_meta_tags json ts p :
  extract_fields json ts = inr p -> exists l, p_meta_tags p = VList l.
Proof.
  unfold extract_fields. destruct json as [| | | | | |d]; try discriminate.
  cbv zeta.
  destruct (negb (has_len _)); [discriminate|].
  destruct (negb (sliceable _)); [discriminate|].
  intros H. injection H as <-. simpl.
  destruct (default (VList []) (Dict.get "meta_tags" d)); simpl; eauto.
Qed.

Lemma final_repair_meta_tags content e ts p :
  final_repair content e ts = inr p -> exists l, p_meta_tags p = VList l.
Proof.
  unfold final_repair.
  destruct (Json.loads (_repair_json content)) as [[| | | | | |d]|]; try discriminate.
  cbv zeta. intros H. injection H as <-. simpl.
  destruct (default (VList []) (Dict.get "meta_tags" d)); simpl; eauto.
Qed.

Lemma interpret_meta_tags jet content ts p :
  interpret jet content ts = inr p -> exists l, p_meta_tags p = VList l.
Proof.
  unfold interpret. cbv zeta.
  destruct (Str.is_empty _); [discriminate|].
  destruct (decode_response jet _) as [e|json].
  - apply final_repair_meta_tags.
  - apply extract_fields_meta_tags.
Qed.

Lemma loads_empty : Json.loads "" = None.
Proof. reflexivity. Qed.

Lemma clean_error_not_dict v :
  clean_error ("JSON response is not a dictionary, got " +:+ type_name v)
  = "JSON response is not a dictionary, got " +:+ type_name v.
Proof. destruct v; reflexivity. Qed.

Lemma clean_error_no_len v :
  clean_error ("object of type '" +:+ type_name v +:+ "' has no len()")
  = "object of type '" +:+ type_name v +:+ "' has no len()".
Proof. destruct v; reflexivity. Qed.

Lemma interpret_decoded jet content v ts :
  Json.loads (Str.strip content) = Some v ->
  interpret jet (Some content) ts = extract_fields v ts.
Proof.
  intros H. unfold interpret. cbv zeta.
  destruct (Str.strip content) as [|c s] eqn:E; [discriminate|].
  simpl Str.is_empty. cbv iota. unfold decode_response. rewrite H. reflexivity.
Qed.

End InterpretFacts.

(** X11. Every result of [analyze_frame], once the call has answered or
    failed, has a description and the measured time, and is of one of two
    shapes.  Either it has no [error] entry: then [meta_tags] is a list,
    [gpt_response] is present exactly when that list is not empty, and
    [model], [frame_number] and [timestamp] are set.  Or it has an [error]
    text: then the description is [Error analyzing frame: ] followed by that
    text, [ocr_text] and [meta_tags] are [None], and [model], [frame_number],
    [timestamp] and [gpt_response] are absent. *)
Theorem analyze_frame_result_shape (jet : string -> string)
        (received : exn + option string) (ts fn : value) (elapsed : Z) :
  let r := analyze_frame jet received ts fn elapsed in
  r !! "processing_time_ms" = Some (VInt elapsed)
  /\ is_Some (r !! "description")
  /\ ((r !! "error" = None
       /\ (exists l, r !! "meta_tags" = Some (VList l)
                     /\ (is_Some (r !! "gpt_response") <-> l <> []))
       /\ r !! "model" = Some (VStr "gpt-4o-mini")
       /\ r !! "frame_number" = Some fn
       /\ is_Some (r !! "timestamp"))
      \/ (exists msg, r !! "error" = Some (VStr msg)
            /\ r !! "description" = Some (VStr ("Error analyzing frame: " +:+ msg))
            /\ r !! "ocr_text" = Some VNone
            /\ r !! "meta_tags" = Some VNone
            /\ r !! "gpt_response" = None
            /\ r !! "model" = None
            /\ r !! "frame_number" = None
            /\ r !! "timestamp" = None)).
Proof.
  cbv zeta. unfold analyze_frame.
  set (outcome := match received with inl e => inl e | inr c => interpret jet c ts end).
  assert (Hok : forall p, outcome = inr p -> exists l, p_meta_tags p = VList l).
  { intros p Hp. unfold outcome in Hp. destruct received as [e|c]; [discriminate|].
    eapply InterpretFacts.interpret_meta_tags, Hp. }
  destruct outcome as [e|p].
  - split; [by simplify_map_eq|]. split; [by simplify_map_eq|].
    right. eexists. repeat split; by simplify_map_eq.
  - destruct (Hok p eq_refl) as [l Hl]. rewrite Hl.
    destruct l as [|x l]; simpl truthy; cbv iota.
    + split; [by simplify_map_eq|]. split; [by simplify_map_eq|].
      left. split; [by simplify_map_eq|]. split.
      { exists []. split; [by simplify_map_eq|]. split; [|congruence].
        intros [? H]. by simplify_map_eq. }
      repeat split; by simplify_map_eq.
    + split; [by simplify_map_eq|]. split; [by simplify_map_eq|].
      left. split; [by simplify_map_eq|]. split.
      { exists (x :: l). split; [by simplify_map_eq|]. split; [discriminate|].
        intros _. by simplify_map_eq. }
      repeat split; by simplify_map_eq.
Qed.



(** X13. An answer that decodes to something that is not an object (an
    array, a string, a number, [null], a boolean) fails the frame with the
    error [JSON response is not a dictionary, got] and the name of the type;
    no repair is tried on it. *)
Theorem non_object_answer_fails (jet : string -> string) (content : string) (v : value)
        (ts fn : value) (elapsed : Z) :
  Json.loads (Str.strip content) = Some v ->
  is_dict v = false ->
  analyze_frame jet (inr (Some content)) ts fn elapsed !! "error"
  = Some (VStr ("JSON response is not a dictionary, got " +:+ type_name v)).
Proof.
  intros Hv Hd. unfold analyze_frame.
  rewrite (InterpretFacts.interpret_decoded jet content v ts Hv).
  destruct v; try discriminate; by simplify_map_eq.
Qed.

Lemma non_object_answer_fails_witness :
  Json.loads (Str.strip "[1, 2]") = Some (VList [VInt 1; VInt 2])
  /\ analyze_frame (fun _ => "") (inr (Some "[1, 2]")) (VFloat 0 0) VNone 0 !! "error"
     = Some (VStr "JSON response is not a dictionary, got list").
Proof.
  split; [reflexivity|].
  apply (non_object_answer_fails (fun _ => "") "[1, 2]" (VList [VInt 1; VInt 2]));
    reflexivity.
Defined.



(** X15. A missing or blank answer.  In [analyze_frame] it is the error
    [Empty response from GPT API].  In the batch interpreter a blank text is
    handed to the decoder and every frame of the batch carries the decoder's
    message for the empty document; a missing content makes the handler of
    the decoding error fail itself, on slicing [None], and that exception is
    the one that reaches the outer handler. *)
Theorem blank_answers (jet : string -> string) (rk : list string -> string)
        (content : option string) (ts fn : value) (elapsed processing_time : Z)
        (frames_batch : list frame) :
  match content with Some c => Str.strip c = "" | None => True end ->
  analyze_frame jet (inr content) ts fn elapsed !! "error"
  = Some (VStr "Empty response from GPT API")
  /\ interpret_batch jet rk content processing_time frames_batch
     = match content with
       | None => inl (Exn TypeError "'NoneType' object is not subscriptable", frames_batch)
       | Some _ =>
           inr (map (frame_update
                       (failed ("Error parsing batch response: " +:+ jet "")
                               (processing_time / Z.of_nat (length frames_batch))
                               (jet "")))
                    frames_batch)
       end.
Proof.
  intros H.
  assert (E : match content with Some c => Str.strip c | None => "" end = "")
    by (destruct content; auto).
  split.
  - unfold analyze_frame, interpret. cbv zeta. rewrite E. simpl. by simplify_map_eq.
  - unfold interpret_batch. cbv zeta. rewrite E.
    destruct content; reflexivity.
Qed.

Lemma blank_answers_witness :
  Str.strip (" " +:+ LF) = ""
  /\ analyze_frame (fun _ => "") (inr (Some (" " +:+ LF))) (VFloat 0 0) VNone 0 !! "error"
     = Some (VStr "Empty response from GPT API").
Proof.
  split; [reflexivity|].
  apply (blank_answers (fun _ => "") (fun _ => "") (Some (" " +:+ LF)) (VFloat 0 0) VNone
           0 0 []).
  reflexivity.
Defined.

(** ** The batch interpreter *)

Module BatchFacts.
Import Str StrFacts.

Lemma strip_fenced J : strip (fenced J) = fenced J.
Proof.
  unfold strip, rstrip_ws, lstrip_ws.
  assert (E : fenced J = (FENCE_JSON +:+ LF +:+ J +:+ LF +:+ "``") +:+ "`").
  { unfold fenced, FENCE. rewrite !app_assoc. reflexivity. }
  rewrite E at 1. rewrite rstrip_by_snoc_keep by reflexivity.
  rewrite <- E. reflexivity.
Qed.

Lemma analyzed_error f d t : frame_update (analyzed d t) f !! "error" = f !! "error".
Proof. unfold frame_update, analyzed. simpl. by simplify_map_eq. Qed.

Lemma analyzed_description f d t :
  frame_update (analyzed d t) f !! "description"
  = Some (default (VStr "") (Dict.get "description" d)).
Proof. unfold frame_update, analyzed. simpl. by simplify_map_eq. Qed.

End BatchFacts.

(** X16. The batch interpreter has no repair path: an answer wrapped in a
    json fence, whatever it holds, is never decoded, and every frame of the
    batch is written as a failure with the decoder's message and its share
    of the processing time. *)
Theorem fenced_answer_fails_batch (jet : string -> string) (rk : list string -> string)
        (J : string) (processing_time : Z) (frames_batch : list frame) :
  interpret_batch jet rk (Some (fenced J)) processing_time frames_batch
  = inr (map (frame_update
                (failed ("Error parsing batch response: " +:+ jet (fenced J))
                        (processing_time / Z.of_nat (length frames_batch))
                        (jet (fenced J))))
             frames_batch).
Proof.
  unfold interpret_batch. rewrite BatchFacts.strip_fenced. reflexivity.
Qed.

(** X17. A successful mapping writes the description of result [i] to
    frame [i] and leaves the [error] entry of the frame as it was: an error
    that a frame carries from an earlier pass is still there after a
    successful analysis. *)
Theorem success_keeps_earlier_error (jet : string -> string) (rk : list string -> string)
        (content : string) (json : value) (results : list value) (t : Z)
        (frames : list frame) :
  Json.loads (Str.strip content) = Some json ->
  batch_results rk json = inr results ->
  Forall (fun r => is_dict r = true) results ->
  exists out,
    interpret_batch jet rk (Some content) t frames = inr out
    /\ forall i f d,
         frames !! i = Some f ->
         results !! i = Some (VDict d) ->
         exists f', out !! i = Some f'
                    /\ f' !! "error" = f !! "error"
                    /\ f' !! "description"
                       = Some (default (VStr "") (Dict.get "description" d)).
Proof.
  intros Hjson Hres Hdicts. unfold interpret_batch. rewrite Hjson, Hres.
  set (per_frame := (t / Z.of_nat (length frames))%Z).
  destruct (map_results_dicts results per_frame 0 frames Hdicts) as [Hnone Hlook].
  destruct (map_results results per_frame 0 frames) as [out e]. simpl in *. subst e.
  exists out. split; [reflexivity|].
  intros i f d Hf Hr. specialize (Hlook i f Hf). simpl in Hlook. rewrite Hr in Hlook.
  eexists. split; [exact Hlook|].
  split; [apply BatchFacts.analyzed_error | apply BatchFacts.analyzed_description].
Qed.

Lemma success_keeps_earlier_error_witness :
  Json.loads (Str.strip two_results_json)
  = Some (VDict [("frames", VList [VDict [("description", VStr "a")];
                                   VDict [("description", VStr "b")]])])
  /\ exists out,
      interpret_batch (fun _ => "") (fun _ => "") (Some two_results_json) 0
                      [stale_frame_at 0; frame_at 1] = inr out
      /\ exists f', out !! 0 = Some f'
                    /\ f' !! "error" = Some (VStr "earlier failure")
                    /\ f' !! "description" = Some (VStr "a").
Proof.
  split; [reflexivity|].
  destruct (success_keeps_earlier_error (fun _ => "") (fun _ => "") two_results_json
              (VDict [("frames", VList [VDict [("description", VStr "a")];
                                        VDict [("description", VStr "b")]])])
              [VDict [("description", VStr "a")]; VDict [("description", VStr "b")]]
              0 [stale_frame_at 0; frame_at 1]) as (out & Hrun & Hall).
  - reflexivity.
  - reflexivity.
  - repeat constructor.
  - exists out. split; [exact Hrun|].
    destruct (Hall 0 (stale_frame_at 0) [("description", VStr "a")] eq_refl eq_refl)
      as (f' & Hf & He & Hd).
    exists f'. split; [exact Hf|]. split; [rewrite He; reflexivity | exact Hd].
Defined.

(** ** Requests of a batch *)

Section CallFacts.

Context (E : Env).

Ltac run := unfold bind, ret, raise, try, ask, now, call in *; simpl in *.

Lemma read_images_count frames (s : St E) :
  exists r s',
    read_images E frames s = (inr r, s')
    /\ calls s' = calls s
    /\ match r with
       | inr images => length images = length (List.filter has_path frames)
       | inl _ => True
       end.
Proof.
  revert s. induction frames as [|f frames IH]; intros s; simpl.
  - exists (inr []), s. run. auto.
  - unfold has_path, image_path_of.
    destruct (truthy (py_or (frame_get "image_path" f) (frame_get "frame_path" f)))
      eqn:Hpath; simpl.
    + run. destruct (read_image E _ (world s)) as [[e|img] w].
      * eexists (inl e), _. repeat split; auto.
      * destruct (IH (MkSt w (calls s))) as (r & s' & Hr & Hc & Hlen).
        rewrite Hr. destruct r as [e|images].
        -- eexists (inl e), _. repeat split; auto.
        -- eexists (inr (img :: images)), _. repeat split; auto.
           simpl. f_equal. exact Hlen.
    + destruct (IH s) as (r & s' & Hr & Hc & Hlen).
      exists r, s'. repeat split; auto.
Qed.

(** One frame whose image can never be read stops the reading. *)
Lemma read_images_unreadable frames f (s : St E) :
  f ∈ frames ->
  has_path f = true ->
  (forall w, exists e w', read_image E (image_path_of f) w = (inl e, w')) ->
  exists e s', read_images E frames s = (inr (inl e), s') /\ calls s' = calls s.
Proof.
  intros Hin Hpath Hfail. revert s.
  induction frames as [|g frames IH]; intros s; [inversion Hin|].
  simpl. fold (image_path_of g). fold (has_path g).
  destruct (has_path g) eqn:Hg; simpl.
  - run. destruct (read_image E (image_path_of g) (world s)) as [[e|img] w] eqn:Hread.
    + eexists e, _. split; reflexivity.
    + apply elem_of_cons in Hin as [->|Hin].
      * destruct (Hfail (world s)) as (e & w' & He). congruence.
      * destruct (IH Hin (MkSt w (calls s))) as (e & s' & Hr & Hc).
        rewrite Hr. eexists e, _. split; [reflexivity | exact Hc].
  - apply elem_of_cons in Hin as [->|Hin]; [congruence|].
    apply IH, Hin.
Qed.

Lemma guarded_call_sends svc api_key req (s : St E) :
  guarded_call E svc api_key req s
  = (inr (call_outcome svc (fst (send E (backend_of svc api_key) req (world s)))),
     MkSt (snd (send E (backend_of svc api_key) req (world s)))
          (calls s ++ [(backend_of svc api_key, req)])).
Proof.
  unfold guarded_call, call_outcome, backend_of. run.
  destruct (send E _ req (world s)) as [a w]. simpl.
  destruct (if use_custom_gpt svc then _call_custom_gpt a else openai_create a)
    as [e|c]; [destruct (exn_cls e)|]; reflexivity.
Qed.

(** The body of the batch call: nothing is sent when an image cannot be
    read or no frame has a path; otherwise one request is sent, and an
    exception of the call is the result, with the frames as they came. *)
Lemma batch_body_sends svc api_key frames user_id db start (s : St E) :
  exists r s',
    batch_body E svc api_key frames user_id db start s = (inr r, s')
    /\ ((calls s' = calls s
         /\ (r = inr frames \/ exists e, r = inl (e, frames)))
        \/ exists req w,
             calls s' = calls s ++ [(backend_of svc api_key, req)]
             /\ batch_request svc frames (backend_of svc api_key, req)
             /\ match call_outcome svc (fst (send E (backend_of svc api_key) req w)) with
                | inl e => r = inl (e, frames)
                | inr _ => True
                end).
Proof.
  unfold batch_body.
  destruct (read_images_count frames s) as (imgs & s1 & Himgs & Hc1 & Hlen).
  unfold bind at 1. rewrite Himgs.
  destruct imgs as [e|[|img images]].
  - run. exists (inl (e, frames)), s1. split; [reflexivity|]. left. eauto.
  - run. exists (inr frames), s1. split; [reflexivity|]. left. eauto.
  - destruct (get_prompt_template_run E svc user_id db s1) as (t & s2 & Ht & Hc2).
    unfold bind at 1. rewrite Ht.
    match goal with |- context [guarded_call E svc api_key ?r] => set (req := r) end.
    unfold bind at 1. rewrite guarded_call_sends.
    set (rep := send E (backend_of svc api_key) req (world s2)).
    assert (Hreq : batch_request svc frames (backend_of svc api_key, req)).
    { unfold batch_request. simpl. split; [eauto|]. repeat split; auto.
      simpl in Hlen. lia. }
    destruct (call_outcome svc (fst rep)) as [e|content] eqn:Hout.
    + run. eexists (inl (e, frames)), _. split; [reflexivity|]. right.
      exists req, (world s2). simpl. split; [congruence|]. split; [exact Hreq|].
      fold rep. rewrite Hout. reflexivity.
    + run. eexists _, _. split; [reflexivity|]. right.
      exists req, (world s2). simpl. split; [congruence|]. split; [exact Hreq|].
      fold rep. rewrite Hout. exact I.
Qed.

(** The batch call, after the check for a client: the key in use is the
    one that check returned. *)
Lemma analyze_frame_batch_sends svc frames user_id db (s : St E) :
  exists r s' api_key,
    analyze_frame_batch E svc frames user_id db s = (r, s')
    /\ (use_custom_gpt svc = false ->
        fst (_get_openai_client E svc user_id db s) = inr api_key)
    /\ ((calls s' = calls s
         /\ (r = inl (Exn ValueError NO_KEY) \/ r = inr frames
             \/ exists e, r = inr (batch_failed e frames)))
        \/ exists req w,
             calls s' = calls s ++ [(backend_of svc api_key, req)]
             /\ batch_request svc frames (backend_of svc api_key, req)
             /\ match call_outcome svc (fst (send E (backend_of svc api_key) req w)) with
                | inl e => r = inr (batch_failed e frames)
                | inr _ => True
                end).
Proof.
  unfold analyze_frame_batch.
  assert (Hbody : forall api_key s1, calls s1 = calls s ->
    exists r s',
      (match frames with
       | [] => ret E []
       | _ :: _ =>
           bind E (now E) (fun start_time =>
           bind E (batch_body E svc api_key frames user_id db start_time) (fun r =>
           match r with
           | inr frames' => ret E frames'
           | inl (e, frames') => ret E (batch_failed e frames')
           end))
       end) s1 = (r, s')
      /\ ((calls s' = calls s
           /\ (r = inl (Exn ValueError NO_KEY) \/ r = inr frames
               \/ exists e, r = inr (batch_failed e frames)))
          \/ exists req w,
               calls s' = calls s ++ [(backend_of svc api_key, req)]
               /\ batch_request svc frames (backend_of svc api_key, req)
               /\ match call_outcome svc
                          (fst (send E (backend_of svc api_key) req w)) with
                  | inl e => r = inr (batch_failed e frames)
                  | inr _ => True
                  end)).
  { intros api_key s1 Hs1. destruct frames as [|f frames'] eqn:Hframes.
    - run. exists (inr []), s1. split; [reflexivity|]. left. auto.
    - rewrite <- Hframes in *. unfold bind at 1, now.
      destruct (batch_body_sends svc api_key frames user_id db (clock E (world s1)) s1)
        as (r & s' & Hr & Hcases).
      unfold bind at 1. rewrite Hr. rewrite Hs1 in Hcases.
      destruct Hcases as [[Hc [->|[e ->]]]|(req & w & Hc & Hreq & Hout)].
      + run. eexists _, s'. split; [reflexivity|]. left. auto.
      + run. eexists _, s'. split; [reflexivity|]. left. eauto.
      + destruct r as [[e out]|out]; run.
        * eexists _, s'. split; [reflexivity|]. right.
          exists req, w. split; [exact Hc|]. split; [exact Hreq|].
          destruct (call_outcome svc _) as [e'|]; [|exact I].
          injection Hout as -> ->. reflexivity.
        * eexists _, s'. split; [reflexivity|]. right.
          exists req, w. split; [exact Hc|]. split; [exact Hreq|].
          destruct (call_outcome svc _) as [e'|]; [discriminate | exact I]. }
  destruct (use_custom_gpt svc) eqn:Hcustom; simpl.
  - unfold bind at 1, ret at 1.
    destruct (Hbody None s eq_refl) as (r & s' & Hr & Hcases).
    exists r, s', None. split; [exact Hr|]. split; [discriminate | exact Hcases].
  - destruct (get_openai_client_run E svc user_id db s) as (c & s1 & Hclient & Hc1).
    unfold bind at 1, bind at 1. rewrite Hclient.
    destruct c as [k|].
    + unfold ret at 1.
      destruct (Hbody (Some k) s1 Hc1) as (r & s' & Hr & Hcases).
      exists r, s', (Some k). split; [exact Hr|]. split; [reflexivity | exact Hcases].
    + run. exists (inl (Exn ValueError NO_KEY)), s1, None. split; [reflexivity|].
      split; [reflexivity|]. left. auto.
Qed.




End CallFacts.

(** X18. A call of [analyze_frame_batch] sends at most one request.  When
    it sends one, the request goes to the backend of the service, with the
    model [gpt-4o-mini] and 4000 tokens, announces every frame of the batch
    with its timestamp, and carries one image for each frame that has a
    path: frames without a path are skipped without notice. *)
Theorem batch_call_sends_one_request (E : Env) svc (frames_batch : list frame)
        user_id db (s : St E) :
  exists r s' new,
    analyze_frame_batch E svc frames_batch user_id db s = (r, s')
    /\ calls s' = calls s ++ new
    /\ (new = [] \/ exists c, new = [c] /\ batch_request svc frames_batch c).
Proof.
  destruct (analyze_frame_batch_sends E svc frames_batch user_id db s)
    as (r & s' & k & Hrun & _ & [[Hc _]|(req & w & Hc & Hreq & _)]).
  - exists r, s', []. rewrite app_nil_r. auto.
  - exists r, s', [(backend_of svc k, req)]. split; [exact Hrun|].
    split; [exact Hc|]. right. eauto.
Qed.

(** X19. [analyze_frame_batch] lets out one exception only, the missing
    key, raised before anything is sent.  In every other case it returns one
    frame for each frame of the batch, in the same order, and every entry of
    a frame that is not an analysis entry is as it was. *)
Theorem batch_call_preserves_frames (E : Env) svc (frames_batch : list frame)
        user_id db (s : St E) :
  exists r s',
    analyze_frame_batch E svc frames_batch user_id db s = (r, s')
    /\ match r with
       | inl e => e = Exn ValueError NO_KEY /\ calls s' = calls s
       | inr out => Forall2 same_frame frames_batch out
       end.
Proof.
  destruct (analyze_frame_batch_run E svc frames_batch user_id db s)
    as (r & s' & Hrun & new & Hc & _ & _ & Hr).
  exists r, s'. split; [exact Hrun|].
  destruct r as [e|out]; [|exact Hr].
  destruct Hr as [-> ->]. rewrite app_nil_r in Hc. auto.
Qed.

(** X20. A batch in which no frame has an image path is returned as it
    came, with no entry written and no request sent, whenever a backend is
    there. *)
Theorem pathless_batch_returned_unchanged (E : Env) svc (frames_batch : list frame)
        user_id db (s : St E) :
  Forall no_image_path frames_batch ->
  use_custom_gpt svc = true \/ fst (client_available E svc user_id db s) = true ->
  exists s',
    analyze_frame_batch E svc frames_batch user_id db s = (inr frames_batch, s')
    /\ calls s' = calls s.
Proof.
  intros Hpaths Hbackend. unfold analyze_frame_batch.
  assert (Hbody : forall api_key s1,
    (match frames_batch with
     | [] => ret E []
     | _ :: _ =>
         bind E (now E) (fun start_time =>
         bind E (batch_body E svc api_key frames_batch user_id db start_time) (fun r =>
         match r with
         | inr frames' => ret E frames'
         | inl (e, frames') => ret E (batch_failed e frames')
         end))
     end) s1 = (inr frames_batch, s1)).
  { intros api_key s1. destruct frames_batch as [|f frames'] eqn:Hframes; [reflexivity|].
    rewrite <- Hframes in *. unfold bind at 1, now.
    unfold bind at 1, batch_body. unfold bind at 1.
    rewrite (read_images_pathless E _ s1 Hpaths). reflexivity. }
  destruct (use_custom_gpt svc) eqn:Hcustom; simpl.
  - unfold bind at 1, ret at 1. exists s. split; [apply Hbody | reflexivity].
  - destruct Hbackend as [?|Hav]; [discriminate|].
    unfold client_available in Hav.
    destruct (get_openai_client_run E svc user_id db s) as (c & s1 & Hclient & Hc1).
    rewrite Hclient in Hav.
    unfold bind at 1, bind at 1. rewrite Hclient.
    destruct c as [k|]; [|discriminate].
    unfold ret at 1. exists s1. split; [apply Hbody | exact Hc1].
Qed.

Lemma pathless_batch_returned_unchanged_witness :
  Forall no_image_path [pathless_frame_at 0; pathless_frame_at 1]
  /\ exists s',
      analyze_frame_batch env_two svc_custom [pathless_frame_at 0; pathless_frame_at 1]
                          None false (start env_two tt)
      = (inr [pathless_frame_at 0; pathless_frame_at 1], s')
      /\ calls s' = [].
Proof.
  assert (H : Forall no_image_path [pathless_frame_at 0; pathless_frame_at 1])
    by (repeat constructor).
  split; [exact H|].
  apply (pathless_batch_returned_unchanged env_two svc_custom
           [pathless_frame_at 0; pathless_frame_at 1] None false (start env_two tt) H).
  left. reflexivity.
Defined.

(** X21. One image that cannot be read fails the whole batch: every frame
    carries the exception of the reading as its error, with
    [Error in batch analysis: ] before it in the description, and no request
    is sent. *)
Theorem unreadable_image_fails_batch (E : Env) svc (frames_batch : list frame)
        (f : frame) user_id db (s : St E) :
  use_custom_gpt svc = true \/ fst (client_available E svc user_id db s) = true ->
  f ∈ frames_batch ->
  has_path f = true ->
  (forall w, exists e w', read_image E (image_path_of f) w = (inl e, w')) ->
  exists e s',
    analyze_frame_batch E svc frames_batch user_id db s
    = (inr (map (frame_update
                   (failed ("Error in batch analysis: " +:+ str_exn e) 0 (str_exn e)))
                frames_batch), s')
    /\ calls s' = calls s.
Proof.
  intros Hbackend Hin Hpath Hfail. unfold analyze_frame_batch.
  assert (Hbody : forall api_key s1, calls s1 = calls s ->
    exists e s',
      (match frames_batch with
       | [] => ret E []
       | _ :: _ =>
           bind E (now E) (fun start_time =>
           bind E (batch_body E svc api_key frames_batch user_id db start_time) (fun r =>
           match r with
           | inr frames' => ret E frames'
           | inl (e, frames') => ret E (batch_failed e frames')
           end))
       end) s1
      = (inr (map (frame_update
                     (failed ("Error in batch analysis: " +:+ str_exn e) 0 (str_exn e)))
                  frames_batch), s')
      /\ calls s' = calls s).
  { intros api_key s1 Hs1. destruct frames_batch as [|f0 frames'] eqn:Hframes;
      [inversion Hin|].
    rewrite <- Hframes in *. unfold bind at 1, now.
    unfold bind at 1, batch_body. unfold bind at 1.
    destruct (read_images_unreadable E frames_batch f s1 Hin Hpath Hfail)
      as (e & s2 & Hr & Hc2).
    rewrite Hr. unfold ret. exists e, s2. split; [reflexivity | congruence]. }
  destruct (use_custom_gpt svc) eqn:Hcustom; simpl.
  - unfold bind at 1, ret at 1. apply Hbody. reflexivity.
  - destruct Hbackend as [?|Hav]; [discriminate|].
    unfold client_available in Hav.
    destruct (get_openai_client_run E svc user_id db s) as (c & s1 & Hclient & Hc1).
    rewrite Hclient in Hav.
    unfold bind at 1, bind at 1. rewrite Hclient.
    destruct c as [k|]; [|discriminate].
    unfold ret at 1. apply Hbody, Hc1.
Qed.

Lemma unreadable_image_fails_batch_witness :
  has_path (frame_at 1) = true
  /\ exists e s',
      analyze_frame_batch env_unreadable svc_custom [frame_at 0; frame_at 1] None false
                          (start env_unreadable tt)
      = (inr (map (frame_update
                     (failed ("Error in batch analysis: " +:+ str_exn e) 0 (str_exn e)))
                  [frame_at 0; frame_at 1]), s')
      /\ calls s' = [].
Proof.
  split; [reflexivity|].
  apply (unreadable_image_fails_batch env_unreadable svc_custom [frame_at 0; frame_at 1]
           (frame_at 1) None false (start env_unreadable tt)).
  - left. reflexivity.
  - apply elem_of_cons. right. apply elem_of_cons. left. reflexivity.
  - reflexivity.
  - intros w. eexists _, _. reflexivity.
Defined.

(** X22. When the endpoint gives no answer within the five minutes, a
    batch whose request was sent comes back with every frame marked with the
    timeout text of line 853, for the custom endpoint and for the OpenAI
    client alike. *)
Theorem unanswered_batch_times_out (E : Env) svc (frames_batch : list frame)
        user_id db (s : St E) :
  (forall b r w, fst (send E b r w) = NoAnswer) ->
  exists r s' new,
    analyze_frame_batch E svc frames_batch user_id db s = (r, s')
    /\ calls s' = calls s ++ new
    /\ (new <> [] ->
        r = inr (map (frame_update
                        (failed ("Error in batch analysis: " +:+ TIMED_OUT) 0 TIMED_OUT))
                     frames_batch)).
Proof.
  intros Hsilent.
  destruct (analyze_frame_batch_sends E svc frames_batch user_id db s)
    as (r & s' & k & Hrun & _ & [[Hc _]|(req & w & Hc & _ & Hout)]).
  - exists r, s', []. rewrite app_nil_r. split; [exact Hrun|]. split; [exact Hc|].
    congruence.
  - exists r, s', [(backend_of svc k, req)]. split; [exact Hrun|]. split; [exact Hc|].
    intros _. rewrite Hsilent in Hout. unfold call_outcome in Hout.
    destruct (use_custom_gpt svc); simpl in Hout; exact Hout.
Qed.

Lemma unanswered_batch_times_out_witness :
  (forall b r w, fst (send env_no_answer b r w) = NoAnswer)
  /\ exists r s' new,
      analyze_frame_batch env_no_answer svc_custom [frame_at 0; frame_at 1] None false
                          (start env_no_answer tt) = (r, s')
      /\ calls s' = new
      /\ (new <> [] ->
          r = inr (map (frame_update
                          (failed ("Error in batch analysis: " +:+ TIMED_OUT) 0 TIMED_OUT))
                       [frame_at 0; frame_at 1])).
Proof.
  split; [reflexivity|].
  apply (unanswered_batch_times_out env_no_answer svc_custom [frame_at 0; frame_at 1]
           None false (start env_no_answer tt)).
  reflexivity.
Defined.

(** X23. With the OpenAI backend, a user and a database session: the
    request of a batch goes out with the user's own key when the store holds
    a non-empty one, and with the key of the system otherwise, also when the
    lookup fails. *)
Theorem requests_use_the_users_key (E : Env) svc (frames_batch : list frame)
        user_id db (s : St E) :
  use_custom_gpt svc = false ->
  is_set user_id && db = true ->
  exists r s' new,
    analyze_frame_batch E svc frames_batch user_id db s = (r, s')
    /\ calls s' = calls s ++ new
    /\ Forall (fun c =>
                 fst c
                 = OpenAI (default ""
                             match fst (select_api_key E (default "" user_id) (world s)) with
                             | inr (Some decrypted_key) =>
                                 if negb (Str.is_empty decrypted_key)
                                 then Some decrypted_key else client svc
                             | _ => client svc
                             end)) new.
Proof.
  intros Hcustom Huser.
  destruct (analyze_frame_batch_sends E svc frames_batch user_id db s)
    as (r & s' & k & Hrun & Hkey & Hcases).
  specialize (Hkey Hcustom).
  assert (Hk : k = match fst (select_api_key E (default "" user_id) (world s)) with
                   | inr (Some decrypted_key) =>
                       if negb (Str.is_empty decrypted_key)
                       then Some decrypted_key else client svc
                   | _ => client svc
                   end).
  { unfold _get_openai_client in Hkey. rewrite Hcustom, Huser in Hkey.
    unfold bind, ask, ret in Hkey.
    destruct (select_api_key E (default "" user_id) (world s)) as [[e|[key|]] w];
      simpl in *; try destruct (negb (Str.is_empty key)); simpl in *; congruence. }
  destruct Hcases as [[Hc _]|(req & w & Hc & _ & _)].
  - exists r, s', []. rewrite app_nil_r. auto.
  - exists r, s', [(backend_of svc k, req)]. split; [exact Hrun|]. split; [exact Hc|].
    constructor; [|constructor]. simpl. unfold backend_of. rewrite Hcustom, Hk.
    reflexivity.
Qed.

Lemma requests_use_the_users_key_witness :
  use_custom_gpt svc_openai = false
  /\ exists r s' new,
      analyze_frame_batch env_user_key svc_openai [frame_at 0] (Some "u1") true
                          (start env_user_key tt) = (r, s')
      /\ calls s' = new
      /\ Forall (fun c => fst c = OpenAI "sk-user") new.
Proof.
  split; [reflexivity|].
  apply (requests_use_the_users_key env_user_key svc_openai [frame_at 0] (Some "u1") true
           (start env_user_key tt)); reflexivity.
Defined.

(** X24. Whatever the world answers and in whatever order the tasks run,
    every result that [asyncio.gather] hands to the merge loop is a list of
    frames, one for each frame of its batch: the branch of the loop for a
    result that is an exception (lines 1160-1171) is never taken. *)
Theorem batch_tasks_never_raise (E : Env) svc user_id db
        (frame_batches : list (list frame)) schedule (s : St E) :
  Forall2 (fun (batch : list frame) (r : exn + list frame) =>
             exists out, r = inr out /\ Forall2 same_frame batch out)
          frame_batches
          (fst (gather E (map (analyze_batch_with_semaphore E svc user_id db)
                              frame_batches) schedule s)).
Proof.
  set (Q := fun (i : nat) (r : exn + list frame) =>
              exists b out, frame_batches !! i = Some b /\ r = inr out
                            /\ Forall2 same_frame b out).
  destruct (gather_spec E (fun _ => True) Q
              (map (analyze_batch_with_semaphore E svc user_id db) frame_batches)
              schedule s) as (rs & s2 & new & -> & _ & _ & Hlen & Hrs).
  { intros i task Hi s0.
    apply list_lookup_fmap_Some in Hi as (b & -> & Hb).
    destruct (analyze_batch_with_semaphore_run E svc user_id db b s0)
      as (r & s' & Hr & new & out & Hc & _ & -> & Hsame).
    exists (inr out), s', new. split; [exact Hr|]. split; [exact Hc|]. split.
    - apply Forall_forall. auto.
    - exists b, out. auto. }
  rewrite length_map in Hlen. simpl.
  apply Forall2_same_length_lookup_2; [congruence|].
  intros i b r Hb Hr. destruct (Hrs i r Hr) as (b' & out & Hb' & -> & Hsame).
  exists out. split; [reflexivity|]. congruence.
Qed.



(** X26. A batch size or a worker count below one, with frames and a
    backend.  A batch size of zero raises the [ValueError] of [range]; a
    negative batch size plans no batch, and the call returns the empty list,
    losing every frame; a negative worker count raises the [ValueError] of
    the semaphore; a worker count of zero leaves every task waiting, and the
    call never returns.  No request is sent in any of these cases. *)
Theorem degenerate_arguments (E : Env) svc cfg (frames : list frame)
        (max_workers batch_size : Z) user_id db schedule (s : St E) :
  frames <> [] ->
  (batch_size <= 0 \/ max_workers <= 0)%Z ->
  use_custom_gpt (refreshed svc cfg) = true
  \/ fst (client_available E (refreshed svc cfg) user_id db s) = true ->
  exists s',
    batch_analyze_frames E svc cfg frames max_workers batch_size user_id db schedule s
    = (degenerate_outcome max_workers batch_size, refreshed svc cfg, s')
    /\ calls s' = calls s.
Proof.
  intros Hne Hbad Hbackend. unfold batch_analyze_frames, degenerate_outcome.
  set (svc' := refreshed svc cfg) in *.
  assert (Hclient : exists s1,
             (if negb (use_custom_gpt svc')
              then client_available E svc' user_id db s else (true, s)) = (true, s1)
             /\ calls s1 = calls s).
  { destruct (use_custom_gpt svc') eqn:Hcustom; simpl.
    - exists s. auto.
    - destruct Hbackend as [?|Hav]; [discriminate|].
      pose proof (client_available_calls E svc' user_id db s) as Hcalls.
      destruct (client_available E svc' user_id db s) as [b s1]. simpl in *.
      subst b. exists s1. auto. }
  destruct Hclient as (s1 & -> & Hc1). simpl negb. cbv iota.
  destruct frames as [|f0 frames0] eqn:Hframes; [congruence|].
  rewrite <- Hframes in *.
  set (eb := effective_batch_size (use_custom_gpt svc') batch_size).
  destruct (Z.eqb_spec batch_size 0) as [Hz|Hnz].
  - assert (eb = 0%Z) as -> by (unfold eb, effective_batch_size;
                                 destruct (use_custom_gpt svc'); lia).
    exists s1. split; [reflexivity | exact Hc1].
  - destruct (Z.ltb_spec batch_size 0) as [Hneg|Hpos].
    + assert (Heb : (eb < 0)%Z) by (unfold eb, effective_batch_size;
                                     destruct (use_custom_gpt svc'); lia).
      assert (Hsplit : split_batches frames eb = inr []).
      { unfold split_batches, py_range.
        destruct (Z.eqb_spec eb 0); [lia|].
        destruct (Z.ltb_spec eb 0); [reflexivity | lia]. }
      rewrite Hsplit.
      destruct (max_workers <? 0)%Z; [exists s1; auto|].
      rewrite andb_false_r. exists s1. split; [reflexivity | exact Hc1].
    + assert (Hbs : (1 <= batch_size)%Z) by lia.
      destruct (PlanFacts.split_batches_spec frames (use_custom_gpt svc') batch_size Hbs)
        as (batches & Hsplit & Hconcat & _).
      fold eb in Hsplit. rewrite Hsplit.
      destruct (Z.ltb_spec max_workers 0); [exists s1; auto|].
      assert (max_workers = 0)%Z as -> by lia.
      assert (is_nil batches = false) as ->.
      { destruct batches; [|reflexivity]. simpl in Hconcat. congruence. }
      exists s1. auto.
Qed.

Lemma degenerate_arguments_witness :
  [frame_at 0; frame_at 1] <> []
  /\ exists s',
      batch_analyze_frames env_two svc_openai cfg_openai [frame_at 0; frame_at 1]
                           5 (-1) None false [] (start env_two tt)
      = (Returned [], refreshed svc_openai cfg_openai, s')
      /\ calls s' = [].
Proof.
  split; [discriminate|].
  apply (degenerate_arguments env_two svc_openai cfg_openai [frame_at 0; frame_at 1]
           5 (-1) None false [] (start env_two tt)).
  - discriminate.
  - left. lia.
  - right. reflexivity.
Defined.

(** X27. Without the custom endpoint and without a client, whatever the
    other arguments: every frame comes back, in the order given, with the
    missing-key text as its error and as its description, nothing is sent,
    and the tally of the final log line would count no success. *)
Theorem no_backend_marks_every_frame (E : Env) svc cfg (frames : list frame)
        (max_workers batch_size : Z) user_id db schedule (s : St E) :
  use_custom_gpt (refreshed svc cfg) = false ->
  fst (client_available E (refreshed svc cfg) user_id db s) = false ->
  exists s',
    batch_analyze_frames E svc cfg frames max_workers batch_size user_id db schedule s
    = (Returned (map (frame_update (failed NO_KEY 0 NO_KEY)) frames),
       refreshed svc cfg, s')
    /\ calls s' = calls s
    /\ Forall (fun f => f !! "error" = Some (VStr NO_KEY)
                        /\ f !! "description" = Some (VStr NO_KEY))
              (map (frame_update (failed NO_KEY 0 NO_KEY)) frames)
    /\ successful (map (frame_update (failed NO_KEY 0 NO_KEY)) frames) = 0.
Proof.
  intros Hcustom Hclient.
  destruct (no_client_path E svc cfg frames max_workers batch_size user_id db
              schedule s Hcustom Hclient) as (s' & Hrun & Hcalls).
  exists s'. split; [exact Hrun|]. split; [exact Hcalls|]. split.
  - apply Forall_forall. intros f Hf.
    apply list_elem_of_fmap in Hf as (f0 & -> & _).
    split; [apply FrameFacts.failed_error | apply FrameFacts.failed_description].
  - clear Hrun. unfold successful. induction frames as [|f frames IH]; [reflexivity|].
    cbn [map List.filter]. rewrite FrameFacts.failed_error. simpl negb. cbv iota.
    exact IH.
Qed.

Lemma no_backend_marks_every_frame_witness :
  use_custom_gpt (refreshed svc_none cfg_none) = false
  /\ exists s',
      batch_analyze_frames env_two svc_none cfg_none [frame_at 0; frame_at 1]
                           5 10 None false [] (start env_two tt)
      = (Returned (map (frame_update (failed NO_KEY 0 NO_KEY)) [frame_at 0; frame_at 1]),
         refreshed svc_none cfg_none, s')
      /\ calls s' = [].
Proof.
  split; [reflexivity|].
  destruct (no_backend_marks_every_frame env_two svc_none cfg_none
              [frame_at 0; frame_at 1] 5 10 None false [] (start env_two tt))
    as (s' & Hrun & Hc & _); [reflexivity | reflexivity |].
  exists s'. split; [exact Hrun | exact Hc].
Defined.

(** X28. The runtime check of the settings changes the service for good.
    After a call of [batch_analyze_frames], however it ends, the service is
    the refreshed one: the custom endpoint is in use if it was before or if
    the settings now name one; a service that used it already is unchanged,
    and the client and the template are never touched. *)
Theorem service_after_call (E : Env) svc cfg (frames : list frame)
        (max_workers batch_size : Z) user_id db schedule (s : St E) :
  snd (fst (batch_analyze_frames E svc cfg frames max_workers batch_size user_id db
                                 schedule s))
  = refreshed svc cfg
  /\ use_custom_gpt (refreshed svc cfg)
     = use_custom_gpt svc || (is_set (GPT_BASE_URL cfg) && is_set (GPT_BEARER_TOKEN cfg))
  /\ (if use_custom_gpt svc then refreshed svc cfg = svc
      else client (refreshed svc cfg) = client svc
           /\ prompt_template (refreshed svc cfg) = prompt_template svc).
Proof.
  split; [|split].
  - unfold batch_analyze_frames. repeat case_match; reflexivity.
  - unfold refreshed.
    destruct (use_custom_gpt svc) eqn:Hc, (is_set (GPT_BASE_URL cfg)),
      (is_set (GPT_BEARER_TOKEN cfg)); simpl; auto.
  - unfold refreshed.
    destruct (use_custom_gpt svc); [rewrite andb_false_r; reflexivity|].
    destruct (_ && _); split; reflexivity.
Qed.

(** ** Requests of a run: the template and the count *)

Section RequestFacts.

Context (E : Env).

Ltac run := unfold bind, ret, raise, try, ask, now, call in *; simpl in *.

(** The template of the request is the one [get_prompt_template] gives,
    when it is not the default one and a user and a session are given. *)
Lemma batch_body_template svc api_key frames user_id db start template (s : St E) :
  (forall s0, fst (get_prompt_template E svc user_id db s0) = inr template) ->
  exists r s' new,
    batch_body E svc api_key frames user_id db start s = (inr r, s')
    /\ calls s' = calls s ++ new
    /\ Forall (fun c =>
                 req_template (snd c)
                 = if is_set user_id && db
                      && negb (String.eqb template (prompt_template svc))
                   then Some template else None) new.
Proof.
  intros Hstable. unfold batch_body.
  destruct (read_images_count E frames s) as (imgs & s1 & Himgs & Hc1 & _).
  unfold bind at 1. rewrite Himgs.
  destruct imgs as [e|[|img images]].
  - run. eexists (inl (e, frames)), s1, []. rewrite app_nil_r. auto.
  - run. eexists (inr frames), s1, []. rewrite app_nil_r. auto.
  - destruct (get_prompt_template_run E svc user_id db s1) as (t & s2 & Ht & Hc2).
    assert (t = template) as ->.
    { specialize (Hstable s1). rewrite Ht in Hstable. simpl in Hstable. congruence. }
    unfold bind at 1. rewrite Ht.
    match goal with |- context [guarded_call E svc api_key ?r] => set (req := r) end.
    unfold bind at 1. rewrite guarded_call_sends.
    assert (Hreq : Forall (fun c =>
                 req_template (snd c)
                 = if is_set user_id && db
                      && negb (String.eqb template (prompt_template svc))
                   then Some template else None) [(backend_of svc api_key, req)]).
    { constructor; [reflexivity | constructor]. }
    destruct (call_outcome svc _) as [e|content]; run.
    + eexists _, _, [(backend_of svc api_key, req)]. split; [reflexivity|].
      split; [simpl; congruence | exact Hreq].
    + eexists _, _, [(backend_of svc api_key, req)]. split; [reflexivity|].
      split; [simpl; congruence | exact Hreq].
Qed.







End RequestFacts.

(** X29. The rules of the user reach the model.  With a user and a
    session, when the store holds non-empty rules for that user, every
    request of the batch call carries the prompt that [_build_full_prompt]
    builds from the default template and these rules; only when that prompt
    is the default template itself does the request fall back to the default
    batch prompt. *)
Theorem request_carries_the_users_rules (E : Env) svc (frames_batch : list frame)
        user_id db (rules : string) (s : St E) :
  is_set user_id && db = true ->
  (forall w, fst (select_rules E (default "" user_id) w) = inr (Some rules)) ->
  rules <> "" ->
  exists r s' new,
    analyze_frame_batch E svc frames_batch user_id db s = (r, s')
    /\ calls s' = calls s ++ new
    /\ Forall (fun c =>
                 req_template (snd c)
                 = if String.eqb (_build_full_prompt (prompt_template svc) rules)
                                 (prompt_template svc)
                   then None
                   else Some (_build_full_prompt (prompt_template svc) rules)) new.
Proof.
  intros Huser Hstore Hrules.
  set (template := _build_full_prompt (prompt_template svc) rules).
  assert (Hstable : forall s0,
             fst (get_prompt_template E svc user_id db s0) = inr template).
  { intros s0. unfold get_prompt_template. rewrite Huser.
    unfold bind, ask, ret. specialize (Hstore (world s0)).
    destruct (select_rules E (default "" user_id) (world s0)) as [a w]. simpl in *.
    subst a. destruct rules; [contradiction | reflexivity]. }
  assert (Hbody : forall api_key s1, calls s1 = calls s ->
    exists r s' new,
      (match frames_batch with
       | [] => ret E []
       | _ :: _ =>
           bind E (now E) (fun start_time =>
           bind E (batch_body E svc api_key frames_batch user_id db start_time) (fun r =>
           match r with
           | inr frames' => ret E frames'
           | inl (e, frames') => ret E (batch_failed e frames')
           end))
       end) s1 = (r, s')
      /\ calls s' = calls s ++ new
      /\ Forall (fun c =>
                   req_template (snd c)
                   = if String.eqb template (prompt_template svc)
                     then None else Some template) new).
  { intros api_key s1 Hs1. destruct frames_batch as [|f frames'] eqn:Hframes.
    - exists (inr []), s1, []. rewrite app_nil_r. auto.
    - rewrite <- Hframes in *. unfold bind at 1, now.
      destruct (batch_body_template E svc api_key frames_batch user_id db
                  (clock E (world s1)) template s1 Hstable)
        as (r & s' & new & Hr & Hc & Hreq).
      unfold bind at 1. rewrite Hr. rewrite Hs1 in Hc. rewrite Huser in Hreq.
      assert (Hreq' : Forall (fun c =>
                   req_template (snd c)
                   = if String.eqb template (prompt_template svc)
                     then None else Some template) new).
      { eapply Forall_impl; [exact Hreq|]. intros c ->.
        destruct (String.eqb template (prompt_template svc)); reflexivity. }
      destruct r as [[e out]|out]; unfold ret; eexists _, s', new; auto. }
  unfold analyze_frame_batch.
  destruct (use_custom_gpt svc) eqn:Hcustom; simpl.
  - unfold bind at 1, ret at 1. apply Hbody. reflexivity.
  - destruct (get_openai_client_run E svc user_id db s) as (c & s1 & Hclient & Hc1).
    unfold bind at 1, bind at 1. rewrite Hclient.
    destruct c as [k|].
    + unfold ret at 1. apply Hbody, Hc1.
    + unfold raise. exists (inl (Exn ValueError NO_KEY)), s1, [].
      rewrite app_nil_r. auto.
Qed.

Lemma request_carries_the_users_rules_witness :
  (forall w, fst (select_rules env_user_rules "u1" w) = inr (Some "Be brief."))
  /\ exists r s' new,
      analyze_frame_batch env_user_rules svc_demo [frame_at 0] (Some "u1") true
                          (start env_user_rules tt) = (r, s')
      /\ calls s' = new
      /\ Forall (fun c =>
                   req_template (snd c)
                   = Some (_build_full_prompt demo_template "Be brief.")) new.
Proof.
  split; [reflexivity|].
  destruct (request_carries_the_users_rules env_user_rules svc_demo [frame_at 0]
              (Some "u1") true "Be brief." (start env_user_rules tt))
    as (r & s' & new & Hrun & Hc & Hreq); [reflexivity | reflexivity | discriminate |].
  exists r, s', new. split; [exact Hrun|]. split; [exact Hc|].
  eapply Forall_impl; [exact Hreq|]. intros c ->. reflexivity.
Defined.


